(** * transfer-nlp: the declarative object-graph builder

    A shallow embedding of [transfer_nlp/plugins/config.py]
    ([ExperimentConfig.__init__] and [ExperimentConfig._build_items])
    together with the properties of its specification.

    Python dictionaries keep insertion order and the resolver's behaviour
    depends on it (iteration order of [config.items()]), so a dictionary is
    an association list with the update, lookup and delete of a [dict]. *)

From Stdlib Require Import String Ascii List ZArith Bool Arith Lia.
From Stdlib Require Import Permutation Sorted.
Import ListNotations.

Local Open Scope string_scope.
Local Open Scope list_scope.

(** ** Values

    What a configuration can hold (the JSON data model), the instances built
    by registered constructors and the resolver instance itself ([self]). *)

#[local] Set Warnings "-register-all".

Inductive value : Type :=
| VNone
| VBool (b : bool)
| VInt (z : Z)
| VFloat (bits : Z)
| VStr (s : string)
| VList (l : list value)
| VDict (d : list (string * value))
| VObj (cls : string) (kwargs : list (string * value))
| VSelf.

(** [isinstance(v, dict)], [isinstance(v, list)], [isinstance(v, str)]. *)
Definition is_dict (v : value) : bool :=
  match v with VDict _ => true | _ => false end.

Definition is_list (v : value) : bool :=
  match v with VList _ => true | _ => false end.

Definition is_str (v : value) : bool :=
  match v with VStr _ => true | _ => false end.

(** [not isinstance(v, dict) and not isinstance(v, list)] *)
Definition is_scalar (v : value) : bool := negb (is_dict v) && negb (is_list v).

(** ** Dictionaries *)

Definition dict (A : Type) : Type := list (string * A).

Definition keys {A} (d : dict A) : list string := map fst d.

Fixpoint dget {A} (k : string) (d : dict A) : option A :=
  match d with
  | [] => None
  | (k', v) :: d' => if (k' =? k)%string then Some v else dget k d'
  end.

Definition dmem {A} (k : string) (d : dict A) : bool :=
  match dget k d with Some _ => true | None => false end.

(** [d[k] = v]: an existing key keeps its place, a new one goes last. *)
Fixpoint dset {A} (k : string) (v : A) (d : dict A) : dict A :=
  match d with
  | [] => [(k, v)]
  | (k', v') :: d' =>
      if (k' =? k)%string then (k, v) :: d' else (k', v') :: dset k v d'
  end.

(** [del d[k]] *)
Definition ddel {A} (k : string) (d : dict A) : dict A :=
  filter (fun kv => negb (fst kv =? k)%string) d.

(** [for k in ks: del d[k]] *)
Definition ddel_all {A} (ks : list string) (d : dict A) : dict A :=
  fold_left (fun acc k => ddel k acc) ks d.

(** A dict comprehension [{k: v for k, v in pairs}]. *)
Definition dict_of_pairs {A} (ps : list (string * A)) : dict A :=
  fold_left (fun acc kv => dset (fst kv) (snd kv) acc) ps [].

(** ** Strings: [str.replace], [p[-1]], [p[:-1]] *)

(** After a match at the current position the scan resumes behind it:
    [skip] counts the characters of the match still to pass over. *)
Fixpoint replace_from (old new : string) (skip : nat) (s : string) : string :=
  match s with
  | EmptyString => EmptyString
  | String c s' =>
      match skip with
      | S n => replace_from old new n s'
      | O =>
          if prefix old s
          then (new ++ replace_from old new (String.length old - 1) s')%string
          else String c (replace_from old new 0 s')
      end
  end.

(** With an empty [old], Python puts [new] before every character and at
    the end. *)
Fixpoint insert_after_each (new s : string) : string :=
  match s with
  | EmptyString => EmptyString
  | String c s' => String c (new ++ insert_after_each new s')%string
  end.

Definition str_replace (s old new : string) : string :=
  match old with
  | EmptyString => (new ++ insert_after_each new s)%string
  | String _ _ => replace_from old new 0 s
  end.

(** [p[-1]]; [None] stands for the [IndexError] of the empty string. *)
Fixpoint last_char (p : string) : option ascii :=
  match p with
  | EmptyString => None
  | String c EmptyString => Some c
  | String _ p' => last_char p'
  end.

(** [p[:-1]] *)
Fixpoint drop_last (p : string) : string :=
  match p with
  | EmptyString => EmptyString
  | String _ EmptyString => EmptyString
  | String c p' => String c (drop_last p')
  end.

(** ** Environment substitution ([do_env_subs]) *)

(** One step of a stable sort by decreasing length. *)
Fixpoint insert_by_len (k : string) (l : list string) : list string :=
  match l with
  | [] => [k]
  | y :: l' =>
      if (String.length k <? String.length y)%nat
      then y :: insert_by_len k l'
      else k :: l
  end.

(** [sorted(env.keys(), key=lambda k: len(k), reverse=True)] *)
Definition env_keys (env : dict string) : list string :=
  fold_right insert_by_len [] (keys env).

(** [v_upd = v_upd.replace(env_key, env[env_key])] *)
Definition subst_key (env : dict string) (acc k : string) : string :=
  match dget k env with
  | Some r => str_replace acc k r
  | None => acc
  end.

Definition do_env_subs (env : dict string) (v : value) : value :=
  match v with
  | VStr s => VStr (fold_left (subst_key env) (env_keys env) s)
  | _ => v
  end.

(** ** Registry, exceptions and provenance *)

(** What the call [clazz( **params)] of a constructor does: it returns
    the instance, or it raises. An [UnconfiguredItemsException] of a
    constructor is caught by the [except] clauses of [__init__] like the
    one that [_build_items] raises itself; its [items] are a dictionary of
    names, like those of every instance that this module makes. Any other
    exception of a constructor is not told apart further. *)
Inductive construction : Type :=
| Built (obj : value)
| RaisesUnconfigured (items : list (string * list string))
| RaisesOther.

(** What the resolver reads of a registered class: the result of
    [inspect.getfullargspec(clazz.__init__)] and the constructor call
    [clazz( **params)]. *)
Record pyclass : Type := {
  cargs : list string;                    (* [spec.args], receiver first *)
  cdefaults : list value;                 (* [spec.defaults]; empty for [None] *)
  cinit : dict value -> construction
}.

Inductive exn : Type :=
| ValueError_not_dict (k : string)
| ValueError_no_name (k : string)
| ValueError_not_registered (k : string) (name : value)
| ValueError_list_param (p : string)
| ValueError_param (p : string)
| TypeError_unhashable
| TypeError_multiple_values (k : string)
| IndexError
| ConstructorError (k : string)
| UnconfiguredItemsException (items : dict (list string)).

Inductive result (A : Type) : Type :=
| Ok (a : A)
| Raise (e : exn).

Arguments Ok {A} a.
Arguments Raise {A} e.

Definition bind {A B} (m : result A) (f : A -> result B) : result B :=
  match m with
  | Ok a => f a
  | Raise e => Raise e
  end.

Notation "x <- m ;; f" := (bind m (fun x => f))
  (at level 61, m at next level, right associativity).

(** [ParamFactory(v)], [PluginFactory(cls, param2config_key, *args, **kwargs)];
    a class is named by its registry key, the builtin [list] by "list". *)
Inductive factory : Type :=
| ParamFactory (param : value)
| PluginFactory (cls : string) (param2config_key : option (dict (option value)))
    (args : list value) (kwargs : dict value).

(** [PluginFactory(cls=clazz, param2config_key=param2config_key, **params)]:
    a keyword of [params] that is also the name of a parameter of
    [PluginFactory.__init__] is given twice, which is a [TypeError]. *)
Definition factory_parameters : list string :=
  ["self"; "cls"; "param2config_key"].

Definition clashes (params : dict value) : bool :=
  existsb (fun p => dmem p params) factory_parameters.

Definition new_plugin_factory (k cls : string)
  (param2config_key : dict (option value)) (params : dict value)
  : result factory :=
  if clashes params then Raise (TypeError_multiple_values k)
  else Ok (PluginFactory cls (Some param2config_key) [] params).

(** ** One descriptor *)

Definition reserved : string := "experiment_config".

(** [{p: pv for p, pv in v.items() if p != '_name'}] *)
Definition named_params (v : dict value) : dict value :=
  filter (fun kv => negb (fst kv =? "_name")%string) v.

(** [{p: pv for p, pv in zip(reversed(spec.args), reversed(spec.defaults))}
     if spec.defaults else {}] *)
Definition default_params (c : pyclass) : dict value :=
  match cdefaults c with
  | [] => []
  | _ :: _ => dict_of_pairs (combine (rev (cargs c)) (rev (cdefaults c)))
  end.

(** The loop that collects [literal_params] and rejects parameter values
    that are neither a key name nor a list of key names. *)
Fixpoint literal_params_from (items : dict value) (acc : dict value)
  : result (dict value) :=
  match items with
  | [] => Ok acc
  | (p, pv) :: rest =>
      match last_char p with
      | None => Raise IndexError
      | Some c =>
          if (c =? "_")%char
          then literal_params_from rest (dset (drop_last p) pv acc)
          else
            match pv with
            | VList l =>
                if forallb is_str l then literal_params_from rest acc
                else Raise (ValueError_list_param p)
            | VStr _ => literal_params_from rest acc
            | _ => Raise (ValueError_param p)
            end
      end
  end.

Definition literal_params (v : dict value) : result (dict value) :=
  literal_params_from v [].

(** The loop over a list alias: the values found up to the first key that
    is not in [experiment] ([break]). A key that is a list or a dict is
    unhashable ([TypeError]); any other value that is not a string is no
    key of [experiment]. *)
Fixpoint collect_alias (alias : list value) (experiment : dict value)
  : result (list value) :=
  match alias with
  | [] => Ok []
  | p :: rest =>
      match p with
      | VStr s =>
          match dget s experiment with
          | Some x => l <- collect_alias rest experiment ;; Ok (x :: l)
          | None => Ok []
          end
      | VList _ | VDict _ => Raise TypeError_unhashable
      | _ => Ok []
      end
  end.

(** [params] and [param2config_key] of the descriptor under construction. *)
Record fill : Type := {
  params : dict value;
  param2config_key : dict (option value)
}.

Definition set_param (arg : string) (x : value) (f : fill) : fill :=
  {| params := dset arg x (params f); param2config_key := param2config_key f |}.

Definition set_key (arg : string) (src : option value) (f : fill) : fill :=
  {| params := params f; param2config_key := dset arg src (param2config_key f) |}.

(** [params = {}], [param2config_key = {}] *)
Definition empty_fill : fill := {| params := []; param2config_key := [] |}.

(** What one visit of a pending entry does when the checks and the loop
    over the arguments have raised nothing: the instance is stored in
    [experiment] and its factory in [self.factories]; or the instance is
    stored and the call that makes the factory raises; or the entry is
    recorded as unconfigured. *)
Inductive attempt : Type :=
| Constructed (obj : value) (fac : factory)
| Assigned (obj : value) (e : exn)
| Unconfigured (missing : list string).

Section Descriptor.

Variable CLASSES : dict pyclass.

(** [CLASSES.get(v['_name'])] *)
Definition lookup_class (name : value) : result (option pyclass) :=
  match name with
  | VStr n => Ok (dget n CLASSES)
  | VList _ | VDict _ => Raise TypeError_unhashable
  | _ => Ok None
  end.

Variable default_params_mode : Z.
Variables config experiment : dict value.

(** The body of [for arg in spec.args[1:]]. *)
Definition fill_arg (literal named defaults : dict value)
  (f : fill) (arg : string) : result fill :=
  match dget arg literal with
  | Some lv => Ok (set_key arg None (set_param arg lv f))
  | None =>
      let f1 :=
        if (arg =? reserved)%string
        then set_key arg (Some (VStr arg)) (set_param arg VSelf f)
        else f in
      match dget arg named with
      | Some alias =>
          match alias with
          | VList names =>
              param_list <- collect_alias names experiment ;;
              Ok (set_key arg (Some alias)
                    (if (length param_list =? length names)%nat
                     then set_param arg (VList param_list) f1
                     else f1))
          | VStr s =>
              Ok (set_key arg (Some alias)
                    (match dget s experiment with
                     | Some x => set_param arg x f1
                     | None => f1
                     end))
          | VDict _ => Raise TypeError_unhashable
          | _ => Ok (set_key arg (Some alias) f1)
          end
      | None =>
          match dget arg experiment with
          | Some x => Ok (set_key arg (Some (VStr arg)) (set_param arg x f1))
          | None =>
              match dget arg defaults with
              | Some dv =>
                  if (default_params_mode =? 1)%Z && negb (dmem arg config)
                  then Ok (set_key arg None (set_param arg dv f1))
                  else if (default_params_mode =? 2)%Z
                  then Ok (set_key arg None (set_param arg dv f1))
                  else Ok f1
              | None => Ok f1
              end
          end
      end
  end.

Fixpoint fill_args (literal named defaults : dict value)
  (args : list string) (f : fill) : result fill :=
  match args with
  | [] => Ok f
  | arg :: rest =>
      f' <- fill_arg literal named defaults f arg ;;
      fill_args literal named defaults rest f'
  end.

(** [{arg for arg in spec.args[1:] if arg not in params}] *)
Definition missing_args (c : pyclass) (f : fill) : list string :=
  filter (fun arg => negb (dmem arg (params f))) (tl (cargs c)).

(** The body of [for k, v in config.items()]: the checks, the loop over
    the arguments and, with every argument filled, the two calls
    [clazz( **params)] and [PluginFactory(cls=clazz, ...)]. An exception
    of the constructor leaves nothing stored. *)
Definition build_one (k : string) (v : value) : result attempt :=
  match v with
  | VDict d =>
      match dget "_name" d with
      | None => Raise (ValueError_no_name k)
      | Some name =>
          clazz <- lookup_class name ;;
          match clazz, name with
          | Some c, VStr n =>
              literal <- literal_params d ;;
              f <- fill_args literal (named_params d) (default_params c)
                     (tl (cargs c))
                     empty_fill ;;
              if (Z.of_nat (length (params f))
                  =? Z.of_nat (length (cargs c)) - 1)%Z
              then
                match cinit c (params f) with
                | Built obj =>
                    match new_plugin_factory k n (param2config_key f)
                            (params f) with
                    | Ok fac => Ok (Constructed obj fac)
                    | Raise e => Ok (Assigned obj e)
                    end
                | RaisesUnconfigured items =>
                    Raise (UnconfiguredItemsException items)
                | RaisesOther => Raise (ConstructorError k)
                end
              else Ok (Unconfigured (missing_args c f))
          | _, _ => Raise (ValueError_not_registered k name)
          end
      end
  | _ => Raise (ValueError_not_dict k)
  end.

End Descriptor.

(** ** One scan and the loop of [_build_items] *)

Record scan_state : Type := {
  s_experiment : dict value;
  s_factories : dict factory;
  s_configured : list string;          (* [configured], in order of visit *)
  s_unconfigured : dict (list string)  (* [unconfigured] *)
}.

(** The objects [_build_items] works on: [config] and [experiment] are
    the caller's dictionaries, changed in place, and [self.factories]. *)
Record state : Type := {
  config : dict value;
  experiment : dict value;
  factories : dict factory
}.

Inductive outcome : Type :=
| Returned
| Raised (e : exn)
| OutOfFuel.

Section Resolver.

Variable CLASSES : dict pyclass.

(** [for k, v in config.items()]: [config] itself is not changed during
    the scan, [experiment] and [self.factories] are; an exception leaves
    what the scan has done so far. *)
Fixpoint scan (mode : Z) (config : dict value) (items : dict value)
  (ss : scan_state) : scan_state * option exn :=
  match items with
  | [] => (ss, None)
  | (k, v) :: rest =>
      match build_one CLASSES mode config (s_experiment ss) k v with
      | Raise e => (ss, Some e)
      | Ok (Constructed obj fac) =>
          scan mode config rest
            {| s_experiment := dset k obj (s_experiment ss);
               s_factories := dset k fac (s_factories ss);
               s_configured := s_configured ss ++ [k];
               s_unconfigured := s_unconfigured ss |}
      | Ok (Assigned obj e) =>
          ({| s_experiment := dset k obj (s_experiment ss);
              s_factories := s_factories ss;
              s_configured := s_configured ss;
              s_unconfigured := s_unconfigured ss |}, Some e)
      | Ok (Unconfigured missing) =>
          scan mode config rest
            {| s_experiment := s_experiment ss;
               s_factories := s_factories ss;
               s_configured := s_configured ss;
               s_unconfigured := dset k missing (s_unconfigured ss) |}
      end
  end.

Definition scan_start (st : state) : scan_state :=
  {| s_experiment := experiment st;
     s_factories := factories st;
     s_configured := [];
     s_unconfigured := [] |}.

Definition after_scan (cfg : dict value) (ss : scan_state) : state :=
  {| config := cfg;
     experiment := s_experiment ss;
     factories := s_factories ss |}.

(** [while config: ...], one scan for each unit of fuel. *)
Fixpoint build_loop (fuel : nat) (mode : Z) (st : state) : state * outcome :=
  match config st with
  | [] => (st, Returned)
  | _ :: _ =>
      match fuel with
      | O => (st, OutOfFuel)
      | S fuel' =>
          let '(ss, err) :=
            scan mode (config st) (config st) (scan_start st) in
          match err with
          | Some e => (after_scan (config st) ss, Raised e)
          | None =>
              match s_configured ss with
              | [] =>
                  (after_scan (config st) ss,
                   Raised (UnconfiguredItemsException (s_unconfigured ss)))
              | _ :: _ =>
                  build_loop fuel' mode
                    (after_scan (ddel_all (s_configured ss) (config st)) ss)
              end
          end
      end
  end.

(** Every scan that goes on removes a key, so one more unit of fuel than
    there are pending keys is enough. *)
Definition _build_items (mode : Z) (st : state) : state * outcome :=
  build_loop (S (length (config st))) mode st.

(** ** [ExperimentConfig.__init__] *)

(** "extract simple parameters" *)
Definition extract_scalar (env : dict string)
  (acc : dict value * dict factory) (kv : string * value)
  : dict value * dict factory :=
  let '(k, v) := kv in
  if is_scalar v
  then
    let v' := do_env_subs env v in
    (dset k v' (fst acc), dset k (ParamFactory v') (snd acc))
  else acc.

(** "extract simple lists" *)
Definition extract_list (env : dict string)
  (acc : dict value * dict factory) (kv : string * value)
  : dict value * dict factory :=
  let '(k, v) := kv in
  match v with
  | VList l =>
      if forallb is_scalar l
      then
        let upd := map (do_env_subs env) l in
        (dset k (VList upd) (fst acc),
         dset k (PluginFactory "list" None [VList upd] []) (snd acc))
      else acc
  | _ => acc
  end.

(** The state in which the first tier starts: the entries classified as
    scalars and scalar lists have moved from [config] to [experiment]. *)
Definition classify (raw : dict value) (env : dict string) : state :=
  let config := raw in
  let acc1 := fold_left (extract_scalar env) config ([], []) in
  let acc2 := fold_left (extract_list env) config acc1 in
  {| config := ddel_all (keys (fst acc2)) config;
     experiment := fst acc2;
     factories := snd acc2 |}.

(** [except UnconfiguredItemsException as e: pass] *)
Definition tolerated (o : outcome) : bool :=
  match o with
  | Returned => true
  | Raised (UnconfiguredItemsException _) => true
  | _ => false
  end.

Definition run_tiers (st : state) : state * outcome :=
  let '(st0, o0) := _build_items 0 st in
  if tolerated o0
  then
    let '(st1, o1) := _build_items 1 st0 in
    if tolerated o1 then _build_items 2 st1 else (st1, o1)
  else (st0, o0).

(** [ExperimentConfig(experiment, **env)] for an in-memory mapping; with
    [Returned], [self.experiment] is the [experiment] of the state. *)
Definition __init__ (raw : dict value) (env : dict string)
  : state * outcome :=
  run_tiers (classify raw env).

End Resolver.

(** ** The caller's mapping

    The dictionaries that [__init__] is given and makes are objects of a
    heap: [config = dict(experiment)] and [experiment = {}] are new
    objects, and the run changes those two. The values inside are shared
    with the caller's mapping and not changed by the resolver. *)

Definition heap : Type := list (dict value).

Definition heap_new (h : heap) (d : dict value) : heap * nat :=
  (h ++ [d], length h).

Fixpoint heap_store (h : heap) (a : nat) (d : dict value) : heap :=
  match h, a with
  | [], _ => []
  | _ :: h', O => d :: h'
  | x :: h', S a' => x :: heap_store h' a' d
  end.

(** [ExperimentConfig(experiment, **env)] for the mapping at the address
    [caller]; [None] when there is no object at that address. *)
Definition ExperimentConfig (CLASSES : dict pyclass) (h : heap) (caller : nat)
  (env : dict string) : option (heap * outcome) :=
  match nth_error h caller with
  | None => None
  | Some mapping =>
      let '(h1, a_config) := heap_new h mapping in
      let '(h2, a_experiment) := heap_new h1 [] in
      let '(st, o) := __init__ CLASSES mapping env in
      Some (heap_store (heap_store h2 a_config (config st))
              a_experiment (experiment st), o)
  end.

(** ** Notions used to state the properties *)

(** The entries that classification moves to [experiment]: scalars, and
    lists of scalars. *)
Definition is_scalar_list (v : value) : bool :=
  match v with
  | VList l => forallb is_scalar l
  | _ => false
  end.

Definition is_simple (v : value) : bool := is_scalar v || is_scalar_list v.

(** Order of the substitution keys: no shorter key before a longer one. *)
Definition longer_first (k1 k2 : string) : Prop :=
  String.length k2 <= String.length k1.

(** When the last two branches of the loop over the arguments take the
    constructor default: [default_params_mode == 1 and arg not in config]
    or [default_params_mode == 2]. *)
Definition default_applies (mode : Z) (config : dict value) (arg : string)
  : bool :=
  ((mode =? 1)%Z && negb (dmem arg config)) || (mode =? 2)%Z.

(** The binding of the reserved parameter name to the resolver. *)
Definition self_binding (arg : string) : option value :=
  if (arg =? reserved)%string then Some VSelf else None.

(** What one pass of the loop body leaves in [params[arg]], if anything:
    the summary of [fill_arg] that the properties below are read from
    (see [fill_arg_params]). *)
Definition stored_value (mode : Z) (config experiment : dict value)
  (literal named defaults : dict value) (arg : string) : option value :=
  match dget arg literal with
  | Some lv => Some lv
  | None =>
      match dget arg named with
      | Some (VList names) =>
          match collect_alias names experiment with
          | Ok l =>
              if (length l =? length names)%nat then Some (VList l)
              else self_binding arg
          | Raise _ => self_binding arg
          end
      | Some (VStr s) =>
          match dget s experiment with
          | Some x => Some x
          | None => self_binding arg
          end
      | Some _ => self_binding arg
      | None =>
          match dget arg experiment with
          | Some x => Some x
          | None =>
              match dget arg defaults with
              | Some dv =>
                  if default_applies mode config arg then Some dv
                  else self_binding arg
              | None => self_binding arg
              end
          end
      end
  end.

Definition store (arg : string) (x : option value) (p : dict value)
  : dict value :=
  match x with
  | Some v => dset arg v p
  | None => p
  end.

(** The order of sources as the specification words it: the first one that
    applies among literal override, self-reference, alias (a single key,
    or a list with all its keys present), direct key and, in tier 1 or 2,
    the constructor default. *)
Definition alias_value (named experiment : dict value) (arg : string)
  : option value :=
  match dget arg named with
  | Some (VStr s) => dget s experiment
  | Some (VList names) =>
      match collect_alias names experiment with
      | Ok l => if (length l =? length names)%nat then Some (VList l) else None
      | Raise _ => None
      end
  | _ => None
  end.

Definition spec_first_source (mode : Z) (config experiment : dict value)
  (literal named defaults : dict value) (arg : string) : option value :=
  match dget arg literal with
  | Some lv => Some lv
  | None =>
      if (arg =? reserved)%string then Some VSelf
      else
        match alias_value named experiment arg with
        | Some x => Some x
        | None =>
            match dget arg experiment with
            | Some x => Some x
            | None =>
                match dget arg defaults with
                | Some dv =>
                    if default_applies mode config arg then Some dv else None
                | None => None
                end
            end
        end
  end.

(** The check that the loop over [v.items()] makes on one parameter. *)
Definition valid_param (kv : string * value) : bool :=
  match last_char (fst kv) with
  | None => false
  | Some c =>
      if (c =? "_")%char then true
      else
        match snd kv with
        | VStr _ => true
        | VList l => forallb is_str l
        | _ => false
        end
  end.

Definition is_unconfigured (e : exn) : bool :=
  match e with
  | UnconfiguredItemsException _ => true
  | _ => false
  end.

(** [items] reports every pending key of [st] with the arguments that a
    visit of its entry in tier [mode] leaves unfilled. *)
Definition reports_pending (CLASSES : dict pyclass) (mode : Z) (st : state)
  (items : dict (list string)) : Prop :=
  (forall k, In k (keys items) <-> In k (keys (config st)))
  /\ forall k v, In (k, v) (config st) ->
       exists d n c lit f,
         v = VDict d /\ dget "_name" d = Some (VStr n)
         /\ dget n CLASSES = Some c
         /\ literal_params d = Ok lit
         /\ fill_args mode (config st) (experiment st) lit (named_params d)
              (default_params c) (tl (cargs c)) empty_fill = Ok f
         /\ S (length (params f)) <> length (cargs c)
         /\ dget k items = Some (missing_args c f).

(** The visit of an entry raises [e], before anything is stored or with
    the instance stored. *)
Definition visit_raises (CLASSES : dict pyclass) (mode : Z)
  (config experiment : dict value) (k : string) (v : value) (e : exn) : Prop :=
  build_one CLASSES mode config experiment k v = Raise e
  \/ exists obj,
       build_one CLASSES mode config experiment k v = Ok (Assigned obj e).

(** How [_build_items] can be left: with nothing pending; with the
    exception that it raises itself after a scan that constructed nothing;
    or with the exception that the visit of a pending entry raised. *)
Definition build_items_exit (CLASSES : dict pyclass) (mode : Z)
  (unique_keys : Prop) (st' : state) (o : outcome) : Prop :=
  match o with
  | Returned => config st' = []
  | Raised e =>
      (exists items,
          e = UnconfiguredItemsException items
          /\ config st' <> []
          /\ (unique_keys -> reports_pending CLASSES mode st' items))
      \/ (exists k v exp_k,
            In (k, v) (config st')
            /\ visit_raises CLASSES mode (config st') exp_k k v e)
  | OutOfFuel => False
  end.

(** No registered constructor raises [UnconfiguredItemsException]. *)
Definition quiet_constructors (CLASSES : dict pyclass) : Prop :=
  forall n c kwargs items,
    dget n CLASSES = Some c -> cinit c kwargs <> RaisesUnconfigured items.

(** No key is both resolved and pending. *)
Definition disjoint_keys (st : state) : Prop :=
  forall k, In k (keys (config st)) -> In k (keys (experiment st)) -> False.

(** A top-level value that is a mapping without the field [_name], or a
    list with an element that is no scalar. *)
Definition malformed (v : value) : bool :=
  match v with
  | VDict d => negb (dmem "_name" d)
  | VList l => negb (forallb is_scalar l)
  | _ => false
  end.

Definition malformed_error (k : string) (v : value) : exn :=
  match v with
  | VDict _ => ValueError_no_name k
  | _ => ValueError_not_dict k
  end.

(** The error as the specification places it: raised by classification,
    when no descriptor has been constructed. *)
Definition surfaced_during_classification (CLASSES : dict pyclass)
  (raw : dict value) (env : dict string) : Prop :=
  exists st e,
    __init__ CLASSES raw env = (st, Raised e)
    /\ experiment st = experiment (classify raw env)
    /\ factories st = factories (classify raw env).

(** The states in which the condition of the [while] of [_build_items] is
    evaluated in a tier that starts in [st0]. *)
Inductive loop_state (CLASSES : dict pyclass) (mode : Z) (st0 : state)
  : state -> Prop :=
| loop_enter : loop_state CLASSES mode st0 st0
| loop_again st ss :
    loop_state CLASSES mode st0 st ->
    config st <> [] ->
    scan CLASSES mode (config st) (config st) (scan_start st) = (ss, None) ->
    s_configured ss <> [] ->
    loop_state CLASSES mode st0
      (after_scan (ddel_all (s_configured ss) (config st)) ss).

(** ... and in the three tiers of a run of [__init__]. *)
Inductive run_state (CLASSES : dict pyclass) (raw : dict value)
  (env : dict string) : state -> Prop :=
| in_tier_0 st :
    loop_state CLASSES 0 (classify raw env) st ->
    run_state CLASSES raw env st
| in_tier_1 st0 o0 st :
    _build_items CLASSES 0 (classify raw env) = (st0, o0) ->
    tolerated o0 = true ->
    loop_state CLASSES 1 st0 st ->
    run_state CLASSES raw env st
| in_tier_2 st0 o0 st1 o1 st :
    _build_items CLASSES 0 (classify raw env) = (st0, o0) ->
    tolerated o0 = true ->
    _build_items CLASSES 1 st0 = (st1, o1) ->
    tolerated o1 = true ->
    loop_state CLASSES 2 st1 st ->
    run_state CLASSES raw env st.

(** The points inside a scan: the state after the visits of the first
    entries of a scan that starts in [st]. *)
Definition scan_point (CLASSES : dict pyclass) (mode : Z) (st st' : state)
  : Prop :=
  exists pre post ss,
    config st = pre ++ post
    /\ scan CLASSES mode (config st) pre (scan_start st) = (ss, None)
    /\ st' = after_scan (config st) ss.

(** What holds of the two mappings between scans. *)
Definition resolution_invariant (raw : dict value) (st : state) : Prop :=
  disjoint_keys st
  /\ NoDup (keys (config st))
  /\ NoDup (keys (experiment st))
  /\ (forall k, In k (keys raw)
                <-> In k (keys (config st)) \/ In k (keys (experiment st)))
  /\ (forall k v, In (k, v) (config st) -> In (k, v) raw).

(** What holds of them at every end of a tier as well, also when an
    exception has ended a scan: every key of the configuration is resolved
    or pending. *)
Definition pending_or_resolved (raw : dict value) (st : state) : Prop :=
  NoDup (keys (config st))
  /\ NoDup (keys (experiment st))
  /\ (forall k, In k (keys raw)
                <-> In k (keys (config st)) \/ In k (keys (experiment st)))
  /\ (forall k v, In (k, v) (config st) -> In (k, v) raw).

(** Dependencies as the specification speaks of them: the entry [k]
    depends on the entry [s] when a constructor parameter of [k] that has
    no default refers to [s], by an alias, in a list alias or by its own
    name. *)
Definition refers_to (d : dict value) (arg s : string) : Prop :=
  dget arg (named_params d) = Some (VStr s)
  \/ (exists names,
        dget arg (named_params d) = Some (VList names) /\ In (VStr s) names)
  \/ (dget arg (named_params d) = None /\ arg = s).

Definition depends_on (CLASSES : dict pyclass) (raw : dict value)
  (k s : string) : Prop :=
  exists d n c arg,
    In (k, VDict d) raw
    /\ dget "_name" d = Some (VStr n) /\ dget n CLASSES = Some c
    /\ In arg (tl (cargs c))
    /\ dmem arg (default_params c) = false
    /\ In s (keys raw)
    /\ refers_to d arg s.

Definition no_dependency_cycle (CLASSES : dict pyclass) (raw : dict value)
  : Prop :=
  exists rank : string -> nat,
    forall k s, depends_on CLASSES raw k s -> rank s < rank k.

(** What makes the resolver succeed. A key is supplied before [k] when it
    is the key of a scalar, of a list of scalars, or of an entry of lower
    rank. *)
Definition supplied_before (raw : dict value) (rank : string -> nat)
  (k s : string) : Prop :=
  exists v, In (s, v) raw /\ (is_simple v = true \/ rank s < rank k).

(** Every way in which the parameter [arg] of the entry [k] is filled by
    tier 2 at the latest. *)
Definition arg_supplied (raw : dict value) (rank : string -> nat) (k : string)
  (d : dict value) (c : pyclass) (arg : string) : Prop :=
  In (arg ++ "_")%string (keys d)
  \/ arg = reserved
  \/ (exists s,
        dget arg (named_params d) = Some (VStr s)
        /\ supplied_before raw rank k s)
  \/ (exists names,
        dget arg (named_params d) = Some (VList (map VStr names))
        /\ Forall (supplied_before raw rank k) names)
  \/ (dget arg (named_params d) = None
      /\ (supplied_before raw rank k arg
          \/ dmem arg (default_params c) = true)).

(** An entry that is a descriptor in good form, of a registered class
    whose constructor does not raise and has no parameter named like one
    of [PluginFactory.__init__], with every parameter supplied. *)
Definition resolvable_entry (CLASSES : dict pyclass) (raw : dict value)
  (rank : string -> nat) (k : string) (v : value) : Prop :=
  exists d n c,
    v = VDict d
    /\ dget "_name" d = Some (VStr n) /\ dget n CLASSES = Some c
    /\ forallb valid_param d = true
    /\ cargs c <> [] /\ NoDup (tl (cargs c))
    /\ (forall kwargs, exists obj, cinit c kwargs = Built obj)
    /\ (forall arg, In arg (tl (cargs c)) -> ~ In arg factory_parameters)
    /\ (forall arg, In arg (tl (cargs c)) -> arg_supplied raw rank k d c arg).

Definition well_founded_config (CLASSES : dict pyclass) (raw : dict value)
  : Prop :=
  NoDup (keys raw)
  /\ exists rank : string -> nat,
       forall k v,
         In (k, v) raw -> is_simple v = false ->
         resolvable_entry CLASSES raw rank k v.

(** What holds between the scans of a configuration with supplied
    parameters. *)
Definition resolving (CLASSES : dict pyclass) (raw : dict value)
  (rank : string -> nat) (st : state) : Prop :=
  resolution_invariant raw st
  /\ forall k v, In (k, v) (config st) -> resolvable_entry CLASSES raw rank k v.

(** ** A registry for the examples *)

Definition make_class (name : string) (args : list string)
  (defaults : list value) : pyclass :=
  {| cargs := "self" :: args;
     cdefaults := defaults;
     cinit := fun kwargs => Built (VObj name kwargs) |}.

(** A class whose constructor raises [UnconfiguredItemsException(items)]. *)
Definition raising_class (args : list string)
  (items : dict (list string)) : pyclass :=
  {| cargs := "self" :: args;
     cdefaults := [];
     cinit := fun _ => RaisesUnconfigured items |}.

Definition EXAMPLES : dict pyclass :=
  [("Box", make_class "Box" ["value"] []);
   ("Pair", make_class "Pair" ["a"; "b"] [VInt 0]);
   ("Model", make_class "Model" ["layers"; "p"] [VInt 7]);
   ("Ctx", make_class "Ctx" [reserved] []);
   ("Probe", make_class "Probe" [reserved] [VNone])].

(** The same registry with a class whose constructor raises
    [UnconfiguredItemsException] and a class with a parameter [cls]. *)
Definition FAULTY : dict pyclass :=
  EXAMPLES
  ++ [("Sub", raising_class [] [("x", ["y"])]);
      ("Wrap", make_class "Wrap" ["cls"] [])].

Definition descriptor (name : string) (params : dict value) : value :=
  VDict (("_name", VStr name) :: params).

(** ** The registry: [register_plugin]

    [CLASSES] is a dictionary from the name of a class to the class;
    [name] stands for [clazz.__name__]. *)

Inductive registration : Type :=
| Registered (CLASSES : dict pyclass)      (* [CLASSES[name] = clazz] *)
| AlreadyRegistered (name : string).       (* [raise ValueError(...)] *)

Definition register_plugin (CLASSES : dict pyclass) (name : string)
  (clazz : pyclass) : registration :=
  if dmem name CLASSES then AlreadyRegistered name
  else Registered (dset name clazz CLASSES).

(** ** Factories: [create]

    [self.cls( *self.args, **self.kwargs)] for the factories that the
    resolver makes: [ParamFactory(v)] returns its parameter, the factory of
    a list of scalars calls the builtin [list] on that list, and the factory
    of a descriptor calls the constructor with the keyword arguments. The
    result is [None] when the constructor raises, and for a call of another
    form, which the resolver never records. *)
Definition create (CLASSES : dict pyclass) (f : factory) : option value :=
  match f with
  | ParamFactory param => Some param
  | PluginFactory _ None [VList upd] [] => Some (VList upd)
  | PluginFactory cls (Some _) [] kwargs =>
      match dget cls CLASSES with
      | Some c =>
          match cinit c kwargs with
          | Built obj => Some obj
          | _ => None
          end
      | None => None
      end
  | _ => None
  end.

(** ** The map-like methods of [ExperimentConfig] *)

(** [self.factories] and [self.experiment], which is [None] until
    [__init__] has come to its end. *)
Record instance : Type := {
  self_factories : dict factory;
  self_experiment : option (dict value)
}.

Inductive access_error : Type :=
| NotSetUp                    (* [ValueError('experiment config is not setup yet!')] *)
| KeyError (item : string)
| CannotUpdate.               (* [ValueError("cannot update experiment!")] *)

Inductive access (A : Type) : Type :=
| Got (a : A)
| Failed (e : access_error).

Arguments Got {A} a.
Arguments Failed {A} e.

(** The object that [ExperimentConfig(experiment, **env)] returns; [None]
    when [__init__] raises. *)
Definition new_instance (CLASSES : dict pyclass) (raw : dict value)
  (env : dict string) : option instance :=
  match __init__ CLASSES raw env with
  | (st, Returned) =>
      Some {| self_factories := factories st;
              self_experiment := Some (experiment st) |}
  | _ => None
  end.

Module Facade.

Definition _check_init (self : instance) : access (dict value) :=
  match self_experiment self with
  | Some experiment => Got experiment
  | None => Failed NotSetUp
  end.

Definition __getitem__ (self : instance) (item : string) : access value :=
  match _check_init self with
  | Failed e => Failed e
  | Got experiment =>
      match dget item experiment with
      | Some x => Got x
      | None => Failed (KeyError item)
      end
  end.

Definition get (self : instance) (item : string) (default : value)
  : access value :=
  match _check_init self with
  | Failed e => Failed e
  | Got experiment =>
      match dget item experiment with
      | Some x => Got x
      | None => Got default
      end
  end.

Definition __iter__ (self : instance) : access (list string) :=
  match _check_init self with
  | Failed e => Failed e
  | Got experiment => Got (keys experiment)
  end.

Definition items (self : instance) : access (dict value) := _check_init self.

Definition values (self : instance) : access (list value) :=
  match _check_init self with
  | Failed e => Failed e
  | Got experiment => Got (map snd experiment)
  end.

Definition keys (self : instance) : access (list string) := __iter__ self.

Definition __setitem__ (self : instance) (key : string) (value : value)
  : access unit :=
  Failed CannotUpdate.

End Facade.

(** ** Notions for the further properties *)

(** [old] occurs in [s]: it is a prefix of [s] or of what follows some
    character of [s]. *)
Fixpoint occurs (old s : string) : bool :=
  prefix old s
  || match s with
     | EmptyString => false
     | String _ s' => occurs old s'
     end.

(** The entries that classification resolves, as it leaves them in
    [experiment]: the scalars, then the lists of scalars. *)
Definition scalar_entries (env : dict string) (raw : dict value) : dict value :=
  map (fun kv => (fst kv, do_env_subs env (snd kv)))
    (filter (fun kv => is_scalar (snd kv)) raw).

Definition list_entry (env : dict string) (kv : string * value)
  : string * value :=
  match snd kv with
  | VList l => (fst kv, VList (map (do_env_subs env) l))
  | v => (fst kv, v)
  end.

Definition list_entries (env : dict string) (raw : dict value) : dict value :=
  map (list_entry env) (filter (fun kv => is_scalar_list (snd kv)) raw).

(** Every resolved key has the factory that makes its value again, and
    there is no other factory. *)
Definition recorded (CLASSES : dict pyclass) (experiment : dict value)
  (factories : dict factory) : Prop :=
  keys factories = keys experiment
  /\ forall k x,
       dget k experiment = Some x ->
       exists f, dget k factories = Some f /\ create CLASSES f = Some x.

(** The exceptions of the checks that a visit makes before it looks at
    [experiment]. *)
Definition check_error (e : exn) : bool :=
  match e with
  | ValueError_not_dict _ | ValueError_no_name _
  | ValueError_not_registered _ _
  | ValueError_list_param _ | ValueError_param _ | IndexError => true
  | _ => false
  end.

(** The name of the class of a top-level entry, if it has one. *)
Definition class_name (v : value) : option value :=
  match v with
  | VDict d => dget "_name" d
  | _ => None
  end.

(** What one pass of the loop body leaves in [param2config_key[arg]], if
    anything (see [fill_arg_keys]). *)
Definition self_key (arg : string) : option (option value) :=
  if (arg =? reserved)%string then Some (Some (VStr arg)) else None.

Definition stored_key (mode : Z) (config experiment : dict value)
  (literal named defaults : dict value) (arg : string)
  : option (option value) :=
  match dget arg literal with
  | Some _ => Some None
  | None =>
      match dget arg named with
      | Some alias => Some (Some alias)
      | None =>
          match dget arg experiment with
          | Some _ => Some (Some (VStr arg))
          | None =>
              match dget arg defaults with
              | Some _ =>
                  if default_applies mode config arg then Some None
                  else self_key arg
              | None => self_key arg
              end
          end
      end
  end.

Definition store_at {A} (g : string -> option A) (p : dict A) (a : string)
  : dict A :=
  match g a with
  | Some x => dset a x p
  | None => p
  end.

(** * Properties *)

(** ** Dictionaries *)

Section DictFacts.

Context {A : Type}.
Implicit Types (d : dict A) (k : string).

Lemma dmem_true_iff k d : dmem k d = true <-> In k (keys d).
Proof.
  unfold dmem. induction d as [|[k' v] d IH]; simpl.
  - split; [discriminate | tauto].
  - destruct (String.eqb_spec k' k) as [->|Hne].
    + split; auto.
    + rewrite IH. split; [tauto | intros [H|H]; [congruence | exact H]].
Qed.

Lemma dmem_false_iff k d : dmem k d = false <-> ~ In k (keys d).
Proof.
  rewrite <- dmem_true_iff. destruct (dmem k d); split; congruence.
Qed.

Lemma dget_None_iff k d : dget k d = None <-> ~ In k (keys d).
Proof.
  rewrite <- dmem_false_iff. unfold dmem.
  destruct (dget k d); split; congruence.
Qed.

Lemma dget_Some_In k d v : dget k d = Some v -> In (k, v) d.
Proof.
  induction d as [|[k' v'] d IH]; simpl; [discriminate|].
  destruct (String.eqb_spec k' k) as [->|Hne].
  - intros [= ->]. now left.
  - intros H. right. auto.
Qed.

Lemma In_dget k d v : NoDup (keys d) -> In (k, v) d -> dget k d = Some v.
Proof.
  induction d as [|[k' v'] d IH]; simpl; [tauto|].
  intros Hnd [H|H].
  - inversion H; subst. now rewrite String.eqb_refl.
  - inversion Hnd as [|? ? Hnotin Hnd']; subst.
    destruct (String.eqb_spec k' k) as [->|Hne].
    + exfalso. apply Hnotin. change k with (fst (k, v)).
      now apply in_map.
    + auto.
Qed.

Lemma dget_dset_eq k v d : dget k (dset k v d) = Some v.
Proof.
  induction d as [|[k' v'] d IH]; simpl.
  - now rewrite String.eqb_refl.
  - destruct (String.eqb_spec k' k) as [->|Hne]; simpl.
    + now rewrite String.eqb_refl.
    + destruct (String.eqb_spec k' k); [contradiction | exact IH].
Qed.

Lemma dget_dset_neq k k' v d : k <> k' -> dget k' (dset k v d) = dget k' d.
Proof.
  intros Hne. induction d as [|[k0 v0] d IH]; simpl.
  - destruct (String.eqb_spec k k'); [contradiction | reflexivity].
  - destruct (String.eqb_spec k0 k) as [->|Hne0]; simpl.
    + destruct (String.eqb_spec k k'); [contradiction | reflexivity].
    + now rewrite IH.
Qed.

Lemma dmem_dset k k' v d :
  dmem k' (dset k v d) = (k =? k')%string || dmem k' d.
Proof.
  unfold dmem. destruct (String.eqb_spec k k') as [->|Hne].
  - now rewrite dget_dset_eq.
  - now rewrite dget_dset_neq.
Qed.

Lemma keys_dset_old k v d : In k (keys d) -> keys (dset k v d) = keys d.
Proof.
  induction d as [|[k' v'] d IH]; simpl; [tauto|].
  intros H. destruct (String.eqb_spec k' k) as [->|Hne]; simpl.
  - reflexivity.
  - f_equal. apply IH. destruct H; [contradiction | assumption].
Qed.

Lemma keys_dset_new k v d : ~ In k (keys d) -> keys (dset k v d) = keys d ++ [k].
Proof.
  induction d as [|[k' v'] d IH]; simpl; [reflexivity|].
  intros H. destruct (String.eqb_spec k' k) as [->|Hne]; simpl.
  - exfalso. apply H. now left.
  - f_equal. apply IH. tauto.
Qed.

Lemma In_keys_dset k k' v d :
  In k' (keys (dset k v d)) <-> k' = k \/ In k' (keys d).
Proof.
  rewrite <- !dmem_true_iff, dmem_dset, orb_true_iff, String.eqb_eq.
  intuition congruence.
Qed.

Lemma NoDup_keys_dset k v d : NoDup (keys d) -> NoDup (keys (dset k v d)).
Proof.
  intros Hnd. destruct (in_dec string_dec k (keys d)) as [Hin|Hnin].
  - now rewrite keys_dset_old.
  - rewrite keys_dset_new by assumption.
    apply NoDup_app; [assumption | repeat constructor; simpl; tauto |].
    intros x Hx [<-|[]]. contradiction.
Qed.

Lemma length_dset_le k v d : length d <= length (dset k v d).
Proof.
  induction d as [|[k' v'] d IH]; simpl; [lia|].
  destruct (k' =? k)%string; simpl; lia.
Qed.

Lemma keys_ddel k d :
  keys (ddel k d) = filter (fun x => negb (x =? k)%string) (keys d).
Proof.
  unfold ddel, keys. induction d as [|[k' v'] d IH]; simpl; [reflexivity|].
  destruct (k' =? k)%string; simpl; now rewrite IH.
Qed.

Lemma In_ddel k x (v : A) d : In (x, v) (ddel k d) <-> In (x, v) d /\ x <> k.
Proof.
  unfold ddel. rewrite filter_In. simpl.
  rewrite negb_true_iff, String.eqb_neq. tauto.
Qed.

Lemma In_keys_ddel k x d : In x (keys (ddel k d)) <-> In x (keys d) /\ x <> k.
Proof.
  rewrite keys_ddel, filter_In, negb_true_iff, String.eqb_neq. tauto.
Qed.

Lemma NoDup_keys_ddel k d : NoDup (keys d) -> NoDup (keys (ddel k d)).
Proof. rewrite keys_ddel. apply NoDup_filter. Qed.

Lemma In_ddel_all ks x (v : A) d :
  In (x, v) (ddel_all ks d) <-> In (x, v) d /\ ~ In x ks.
Proof.
  unfold ddel_all. revert d.
  induction ks as [|k ks IH]; intros d; simpl; [tauto|].
  rewrite IH, In_ddel. intuition congruence.
Qed.

Lemma In_keys_ddel_all ks x d :
  In x (keys (ddel_all ks d)) <-> In x (keys d) /\ ~ In x ks.
Proof.
  unfold ddel_all. revert d.
  induction ks as [|k ks IH]; intros d; simpl; [tauto|].
  rewrite IH, In_keys_ddel. intuition congruence.
Qed.

Lemma NoDup_keys_ddel_all ks d :
  NoDup (keys d) -> NoDup (keys (ddel_all ks d)).
Proof.
  unfold ddel_all. revert d.
  induction ks as [|k ks IH]; intros d Hnd; simpl; [assumption|].
  apply IH. now apply NoDup_keys_ddel.
Qed.

Lemma length_ddel_le k d : length (ddel k d) <= length d.
Proof. unfold ddel. apply filter_length_le. Qed.

Lemma length_ddel_lt k d : In k (keys d) -> length (ddel k d) < length d.
Proof.
  unfold ddel. induction d as [|[k' v'] d IH]; simpl; [tauto|].
  intros H. destruct (String.eqb_spec k' k) as [->|Hne]; simpl.
  - pose proof (filter_length_le (fun kv => negb (fst kv =? k)%string) d). lia.
  - destruct H; [contradiction|]. apply IH in H. lia.
Qed.

Lemma length_ddel_all_le ks d : length (ddel_all ks d) <= length d.
Proof.
  unfold ddel_all. revert d.
  induction ks as [|k ks IH]; intros d; simpl; [lia|].
  specialize (IH (ddel k d)). pose proof (length_ddel_le k d). lia.
Qed.

Lemma length_ddel_all_lt k ks d :
  In k ks -> In k (keys d) -> length (ddel_all ks d) < length d.
Proof.
  unfold ddel_all. revert d.
  induction ks as [|k' ks IH]; intros d Hin Hk; simpl; [destruct Hin|].
  destruct (string_dec k' k) as [->|Hne].
  - pose proof (length_ddel_all_le ks (ddel k d)).
    pose proof (length_ddel_lt k d Hk). unfold ddel_all in *. lia.
  - destruct Hin as [?|Hin]; [contradiction|].
    assert (In k (keys (ddel k' d))) by (apply In_keys_ddel; auto).
    specialize (IH (ddel k' d) Hin H).
    pose proof (length_ddel_le k' d). lia.
Qed.

End DictFacts.

(** ** Environment substitution *)

Lemma insert_by_len_perm k l : Permutation (insert_by_len k l) (k :: l).
Proof.
  induction l as [|y l IH]; simpl; [reflexivity|].
  destruct (String.length k <? String.length y)%nat; [|reflexivity].
  rewrite IH. apply perm_swap.
Qed.

Lemma env_keys_perm env : Permutation (env_keys env) (keys env).
Proof.
  unfold env_keys. induction (keys env) as [|k l IH]; simpl; [reflexivity|].
  rewrite insert_by_len_perm. now constructor.
Qed.

Lemma insert_by_len_sorted k l :
  StronglySorted longer_first l -> StronglySorted longer_first (insert_by_len k l).
Proof.
  induction 1 as [|y l Hs IH Hall]; simpl.
  - repeat constructor.
  - destruct (Nat.ltb_spec (String.length k) (String.length y)) as [Hlt|Hge].
    + constructor; [assumption|].
      eapply Permutation_Forall; [symmetry; apply insert_by_len_perm|].
      constructor; [unfold longer_first; lia | assumption].
    + constructor; [now constructor|].
      constructor; [exact Hge|].
      eapply Forall_impl; [|exact Hall].
      unfold longer_first. intros; lia.
Qed.

Lemma env_keys_sorted env : StronglySorted longer_first (env_keys env).
Proof.
  unfold env_keys. induction (keys env) as [|k l IH]; simpl.
  - constructor.
  - now apply insert_by_len_sorted.
Qed.

(** In a list sorted longest first, a strictly longer element stands
    before a shorter one. *)
Lemma sorted_longer_before (l : list string) k1 k2 :
  StronglySorted longer_first l ->
  In k1 l -> In k2 l -> String.length k1 < String.length k2 ->
  exists l1 l2 l3, l = l1 ++ k2 :: l2 ++ k1 :: l3.
Proof.
  induction 1 as [|y l Hs IH Hall]; intros H1 H2 Hlt; [destruct H1|].
  rewrite Forall_forall in Hall.
  destruct H2 as [->|H2].
  - destruct H1 as [->|H1]; [lia|].
    apply in_split in H1 as (l2 & l3 & ->).
    now exists [], l2, l3.
  - destruct H1 as [->|H1].
    + apply Hall in H2. unfold longer_first in H2. lia.
    + destruct (IH H1 H2 Hlt) as (l1 & l2 & l3 & ->).
      now exists (y :: l1), l2, l3.
Qed.

Lemma prefix_app_iff (p s : string) :
  prefix p s = true <-> exists b, s = (p ++ b)%string.
Proof.
  revert s. induction p as [|a p IH]; intros s; simpl.
  - split; [intros _; now exists s | intros _; now destruct s].
  - destruct s as [|c s]; simpl.
    + split; [discriminate | intros [b Hb]; discriminate].
    + destruct (ascii_dec a c) as [->|Hne].
      * rewrite IH. split; intros [b Hb]; exists b; congruence.
      * split; [discriminate | intros [b Hb]; congruence].
Qed.

Lemma length_append (a b : string) :
  String.length (a ++ b) = String.length a + String.length b.
Proof. induction a as [|c a IH]; simpl; [reflexivity | now rewrite IH]. Qed.

Lemma prefix_length_lt (p s : string) :
  prefix p s = true -> p <> s -> String.length p < String.length s.
Proof.
  rewrite prefix_app_iff. intros [b ->] Hne.
  rewrite length_append.
  destruct b as [|c b]; simpl; [|lia].
  exfalso. apply Hne. clear. induction p; simpl; congruence.
Qed.

Lemma replace_from_skip old new (u b : string) :
  replace_from old new (String.length u) (u ++ b) = replace_from old new 0 b.
Proof.
  induction u as [|c u IH]; simpl; [reflexivity | exact IH].
Qed.

(** [str.replace] at a position where [old] matches: the match is replaced
    and the scan goes on behind it, not inside the replacement. *)
Lemma str_replace_match (old new b : string) :
  old <> EmptyString ->
  str_replace (old ++ b) old new = (new ++ str_replace b old new)%string.
Proof.
  destruct old as [|a o]; [congruence|]. intros _.
  unfold str_replace.
  change ((String a o ++ b)%string) with (String a (o ++ b)%string).
  cbn [replace_from].
  assert (Hp : prefix (String a o) (String a (o ++ b)) = true)
    by (apply prefix_app_iff; now exists b).
  rewrite Hp. f_equal.
  cbn [String.length]. rewrite Nat.sub_succ, Nat.sub_0_r.
  apply replace_from_skip.
Qed.

(** ... and at a position where it does not: the character is kept. *)
Lemma str_replace_no_match (old new : string) c s :
  prefix old (String c s) = false ->
  str_replace (String c s) old new = String c (str_replace s old new).
Proof.
  destruct old as [|a o]; [discriminate|]. intros Hp.
  unfold str_replace. cbn [replace_from]. now rewrite Hp.
Qed.

Lemma str_replace_empty (old new : string) :
  old <> EmptyString -> str_replace EmptyString old new = EmptyString.
Proof. destruct old; [congruence | reflexivity]. Qed.



(** ** Filling the parameters of one descriptor *)

Lemma dset_dset {A} k (x y : A) (d : dict A) :
  dset k x (dset k y d) = dset k x d.
Proof.
  induction d as [|[k' v'] d IH]; simpl.
  - now rewrite String.eqb_refl.
  - destruct (String.eqb_spec k' k) as [->|Hne]; simpl.
    + now rewrite String.eqb_refl.
    + destruct (String.eqb_spec k' k); [contradiction | now rewrite IH].
Qed.

Section FillFacts.

Variables (mode : Z) (cfg exp lit named defaults : dict value).

Local Abbreviation stored := (stored_value mode cfg exp lit named defaults).

(** The loop body changes [params] at [arg] only, and what it stores
    there does not depend on what [params] held. *)
Lemma fill_arg_params f arg f' :
  fill_arg mode cfg exp lit named defaults f arg = Ok f' ->
  params f' = store arg (stored arg) (params f).
Proof.
  unfold fill_arg, stored, stored_value, self_binding, default_applies.
  destruct (dget arg lit) as [lv|]; [intros [= <-]; reflexivity|].
  destruct (dget arg named) as [alias|].
  - destruct alias; try (intros [= <-]; destruct (arg =? reserved)%string;
                         reflexivity).
    + destruct (dget s exp); intros [= <-];
        destruct (arg =? reserved)%string; simpl;
        rewrite ?dset_dset; reflexivity.
    + destruct (collect_alias l exp) as [pl|e]; simpl; [|discriminate].
      intros [= <-].
      destruct (length pl =? length l)%nat;
        destruct (arg =? reserved)%string; simpl;
        rewrite ?dset_dset; reflexivity.
  - destruct (dget arg exp).
    + intros [= <-]. destruct (arg =? reserved)%string; simpl;
        rewrite ?dset_dset; reflexivity.
    + destruct (dget arg defaults).
      * destruct ((mode =? 1)%Z && negb (dmem arg cfg)); simpl.
        -- intros [= <-]. destruct (arg =? reserved)%string; simpl;
             rewrite ?dset_dset; reflexivity.
        -- destruct (mode =? 2)%Z; intros [= <-];
             destruct (arg =? reserved)%string; simpl;
             rewrite ?dset_dset; reflexivity.
      * intros [= <-]. destruct (arg =? reserved)%string; reflexivity.
Qed.

Lemma fill_args_params args f f' :
  fill_args mode cfg exp lit named defaults args f = Ok f' ->
  params f' = fold_left (fun p a => store a (stored a) p) args (params f).
Proof.
  revert f. induction args as [|a args IH]; intros f; simpl.
  - now intros [= <-].
  - destruct (fill_arg mode cfg exp lit named defaults f a) as [f1|e] eqn:E;
      simpl; [|discriminate].
    intros H. apply IH in H. rewrite H. f_equal.
    now apply fill_arg_params.
Qed.

Lemma dget_store a b x p :
  dget a (store b x p)
  = if (b =? a)%string
    then match x with Some v => Some v | None => dget a p end
    else dget a p.
Proof.
  destruct x as [v|]; simpl.
  - destruct (String.eqb_spec b a) as [->|Hne].
    + apply dget_dset_eq.
    + now apply dget_dset_neq.
  - now destruct (b =? a)%string.
Qed.

Lemma dget_fold_store args a p :
  dget a (fold_left (fun p a => store a (stored a) p) args p)
  = if in_dec string_dec a args
    then match stored a with Some v => Some v | None => dget a p end
    else dget a p.
Proof.
  revert p. induction args as [|b args IH]; intros p; simpl; [reflexivity|].
  rewrite IH, dget_store.
  destruct (String.eqb_spec b a) as [->|Hne].
  - destruct (string_dec a a); [|contradiction].
    destruct (in_dec string_dec a args); destruct (stored a); reflexivity.
  - destruct (string_dec b a); [contradiction|].
    destruct (in_dec string_dec a args); reflexivity.
Qed.

(** After the loop over the arguments, [params[arg]] is what the pass
    for [arg] stored. *)
Lemma fill_args_dget args f arg :
  In arg args ->
  fill_args mode cfg exp lit named defaults args empty_fill = Ok f ->
  dget arg (params f) = stored arg.
Proof.
  intros Hin H. apply fill_args_params in H. rewrite H, dget_fold_store.
  destruct (in_dec string_dec arg args); [|contradiction].
  now destruct (stored arg).
Qed.

Lemma fill_args_dget_notin args f arg :
  ~ In arg args ->
  fill_args mode cfg exp lit named defaults args empty_fill = Ok f ->
  dget arg (params f) = None.
Proof.
  intros Hin H. apply fill_args_params in H. rewrite H, dget_fold_store.
  destruct (in_dec string_dec arg args); [contradiction | reflexivity].
Qed.

Lemma NoDup_keys_fold_store args p :
  NoDup (keys p) ->
  NoDup (keys (fold_left (fun p a => store a (stored a) p) args p)).
Proof.
  revert p. induction args as [|b args IH]; intros p Hp; simpl; [exact Hp|].
  apply IH. destruct (stored b); simpl; [now apply NoDup_keys_dset | exact Hp].
Qed.

(** [len(params) == len(spec.args) - 1] holds exactly when every
    argument is stored (the names of the arguments are distinct). *)
Lemma fill_args_length args f :
  NoDup args ->
  fill_args mode cfg exp lit named defaults args empty_fill = Ok f ->
  (length (params f) = length args
   <-> forall a, In a args -> stored a <> None).
Proof.
  intros Hnd H.
  assert (Hget : forall a, dget a (params f)
                   = if in_dec string_dec a args then stored a else None).
  { intros a. destruct (in_dec string_dec a args).
    - now apply (fill_args_dget args).
    - now apply (fill_args_dget_notin args). }
  assert (Hkeys : NoDup (keys (params f))).
  { apply fill_args_params in H. rewrite H.
    apply NoDup_keys_fold_store. constructor. }
  assert (Hincl : incl (keys (params f)) args).
  { intros a Ha. apply dmem_true_iff in Ha. unfold dmem in Ha.
    rewrite Hget in Ha. destruct (in_dec string_dec a args); [assumption|].
    discriminate. }
  replace (length (params f)) with (length (keys (params f)))
    by apply length_map.
  split.
  - intros Hlen a Ha Hs.
    assert (Hin : In a (keys (params f))).
    { apply (NoDup_length_incl Hkeys (l' := args)); [lia | exact Hincl | exact Ha]. }
    apply dmem_true_iff in Hin. unfold dmem in Hin.
    rewrite Hget in Hin. destruct (in_dec string_dec a args); [|contradiction].
    rewrite Hs in Hin. discriminate.
  - intros Hall. apply Nat.le_antisymm.
    + now apply NoDup_incl_length.
    + apply NoDup_incl_length; [assumption|].
      intros a Ha. apply dmem_true_iff. unfold dmem. rewrite Hget.
      destruct (in_dec string_dec a args); [|contradiction].
      specialize (Hall a Ha). now destruct (stored a).
Qed.

End FillFacts.

(** The loop over a list alias whose elements are key names. *)
Lemma collect_alias_names (names : list string) (exp : dict value) :
  exists l,
    collect_alias (map VStr names) exp = Ok l
    /\ length l <= length names
    /\ (forall vs,
          Forall2 (fun s x => dget s exp = Some x) names vs -> l = vs)
    /\ (length l = length names ->
        Forall2 (fun s x => dget s exp = Some x) names l)
    /\ ((exists s, In s names /\ dget s exp = None) ->
        length l < length names).
Proof.
  induction names as [|s names (l & Hl & Hlen & Hall & Hfull & Hmiss)]; simpl.
  - exists []. repeat split; auto.
    + intros vs Hvs. now inversion Hvs.
    + intros (s & [] & _).
  - destruct (dget s exp) as [x|] eqn:E.
    + rewrite Hl. simpl. exists (x :: l). repeat split; simpl.
      * lia.
      * intros vs Hvs. inversion Hvs as [|? y ? vs' Hy Hvs']; subst.
        f_equal; [congruence | auto].
      * intros Hlen'. constructor; [assumption | apply Hfull; lia].
      * intros (s' & [<-|Hin] & Hnone); [congruence|].
        assert (length l < length names) by (apply Hmiss; eauto). lia.
    + exists []. repeat split; simpl.
      * lia.
      * intros vs Hvs. inversion Hvs; subst. congruence.
      * discriminate.
      * intros _. lia.
Qed.

(** ** One descriptor *)

Lemma last_char_drop_last (p : string) c :
  last_char p = Some c -> p = (drop_last p ++ String c EmptyString)%string.
Proof.
  induction p as [|a p IH]; simpl; [discriminate|].
  destruct p as [|b p].
  - now intros [= ->].
  - intros H. apply IH in H. simpl in *. now rewrite <- H.
Qed.

Lemma last_char_app (a : string) c :
  last_char (a ++ String c EmptyString) = Some c
  /\ drop_last (a ++ String c EmptyString) = a.
Proof.
  induction a as [|b a [IH1 IH2]]; simpl; [auto|].
  destruct (a ++ String c EmptyString)%string eqn:E.
  - destruct a; discriminate.
  - split; [exact IH1 | now rewrite IH2].
Qed.

(** The name of the literal override of [arg]. *)
Lemma literal_key_iff (p arg : string) :
  (last_char p = Some "_"%char /\ drop_last p = arg)
  <-> p = (arg ++ "_")%string.
Proof.
  split.
  - intros [H1 H2]. apply last_char_drop_last in H1. now rewrite H2 in H1.
  - intros ->. apply last_char_app.
Qed.

Lemma literal_params_from_keys items acc lit arg :
  literal_params_from items acc = Ok lit ->
  (In arg (keys lit)
   <-> In arg (keys acc) \/ In (arg ++ "_")%string (keys items)).
Proof.
  revert acc. induction items as [|[p pv] items IH]; intros acc; simpl.
  - intros [= <-]. tauto.
  - destruct (last_char p) as [c|] eqn:Ec; [|discriminate].
    destruct (Ascii.eqb_spec c "_"%char) as [->|Hc].
    + intros H. rewrite (IH _ H), In_keys_dset.
      pose proof (literal_key_iff p arg) as Hk.
      split.
      * intros [[->|Hin]|Hin]; auto.
        right. left. apply Hk. auto.
      * intros [Hin|[Hp|Hin]]; auto.
        left. left. symmetry. now apply Hk.
    + assert (Hp : p <> (arg ++ "_")%string).
      { intros ->. destruct (last_char_app arg "_"%char) as [Hl _].
        congruence. }
      assert (Hgo : forall lit', literal_params_from items acc = Ok lit' ->
                  lit' = lit ->
                  In arg (keys lit) <->
                  In arg (keys acc) \/ (p = (arg ++ "_")%string
                                        \/ In (arg ++ "_")%string (keys items))).
      { intros lit' H <-. rewrite (IH _ H). tauto. }
      destruct pv; try discriminate.
      * intros H. now apply (Hgo lit).
      * destruct (forallb is_str l); [|discriminate].
        intros H. now apply (Hgo lit).
Qed.

Lemma literal_params_keys d lit arg :
  literal_params d = Ok lit ->
  (dget arg lit <> None <-> In (arg ++ "_")%string (keys d)).
Proof.
  intros H. rewrite dget_None_iff.
  pose proof (literal_params_from_keys d [] lit arg H) as Hk. simpl in Hk.
  destruct (in_dec string_dec arg (keys lit)); tauto.
Qed.

Lemma literal_params_from_valid items acc :
  forallb valid_param items = true ->
  exists lit, literal_params_from items acc = Ok lit.
Proof.
  revert acc. induction items as [|[p pv] items IH]; intros acc; simpl.
  - eauto.
  - rewrite andb_true_iff. unfold valid_param at 1. simpl.
    intros [Hv Hrest].
    destruct (last_char p) as [c|]; [|discriminate].
    destruct (c =? "_")%char; [now apply IH|].
    destruct pv; try discriminate; [now apply IH|].
    rewrite Hv. now apply IH.
Qed.

Lemma literal_params_from_checked items acc lit :
  literal_params_from items acc = Ok lit -> forallb valid_param items = true.
Proof.
  revert acc. induction items as [|[p pv] items IH]; intros acc; simpl.
  - reflexivity.
  - unfold valid_param at 1. simpl.
    destruct (last_char p) as [c|]; [|discriminate].
    destruct (c =? "_")%char; [now apply IH|].
    destruct pv; try discriminate; [now apply IH|].
    destruct (forallb is_str l); [now apply IH | discriminate].
Qed.

Lemma literal_params_from_raise items acc e :
  literal_params_from items acc = Raise e -> is_unconfigured e = false.
Proof.
  revert acc. induction items as [|[p pv] items IH]; intros acc; simpl.
  - discriminate.
  - destruct (last_char p) as [c|]; [|now intros [= <-]].
    destruct (c =? "_")%char; [now apply IH|].
    destruct pv; try (now intros [= <-]); [now apply IH|].
    destruct (forallb is_str l); [now apply IH | now intros [= <-]].
Qed.

Lemma collect_alias_raise names exp e :
  collect_alias names exp = Raise e -> e = TypeError_unhashable.
Proof.
  induction names as [|p names IH]; simpl; [discriminate|].
  destruct p; try discriminate; try (now intros [= <-]).
  destruct (dget s exp); [|discriminate].
  destruct (collect_alias names exp); simpl; [discriminate|].
  intros [= <-]. now apply IH.
Qed.

Lemma fill_arg_raise mode cfg exp lit named defaults f arg e :
  fill_arg mode cfg exp lit named defaults f arg = Raise e ->
  e = TypeError_unhashable.
Proof.
  unfold fill_arg.
  destruct (dget arg lit); [discriminate|].
  destruct (dget arg named) as [alias|].
  - destruct alias; try discriminate; try (now intros [= <-]).
    destruct (collect_alias l exp) eqn:E; simpl; [discriminate|].
    intros [= <-]. now apply collect_alias_raise in E.
  - destruct (dget arg exp); [discriminate|].
    destruct (dget arg defaults); [|discriminate].
    destruct ((mode =? 1)%Z && negb (dmem arg cfg)); [discriminate|].
    destruct (mode =? 2)%Z; discriminate.
Qed.

Lemma fill_args_raise mode cfg exp lit named defaults args f e :
  fill_args mode cfg exp lit named defaults args f = Raise e ->
  e = TypeError_unhashable.
Proof.
  revert f. induction args as [|a args IH]; intros f; simpl; [discriminate|].
  destruct (fill_arg mode cfg exp lit named defaults f a) eqn:E; simpl.
  - apply IH.
  - intros [= <-]. now apply fill_arg_raise in E.
Qed.

Section BuildOneFacts.

Variable CLASSES : dict pyclass.
Variables (mode : Z) (cfg exp : dict value).

(** What a visit that did not raise before the instance was stored has
    gone through. *)
Lemma build_one_ok k v r :
  build_one CLASSES mode cfg exp k v = Ok r ->
  exists d n c lit f,
    v = VDict d /\ dget "_name" d = Some (VStr n)
    /\ dget n CLASSES = Some c
    /\ literal_params d = Ok lit
    /\ fill_args mode cfg exp lit (named_params d) (default_params c)
         (tl (cargs c)) empty_fill = Ok f
    /\ ((exists obj,
           r = Constructed obj
                 (PluginFactory n (Some (param2config_key f)) [] (params f))
           /\ cinit c (params f) = Built obj
           /\ S (length (params f)) = length (cargs c)
           /\ clashes (params f) = false)
        \/ (r = Unconfigured (missing_args c f)
            /\ S (length (params f)) <> length (cargs c))
        \/ (exists obj,
              r = Assigned obj (TypeError_multiple_values k)
              /\ cinit c (params f) = Built obj
              /\ S (length (params f)) = length (cargs c)
              /\ clashes (params f) = true)).
Proof.
  unfold build_one.
  destruct v; try discriminate.
  destruct (dget "_name" d) as [name|] eqn:En; [|discriminate].
  destruct name; simpl; try discriminate.
  destruct (dget s CLASSES) as [c|] eqn:Ec; [|discriminate].
  destruct (literal_params d) as [lit|] eqn:El; simpl; [|discriminate].
  destruct (fill_args _ _ _ _ _ _ _ _) as [f|] eqn:Ef; simpl; [|discriminate].
  destruct (Z.eqb_spec (Z.of_nat (length (params f)))
              (Z.of_nat (length (cargs c)) - 1)) as [Hlen|Hlen].
  - destruct (cinit c (params f)) as [obj|items|] eqn:Ei; try discriminate.
    unfold new_plugin_factory.
    destruct (clashes (params f)) eqn:Ecl.
    + intros [= <-]. exists d, s, c, lit, f. repeat split; auto.
      right. right. exists obj. repeat split; auto. lia.
    + intros [= <-]. exists d, s, c, lit, f. repeat split; auto.
      left. exists obj. repeat split; auto. lia.
  - intros [= <-]. exists d, s, c, lit, f. repeat split; auto.
    right. left. split; [reflexivity | lia].
Qed.

(** The exception that a visit raises with the instance stored is the
    [TypeError] of the call that makes the factory. *)
Lemma build_one_assigned k v obj e :
  build_one CLASSES mode cfg exp k v = Ok (Assigned obj e) ->
  e = TypeError_multiple_values k.
Proof.
  intros H.
  destruct (build_one_ok _ _ _ H)
    as (d & n & c & lit & f & _ & _ & _ & _ & _
        & [(o & ? & _)|[[? _]|(o & [= _ ->] & _)]]);
    [discriminate | discriminate | reflexivity].
Qed.

(** A visit raises [UnconfiguredItemsException] only when the constructor
    of the entry does. *)
Lemma build_one_raise k v e :
  build_one CLASSES mode cfg exp k v = Raise e ->
  is_unconfigured e = true ->
  exists d n c kwargs items,
    v = VDict d /\ dget "_name" d = Some (VStr n)
    /\ dget n CLASSES = Some c
    /\ cinit c kwargs = RaisesUnconfigured items
    /\ e = UnconfiguredItemsException items.
Proof.
  unfold build_one.
  destruct v; try (intros [= <-]; discriminate).
  destruct (dget "_name" d) as [name|] eqn:En; [|intros [= <-]; discriminate].
  destruct name; simpl; try (intros [= <-]; discriminate).
  destruct (dget s CLASSES) as [c|] eqn:Ec; [|intros [= <-]; discriminate].
  destruct (literal_params d) as [lit|] eqn:El; simpl.
  2:{ intros [= <-] Hu. apply literal_params_from_raise in El. congruence. }
  destruct (fill_args _ _ _ _ _ _ _ _) as [f|] eqn:Ef; simpl.
  2:{ intros [= <-] Hu. apply fill_args_raise in Ef. subst. discriminate. }
  destruct (_ =? _)%Z; [|discriminate].
  destruct (cinit c (params f)) as [obj|items|] eqn:Ei.
  - unfold new_plugin_factory. destruct (clashes (params f)); discriminate.
  - intros [= <-] _. exists d, s, c, (params f), items. auto.
  - intros [= <-]. discriminate.
Qed.

Lemma visit_raises_unconfigured k v e :
  visit_raises CLASSES mode cfg exp k v e ->
  is_unconfigured e = true ->
  exists d n c kwargs items,
    v = VDict d /\ dget "_name" d = Some (VStr n)
    /\ dget n CLASSES = Some c
    /\ cinit c kwargs = RaisesUnconfigured items
    /\ e = UnconfiguredItemsException items.
Proof.
  intros [H|[obj H]] Hu; [now apply (build_one_raise k) | exfalso].
  apply build_one_assigned in H. subst. discriminate.
Qed.

(** With constructors that do not raise it, no visit raises
    [UnconfiguredItemsException]. *)
Lemma visit_raises_quiet k v e :
  quiet_constructors CLASSES ->
  visit_raises CLASSES mode cfg exp k v e -> is_unconfigured e = false.
Proof.
  intros Hq H. destruct (is_unconfigured e) eqn:E; [|reflexivity].
  destruct (visit_raises_unconfigured k v e H E)
    as (d & n & c & kwargs & items & _ & _ & Hc & Hi & _).
  exfalso. exact (Hq n c kwargs items Hc Hi).
Qed.

End BuildOneFacts.

(** ** One scan *)

Section ScanFacts.

Variable CLASSES : dict pyclass.
Variables (mode : Z) (cfg : dict value).

(** The keys a scan constructs are added to [configured] and to
    [experiment], and a scan that raises nothing adds nothing else. *)
Lemma scan_configured items ss ss' err :
  scan CLASSES mode cfg items ss = (ss', err) ->
  exists C,
    s_configured ss' = s_configured ss ++ C
    /\ incl C (keys items)
    /\ (err = None ->
        forall x, In x (keys (s_experiment ss'))
                  <-> In x (keys (s_experiment ss)) \/ In x C)
    /\ (NoDup (keys (s_experiment ss)) -> NoDup (keys (s_experiment ss')))
    /\ (C = [] -> err = None ->
        s_experiment ss' = s_experiment ss
        /\ s_factories ss' = s_factories ss).
Proof.
  revert ss. induction items as [|[k v] items IH]; intros ss; simpl.
  - intros [= <- <-]. exists []. rewrite app_nil_r.
    split; [reflexivity|]. split; [intros x []|].
    split; [intros _ x; simpl; tauto|]. split; auto.
  - destruct (build_one CLASSES mode cfg (s_experiment ss) k v)
      as [[obj fac|obj e|missing]|e].
    + intros H. apply IH in H as (C & Hc & Hincl & Hexp & Hnd & _).
      simpl in *. exists (k :: C). rewrite <- app_assoc in Hc.
      split; [exact Hc|]. split; [|split; [|split]].
      * intros x [<-|Hx]; [now left | right; auto].
      * intros He x. rewrite (Hexp He), In_keys_dset. simpl.
        intuition congruence.
      * intros H. apply Hnd. now apply NoDup_keys_dset.
      * discriminate.
    + intros [= <- <-]. exists []. rewrite app_nil_r. simpl.
      split; [reflexivity|]. split; [intros x []|].
      split; [discriminate|].
      split; [apply NoDup_keys_dset | discriminate].
    + intros H. apply IH in H as (C & Hc & Hincl & Hexp & Hnd & Hnil).
      simpl in *. exists C. repeat split; auto; try (now apply Hexp);
        try (now apply Hnil).
      intros x Hx. right. auto.
    + intros [= <- <-]. exists []. rewrite app_nil_r.
      split; [reflexivity|]. split; [intros x []|].
      split; [intros _ x; simpl; tauto|]. split; auto.
Qed.

(** Whatever its end, a scan keeps the keys of [experiment] and adds only
    keys of entries that it visits. *)
Lemma scan_experiment_keys items ss ss' err :
  scan CLASSES mode cfg items ss = (ss', err) ->
  (forall x, In x (keys (s_experiment ss)) -> In x (keys (s_experiment ss')))
  /\ (forall x, In x (keys (s_experiment ss')) ->
                In x (keys (s_experiment ss)) \/ In x (keys items)).
Proof.
  revert ss. induction items as [|[k v] items IH]; intros ss; simpl.
  - intros [= <- <-]. auto.
  - destruct (build_one CLASSES mode cfg (s_experiment ss) k v)
      as [[obj fac|obj e|missing]|e].
    + intros H. apply IH in H as [Hk Ha]. simpl in *. split.
      * intros x Hx. apply Hk, In_keys_dset. auto.
      * intros x Hx. apply Ha in Hx. rewrite In_keys_dset in Hx.
        intuition.
    + intros [= <- <-]. simpl. split; intros x; rewrite In_keys_dset;
        intuition.
    + intros H. apply IH in H as [Hk Ha]. simpl in *. split; [exact Hk|].
      intros x Hx. apply Ha in Hx. tauto.
    + intros [= <- <-]. auto.
Qed.

(** An exception that ends a scan comes from the visit of an entry. *)
Lemma scan_raise_at items ss ss' e :
  scan CLASSES mode cfg items ss = (ss', Some e) ->
  exists k v exp_k,
    In (k, v) items /\ visit_raises CLASSES mode cfg exp_k k v e.
Proof.
  revert ss. induction items as [|[k v] items IH]; intros ss; simpl.
  - discriminate.
  - destruct (build_one CLASSES mode cfg (s_experiment ss) k v)
      as [[obj fac|obj e'|missing]|e'] eqn:E.
    + intros H. apply IH in H as (k' & v' & x & Hin & Hb). eauto 6.
    + intros [= <- <-]. exists k, v, (s_experiment ss).
      split; [now left|]. right. eauto.
    + intros H. apply IH in H as (k' & v' & x & Hin & Hb). eauto 6.
    + intros [= <- <-]. exists k, v, (s_experiment ss).
      split; [now left | now left].
Qed.

(** With constructors that do not raise it, no scan is ended by
    [UnconfiguredItemsException]. *)
Lemma scan_raise items ss ss' e :
  quiet_constructors CLASSES ->
  scan CLASSES mode cfg items ss = (ss', Some e) -> is_unconfigured e = false.
Proof.
  intros Hq H. apply scan_raise_at in H as (k & v & x & _ & Hv).
  exact (visit_raises_quiet _ _ _ _ _ _ _ Hq Hv).
Qed.

(** An entry whose visit raises whatever [experiment] holds ends the
    scan with an exception, at this entry or before. *)
Lemma scan_reaches_raise items ss k v :
  In (k, v) items ->
  (forall exp, exists e, build_one CLASSES mode cfg exp k v = Raise e) ->
  exists ss' e, scan CLASSES mode cfg items ss = (ss', Some e).
Proof.
  intros Hin Hbad. revert ss.
  induction items as [|[k' v'] items IH]; intros ss; [destruct Hin|].
  simpl.
  destruct (build_one CLASSES mode cfg (s_experiment ss) k' v')
    as [[obj fac|obj e'|missing]|e'] eqn:E; eauto;
    (destruct Hin as [[= -> ->]|Hin];
     [destruct (Hbad (s_experiment ss)) as [e He]; congruence
     | now apply IH]).
Qed.

(** A key is constructed at a visit that succeeds, in an [experiment]
    that holds what it held at the start of the scan and keys
    constructed in this scan. *)
Lemma scan_constructed items ss ss' err C k :
  scan CLASSES mode cfg items ss = (ss', err) ->
  s_configured ss' = s_configured ss ++ C ->
  In k C ->
  exists v exp_k obj fac,
    In (k, v) items
    /\ build_one CLASSES mode cfg exp_k k v = Ok (Constructed obj fac)
    /\ (forall x, In x (keys exp_k) ->
                  In x (keys (s_experiment ss)) \/ In x C).
Proof.
  revert ss C. induction items as [|[k' v'] items IH]; intros ss C; simpl.
  - intros [= <- <-] Hc Hk. exfalso.
    rewrite <- (app_nil_r (s_configured ss)) in Hc at 1.
    apply app_inv_head in Hc. subst. destruct Hk.
  - destruct (build_one CLASSES mode cfg (s_experiment ss) k' v')
      as [[obj fac|obj e'|missing]|e'] eqn:E.
    2:{ intros [= <- <-] Hc Hk. exfalso. simpl in Hc.
        rewrite <- (app_nil_r (s_configured ss)) in Hc at 1.
        apply app_inv_head in Hc. subst. destruct Hk. }
    + intros H Hc Hk.
      destruct (scan_configured _ _ _ _ H) as (C' & Hc' & _).
      simpl in Hc'. rewrite Hc, <- app_assoc in Hc'.
      apply app_inv_head in Hc'. subst C. simpl in Hk.
      destruct Hk as [<-|Hk].
      * exists v', (s_experiment ss), obj, fac.
        split; [now left|]. split; [exact E|]. auto.
      * destruct (IH _ C' H) as (v & exp_k & obj' & fac' & Hin & Hb & Hsub);
          [simpl; now rewrite <- app_assoc | exact Hk |].
        exists v, exp_k, obj', fac'. split; [now right|].
        split; [exact Hb|].
        intros x Hx. apply Hsub in Hx. simpl in Hx.
        rewrite In_keys_dset in Hx. simpl. intuition.
    + intros H Hc Hk.
      destruct (IH _ C H Hc Hk) as (v & exp_k & obj' & fac' & Hin & Hb & Hsub).
      exists v, exp_k, obj', fac'. split; [now right | auto].
    + intros [= <- <-] Hc Hk. exfalso.
      rewrite <- (app_nil_r (s_configured ss)) in Hc at 1.
      apply app_inv_head in Hc. subst. destruct Hk.
Qed.

(** A scan that constructs nothing and does not raise has found every
    entry unconfigured, in the [experiment] of its start, and has
    recorded the missing arguments of each under its key. *)
Lemma scan_stuck items ss ss' :
  scan CLASSES mode cfg items ss = (ss', None) ->
  s_configured ss' = s_configured ss ->
  (forall k v, In (k, v) items ->
     exists missing,
       build_one CLASSES mode cfg (s_experiment ss) k v
       = Ok (Unconfigured missing)
       /\ (NoDup (keys items) ->
           dget k (s_unconfigured ss') = Some missing))
  /\ (forall x, In x (keys (s_unconfigured ss'))
                <-> In x (keys (s_unconfigured ss)) \/ In x (keys items))
  /\ (forall x, ~ In x (keys items) ->
                dget x (s_unconfigured ss') = dget x (s_unconfigured ss)).
Proof.
  revert ss. induction items as [|[k' v'] items IH]; intros ss; simpl.
  - intros [= <-] _. repeat split; auto; tauto.
  - destruct (build_one CLASSES mode cfg (s_experiment ss) k' v')
      as [[obj fac|obj e'|missing]|e'] eqn:E; [|discriminate| |discriminate].
    + intros H Hc. exfalso.
      destruct (scan_configured _ _ _ _ H) as (C' & Hc' & _).
      simpl in Hc'. rewrite Hc, <- app_assoc in Hc'.
      rewrite <- (app_nil_r (s_configured ss)) in Hc' at 1.
      apply app_inv_head in Hc'. discriminate.
    + intros H Hc.
      destruct (IH _ H Hc) as (Hall & Hkeys & Hother). simpl in *.
      split; [|split].
      * intros k v [[= <- <-]|Hin].
        -- exists missing. split; [exact E|].
           intros Hnd. inversion Hnd as [|? ? Hnotin _]; subst.
           rewrite (Hother _ Hnotin). apply dget_dset_eq.
        -- destruct (Hall _ _ Hin) as (m & Hb & Hget).
           exists m. split; [exact Hb|].
           intros Hnd. inversion Hnd; subst. auto.
      * intros x. rewrite Hkeys, In_keys_dset. intuition congruence.
      * intros x Hx. rewrite Hother by tauto.
        apply dget_dset_neq. intros ->. tauto.
Qed.

End ScanFacts.

(** ** The loop of [_build_items] *)

Section LoopFacts.

Variable CLASSES : dict pyclass.
Variable mode : Z.

Lemma scan_start_configured st ss err :
  scan CLASSES mode (config st) (config st) (scan_start st) = (ss, err) ->
  incl (s_configured ss) (keys (config st))
  /\ (err = None ->
      forall x, In x (keys (s_experiment ss))
                <-> In x (keys (experiment st)) \/ In x (s_configured ss))
  /\ (NoDup (keys (experiment st)) -> NoDup (keys (s_experiment ss))).
Proof.
  intros H. apply scan_configured in H as (C & Hc & Hincl & Hexp & Hnd & _).
  simpl in Hc. subst C. auto.
Qed.

(** A scan that goes on leaves fewer pending keys. *)
Lemma scan_progress st ss :
  scan CLASSES mode (config st) (config st) (scan_start st) = (ss, None) ->
  s_configured ss <> [] ->
  length (ddel_all (s_configured ss) (config st)) < length (config st).
Proof.
  intros H Hne. apply scan_start_configured in H as (Hincl & _).
  destruct (s_configured ss) as [|k C]; [congruence|].
  apply (length_ddel_all_lt k); [now left | apply Hincl; now left].
Qed.

(** The proof rule of the loop: [P] holds whenever the condition of
    the [while] is evaluated, [Q] when [_build_items] is left. *)
Lemma build_loop_rule (P : state -> Prop) (Q : state -> outcome -> Prop) :
  (forall st, P st -> config st = [] -> Q st Returned) ->
  (forall st ss e,
      P st -> config st <> [] ->
      scan CLASSES mode (config st) (config st) (scan_start st)
      = (ss, Some e) ->
      Q (after_scan (config st) ss) (Raised e)) ->
  (forall st ss,
      P st -> config st <> [] ->
      scan CLASSES mode (config st) (config st) (scan_start st)
      = (ss, None) ->
      s_configured ss = [] ->
      Q (after_scan (config st) ss)
        (Raised (UnconfiguredItemsException (s_unconfigured ss)))) ->
  (forall st ss,
      P st -> config st <> [] ->
      scan CLASSES mode (config st) (config st) (scan_start st)
      = (ss, None) ->
      s_configured ss <> [] ->
      P (after_scan (ddel_all (s_configured ss) (config st)) ss)) ->
  forall fuel st,
    length (config st) < fuel -> P st ->
    Q (fst (build_loop CLASSES fuel mode st))
      (snd (build_loop CLASSES fuel mode st)).
Proof.
  intros Hret Hraise Hstuck Hstep.
  induction fuel as [|fuel IH]; intros st Hlen HP; [lia|].
  simpl. destruct (config st) as [|kv cfg] eqn:Ecfg.
  - simpl. now apply Hret.
  - rewrite <- Ecfg in *.
    assert (Hne : config st <> []) by (rewrite Ecfg; discriminate).
    destruct (scan CLASSES mode (config st) (config st) (scan_start st))
      as [ss [e|]] eqn:Es.
    + simpl. now apply Hraise.
    + destruct (s_configured ss) as [|k C] eqn:Ec.
      * simpl. now apply Hstuck.
      * rewrite <- Ec in *.
        assert (Hc : s_configured ss <> []) by (rewrite Ec; discriminate).
        apply IH.
        -- pose proof (scan_progress st ss Es Hc). simpl. lia.
        -- now apply Hstep.
Qed.

Lemma build_items_rule (P : state -> Prop) (Q : state -> outcome -> Prop) :
  (forall st, P st -> config st = [] -> Q st Returned) ->
  (forall st ss e,
      P st -> config st <> [] ->
      scan CLASSES mode (config st) (config st) (scan_start st)
      = (ss, Some e) ->
      Q (after_scan (config st) ss) (Raised e)) ->
  (forall st ss,
      P st -> config st <> [] ->
      scan CLASSES mode (config st) (config st) (scan_start st)
      = (ss, None) ->
      s_configured ss = [] ->
      Q (after_scan (config st) ss)
        (Raised (UnconfiguredItemsException (s_unconfigured ss)))) ->
  (forall st ss,
      P st -> config st <> [] ->
      scan CLASSES mode (config st) (config st) (scan_start st)
      = (ss, None) ->
      s_configured ss <> [] ->
      P (after_scan (ddel_all (s_configured ss) (config st)) ss)) ->
  forall st st' o,
    P st -> _build_items CLASSES mode st = (st', o) -> Q st' o.
Proof.
  intros H1 H2 H3 H4 st st' o HP H.
  pose proof (build_loop_rule P Q H1 H2 H3 H4 (S (length (config st))) st
                (Nat.lt_succ_diag_r _) HP) as HQ.
  unfold _build_items in H. now rewrite H in HQ.
Qed.

(** More fuel than pending keys changes nothing. *)
Lemma build_loop_fuel fuel st :
  length (config st) < fuel ->
  build_loop CLASSES fuel mode st = _build_items CLASSES mode st.
Proof.
  unfold _build_items.
  remember (length (config st)) as n eqn:En.
  revert fuel st En.
  induction n as [n IH] using lt_wf_ind. intros fuel st En Hlt.
  destruct fuel as [|fuel]; [lia|]. simpl.
  destruct (config st) as [|kv cfg] eqn:Ecfg; [reflexivity|].
  rewrite <- Ecfg in *.
  destruct (scan CLASSES mode (config st) (config st) (scan_start st))
    as [ss [e|]] eqn:Es; [reflexivity|].
  destruct (s_configured ss) as [|k C] eqn:Ec; [reflexivity|].
  rewrite <- Ec in *.
  assert (Hc : s_configured ss <> []) by (rewrite Ec; discriminate).
  pose proof (scan_progress st ss Es Hc) as Hp.
  set (st1 := after_scan (ddel_all (s_configured ss) (config st)) ss) in *.
  assert (Hlen1 : length (config st1) < n) by (subst n; exact Hp).
  rewrite (IH _ Hlen1 fuel st1 eq_refl) by (simpl in *; lia).
  rewrite (IH _ Hlen1 n st1 eq_refl) by (simpl in *; lia).
  reflexivity.
Qed.

End LoopFacts.

(** ** Termination and the outcomes of [_build_items] *)

Section Outcomes.

Variable CLASSES : dict pyclass.
Variable mode : Z.

Lemma scan_stuck_reports st ss :
  NoDup (keys (config st)) ->
  scan CLASSES mode (config st) (config st) (scan_start st) = (ss, None) ->
  s_configured ss = [] ->
  reports_pending CLASSES mode (after_scan (config st) ss) (s_unconfigured ss).
Proof.
  intros Hnd Hs Hc.
  destruct (scan_configured _ _ _ _ _ _ _ Hs) as (C & HC & _ & _ & _ & Hsame).
  simpl in HC. rewrite Hc in HC. symmetry in HC.
  destruct (Hsame HC eq_refl) as [Hexp _]. simpl in Hexp.
  destruct (scan_stuck _ _ _ _ _ _ Hs Hc) as (Hall & Hkeys & _).
  split; simpl.
  - intros k. rewrite Hkeys. simpl. tauto.
  - intros k v Hin. destruct (Hall k v Hin) as (missing & Hb & Hget).
    simpl in Hb. rewrite Hexp.
    destruct (build_one_ok _ _ _ _ _ _ _ Hb)
      as (d & n & c & lit & f & -> & Hn & Hc' & Hl & Hf
          & [(o & Ho & _)|[[Hm Hlen]|(o & Ho & _)]]);
      [discriminate| |discriminate].
    injection Hm as ->.
    exists d, n, c, lit, f. repeat split; auto.
Qed.

Lemma build_items_exits st st' o :
  _build_items CLASSES mode st = (st', o) ->
  build_items_exit CLASSES mode (NoDup (keys (config st))) st' o.
Proof.
  apply (build_items_rule CLASSES mode
           (fun s => NoDup (keys (config st)) -> NoDup (keys (config s)))
           (build_items_exit CLASSES mode (NoDup (keys (config st))))).
  - intros s _ Hs. exact Hs.
  - intros s ss e _ Hne Hs. simpl. right.
    now apply scan_raise_at in Hs.
  - intros s ss HP Hne Hs Hc. simpl. left.
    exists (s_unconfigured ss). split; [reflexivity|]. split; [exact Hne|].
    intros Hnd. apply scan_stuck_reports; auto.
  - intros s ss HP _ _ _ Hnd. simpl. apply NoDup_keys_ddel_all. auto.
  - auto.
Qed.

Lemma build_items_NoDup st st' o :
  _build_items CLASSES mode st = (st', o) ->
  NoDup (keys (config st)) -> NoDup (keys (config st')).
Proof.
  intros H Hnd. revert H.
  apply (build_items_rule CLASSES mode
           (fun s => NoDup (keys (config s)))
           (fun s _ => NoDup (keys (config s)))); auto.
  intros s ss HP _ _ _. simpl. now apply NoDup_keys_ddel_all.
Qed.

Lemma build_items_repeats st ss :
  config st <> [] ->
  scan CLASSES mode (config st) (config st) (scan_start st) = (ss, None) ->
  s_configured ss <> [] ->
  _build_items CLASSES mode st
  = _build_items CLASSES mode
      (after_scan (ddel_all (s_configured ss) (config st)) ss).
Proof.
  intros Hne Hs Hc. unfold _build_items at 1. simpl.
  destruct (config st) as [|kv cfg] eqn:Ecfg; [congruence|].
  rewrite <- Ecfg in *. rewrite Hs.
  destruct (s_configured ss) as [|k C] eqn:Ec; [congruence|].
  rewrite <- Ec in *. apply build_loop_fuel.
  pose proof (scan_progress CLASSES mode st ss Hs Hc). simpl. lia.
Qed.

Lemma build_items_stuck st ss :
  config st <> [] ->
  scan CLASSES mode (config st) (config st) (scan_start st) = (ss, None) ->
  s_configured ss = [] ->
  _build_items CLASSES mode st
  = (after_scan (config st) ss,
     Raised (UnconfiguredItemsException (s_unconfigured ss))).
Proof.
  intros Hne Hs Hc. unfold _build_items. simpl.
  destruct (config st) as [|kv cfg] eqn:Ecfg; [congruence|].
  rewrite <- Ecfg in *. now rewrite Hs, Hc.
Qed.

End Outcomes.

(** C4 (as the code has it). Within one tier [_build_items] goes on after
    every scan that constructed a descriptor, with the constructed keys
    removed and so with fewer pending entries, and a scan that constructs
    none while entries are pending raises [UnconfiguredItemsException]
    with, for every pending key, the arguments still missing. The loop
    ends for every pending set, within one scan more than there are
    pending keys, and it is left with no pending entry, with that
    exception, or with the exception that the visit of an entry raised. *)
Theorem build_items_terminates (CLASSES : dict pyclass) (mode : Z) (st : state) :
  snd (_build_items CLASSES mode st) <> OutOfFuel
  /\ (forall fuel,
        length (config st) < fuel ->
        build_loop CLASSES fuel mode st = _build_items CLASSES mode st)
  /\ (forall ss,
        config st <> [] ->
        scan CLASSES mode (config st) (config st) (scan_start st) = (ss, None) ->
        (s_configured ss <> [] ->
         _build_items CLASSES mode st
         = _build_items CLASSES mode
             (after_scan (ddel_all (s_configured ss) (config st)) ss)
         /\ length (ddel_all (s_configured ss) (config st))
            < length (config st))
        /\ (s_configured ss = [] ->
            _build_items CLASSES mode st
            = (after_scan (config st) ss,
               Raised (UnconfiguredItemsException (s_unconfigured ss)))
            /\ (NoDup (keys (config st)) ->
                reports_pending CLASSES mode (after_scan (config st) ss)
                  (s_unconfigured ss))))
  /\ (forall st' o,
        _build_items CLASSES mode st = (st', o) ->
        build_items_exit CLASSES mode (NoDup (keys (config st))) st' o).
Proof.
  split.
  { destruct (_build_items CLASSES mode st) as [st' o] eqn:E.
    apply build_items_exits in E. simpl. intros ->. exact E. }
  split; [intros fuel Hf; now apply build_loop_fuel|].
  split; [|intros st' o; apply build_items_exits].
  intros ss Hne Hs. split; intros Hc.
  - split; [now apply build_items_repeats | now apply (scan_progress CLASSES mode)].
  - split; [now apply build_items_stuck|].
    intros Hnd. now apply scan_stuck_reports.
Qed.

(** A descriptor whose alias names no entry: the first scan constructs
    nothing and the tier ends with the report. *)
Lemma build_items_terminates_witness :
  let st := {| config := [("b", descriptor "Box" [("value", VStr "a")])];
               experiment := [];
               factories := [] |} in
  (config st <> [] /\ NoDup (keys (config st)))
  /\ _build_items EXAMPLES 0 st
     = (st, Raised (UnconfiguredItemsException [("b", ["value"])]))
  /\ reports_pending EXAMPLES 0 st [("b", ["value"])].
Proof.
  intros st.
  assert (Hne : config st <> []) by discriminate.
  assert (Hnd : NoDup (keys (config st)))
    by (repeat constructor; simpl; tauto).
  split; [now split|].
  destruct (build_items_terminates EXAMPLES 0 st) as (_ & _ & Hscan & _).
  destruct (scan EXAMPLES 0 (config st) (config st) (scan_start st))
    as [ss err] eqn:Es.
  vm_compute in Es. injection Es as <- <-.
  destruct (Hscan _ Hne eq_refl) as [_ Hstuck].
  destruct (Hstuck eq_refl) as [Heq Hrep].
  split; [exact Heq | exact (Hrep Hnd)].
Defined.

(** ** Classification *)

Section ClassifyFacts.

Variable env : dict string.

Lemma extract_scalar_keys items acc x :
  In x (keys (fst (fold_left (extract_scalar env) items acc)))
  <-> In x (keys (fst acc))
      \/ exists v, In (x, v) items /\ is_scalar v = true.
Proof.
  revert acc. induction items as [|[k v] items IH]; intros acc; simpl.
  - split; [auto | intros [H|(v & [] & _)]; exact H].
  - rewrite IH. destruct (is_scalar v) eqn:Ev; simpl.
    + rewrite In_keys_dset. split.
      * intros [[->|H]|(v' & Hin & Hs)]; eauto 6.
      * intros [H|(v' & [[= -> ->]|Hin] & Hs)]; eauto 6.
    + split.
      * intros [H|(v' & Hin & Hs)]; eauto 6.
      * intros [H|(v' & [[= -> ->]|Hin] & Hs)]; eauto 6. congruence.
Qed.

Lemma extract_list_keys items acc x :
  In x (keys (fst (fold_left (extract_list env) items acc)))
  <-> In x (keys (fst acc))
      \/ exists v, In (x, v) items /\ is_scalar_list v = true.
Proof.
  revert acc. induction items as [|[k v] items IH]; intros acc; simpl.
  - split; [auto | intros [H|(v & [] & _)]; exact H].
  - rewrite IH.
    assert (Hno : is_scalar_list v = false ->
              In x (keys (fst acc)) \/
              (exists v0, In (x, v0) items /\ is_scalar_list v0 = true) <->
              In x (keys (fst acc)) \/
              (exists v0, ((k, v) = (x, v0) \/ In (x, v0) items)
                          /\ is_scalar_list v0 = true)).
    { intros Hv. split.
      - intros [H|(v' & Hin & Hs)]; eauto 6.
      - intros [H|(v' & [[= -> ->]|Hin] & Hs)]; eauto 6. congruence. }
    destruct v; try (apply Hno; reflexivity).
    destruct (forallb is_scalar l) eqn:El; [|now apply Hno].
    simpl. rewrite In_keys_dset. split.
    + intros [[->|H]|(v' & Hin & Hs)]; eauto 6.
    + intros [H|(v' & [[= -> <-]|Hin] & Hs)]; eauto 6.
Qed.

Lemma extract_scalar_NoDup items acc :
  NoDup (keys (fst acc)) ->
  NoDup (keys (fst (fold_left (extract_scalar env) items acc))).
Proof.
  revert acc. induction items as [|[k v] items IH]; intros acc H; simpl.
  - exact H.
  - apply IH. destruct (is_scalar v); simpl; [|exact H].
    now apply NoDup_keys_dset.
Qed.

Lemma extract_list_NoDup items acc :
  NoDup (keys (fst acc)) ->
  NoDup (keys (fst (fold_left (extract_list env) items acc))).
Proof.
  revert acc. induction items as [|[k v] items IH]; intros acc H; simpl.
  - exact H.
  - apply IH. destruct v; try exact H.
    destruct (forallb is_scalar l); simpl; [|exact H].
    now apply NoDup_keys_dset.
Qed.

Lemma classify_experiment_keys raw x :
  In x (keys (experiment (classify raw env)))
  <-> exists v, In (x, v) raw /\ is_simple v = true.
Proof.
  unfold classify. simpl.
  rewrite extract_list_keys, extract_scalar_keys. simpl.
  unfold is_simple. split.
  - intros [[[]|(v & Hin & Hs)]|(v & Hin & Hs)]; exists v;
      rewrite Hs; auto using orb_true_r.
  - intros (v & Hin & Hs). apply orb_true_iff in Hs as [Hs|Hs]; eauto 6.
Qed.

Lemma classify_experiment_NoDup raw :
  NoDup (keys (experiment (classify raw env))).
Proof.
  unfold classify. simpl.
  apply extract_list_NoDup, extract_scalar_NoDup. constructor.
Qed.

Lemma In_keys_value {A} (d : dict A) k : In k (keys d) -> exists v, In (k, v) d.
Proof.
  unfold keys. rewrite in_map_iff. intros ([k' v] & <- & Hin). eauto.
Qed.

Lemma In_value_keys {A} (d : dict A) k v : In (k, v) d -> In k (keys d).
Proof. intros H. change k with (fst (k, v)). now apply in_map. Qed.

Lemma NoDup_keys_same {A} (d : dict A) k v v' :
  NoDup (keys d) -> In (k, v) d -> In (k, v') d -> v = v'.
Proof.
  intros Hnd H H'. apply (In_dget _ _ _ Hnd) in H, H'. congruence.
Qed.

(** The entries left pending are those that are neither a scalar nor
    a list of scalars. *)
Lemma classify_config raw k v :
  NoDup (keys raw) ->
  (In (k, v) (config (classify raw env))
   <-> In (k, v) raw /\ is_simple v = false).
Proof.
  intros Hnd. unfold classify at 1. simpl.
  rewrite In_ddel_all.
  change (fst (fold_left (extract_list env) raw
                 (fold_left (extract_scalar env) raw ([], []))))
    with (experiment (classify raw env)).
  rewrite classify_experiment_keys. split.
  - intros [Hin Hno]. split; [exact Hin|].
    destruct (is_simple v) eqn:E; [|reflexivity].
    exfalso. apply Hno. eauto.
  - intros [Hin Hs]. split; [exact Hin|].
    intros (v' & Hin' & Hs').
    rewrite (NoDup_keys_same raw k v v' Hnd Hin Hin') in Hs. congruence.
Qed.

Lemma classify_config_NoDup raw :
  NoDup (keys raw) -> NoDup (keys (config (classify raw env))).
Proof. intros H. unfold classify. simpl. now apply NoDup_keys_ddel_all. Qed.

Lemma classify_disjoint raw k :
  In k (keys (config (classify raw env))) ->
  In k (keys (experiment (classify raw env))) -> False.
Proof.
  unfold classify. simpl. rewrite In_keys_ddel_all. tauto.
Qed.

Lemma classify_keys raw k :
  In k (keys raw)
  <-> In k (keys (config (classify raw env)))
      \/ In k (keys (experiment (classify raw env))).
Proof.
  unfold classify at 1. simpl. rewrite In_keys_ddel_all.
  change (fst (fold_left (extract_list env) raw
                 (fold_left (extract_scalar env) raw ([], []))))
    with (experiment (classify raw env)).
  split.
  - intros H.
    destruct (in_dec string_dec k (keys (experiment (classify raw env))));
      tauto.
  - intros [[H _]|H]; [exact H|].
    apply classify_experiment_keys in H as (v & Hin & _).
    now apply In_value_keys in Hin.
Qed.

End ClassifyFacts.

(** ** The three tiers *)

Section Tiers.

Variable CLASSES : dict pyclass.

Lemma tolerated_cases o :
  tolerated o = true ->
  o = Returned \/ exists items, o = Raised (UnconfiguredItemsException items).
Proof.
  destruct o as [|e|]; try discriminate; [auto|].
  destruct e; try discriminate. eauto.
Qed.

Lemma run_tiers_cases st st' o :
  run_tiers CLASSES st = (st', o) ->
  (exists st0 o0 st1 o1,
      _build_items CLASSES 0 st = (st0, o0) /\ tolerated o0 = true
      /\ _build_items CLASSES 1 st0 = (st1, o1) /\ tolerated o1 = true
      /\ _build_items CLASSES 2 st1 = (st', o))
  \/ (tolerated o = false
      /\ (_build_items CLASSES 0 st = (st', o)
          \/ exists st0 o0,
               _build_items CLASSES 0 st = (st0, o0) /\ tolerated o0 = true
               /\ _build_items CLASSES 1 st0 = (st', o))).
Proof.
  unfold run_tiers.
  destruct (_build_items CLASSES 0 st) as [st0 o0] eqn:E0.
  destruct (tolerated o0) eqn:T0.
  - destruct (_build_items CLASSES 1 st0) as [st1 o1] eqn:E1.
    destruct (tolerated o1) eqn:T1.
    + intros H. left. exists st0, o0, st1, o1. auto.
    + intros [= <- <-]. right. split; [exact T1|]. right. eauto.
  - intros [= <- <-]. right. auto.
Qed.

End Tiers.

Lemma EXAMPLES_quiet : quiet_constructors EXAMPLES.
Proof.
  intros n c kwargs items H. apply dget_Some_In in H.
  repeat (destruct H as [[= <- <-]|H]; [discriminate|]). destruct H.
Qed.

(** C5 (as the code has it). [UnconfiguredItemsException] is the one
    exception that the tiers 0 and 1 may end with for the next tier to
    run, on what the tier left; when [__init__] raises it, it is the
    exception of tier 2, with entries still pending, and either
    [_build_items] has raised it, and it lists every key still pending
    after tier 2 with the arguments its entry is missing, or the
    constructor of a pending entry has, with its own items. It is the
    report of [_build_items] whenever no registered constructor raises
    [UnconfiguredItemsException]. *)
Theorem unconfigured_items_fatal_after_tier_2
  (CLASSES : dict pyclass) (raw : dict value) (env : dict string) :
  NoDup (keys raw) ->
  (forall e, tolerated (Raised e) = is_unconfigured e)
  /\ (forall st0 o0 st1 o1,
        _build_items CLASSES 0 (classify raw env) = (st0, o0) ->
        tolerated o0 = true ->
        _build_items CLASSES 1 st0 = (st1, o1) ->
        tolerated o1 = true ->
        __init__ CLASSES raw env = _build_items CLASSES 2 st1)
  /\ (forall st items,
        __init__ CLASSES raw env
        = (st, Raised (UnconfiguredItemsException items)) ->
        (exists st0 o0 st1 o1,
            _build_items CLASSES 0 (classify raw env) = (st0, o0)
            /\ _build_items CLASSES 1 st0 = (st1, o1)
            /\ _build_items CLASSES 2 st1
               = (st, Raised (UnconfiguredItemsException items)))
        /\ config st <> []
        /\ (reports_pending CLASSES 2 st items
            \/ exists k d n c kwargs,
                 In (k, VDict d) (config st)
                 /\ dget "_name" d = Some (VStr n)
                 /\ dget n CLASSES = Some c
                 /\ cinit c kwargs = RaisesUnconfigured items)
        /\ (quiet_constructors CLASSES -> reports_pending CLASSES 2 st items)).
Proof.
intros Hnd. split; [intros e; now destruct e|]. split.
- intros st0 o0 st1 o1 H0 T0 H1 T1.
  unfold __init__, run_tiers. rewrite H0, T0, H1, T1. reflexivity.
- intros st items H. unfold __init__ in H.
  apply run_tiers_cases in H as [(st0 & o0 & st1 & o1 & H0 & _ & H1 & _ & H2)
                                |[Hf _]]; [|discriminate].
  split; [exists st0, o0, st1, o1; auto|].
  assert (Hnd1 : NoDup (keys (config st1))).
  { eapply build_items_NoDup; [exact H1|].
    eapply build_items_NoDup; [exact H0|].
    now apply classify_config_NoDup. }
  pose proof (build_items_exits _ _ _ _ _ H2) as Hex. simpl in Hex.
  destruct Hex as [(items' & [= <-] & Hne & Hrep)
                  |(k & v & exp_k & Hin & Hv)].
  + split; [exact Hne|]. split; [left|]; auto.
  + destruct (visit_raises_unconfigured _ _ _ _ _ _ _ Hv eq_refl)
      as (d & n & c & kwargs & items' & -> & Hn & Hc & Hi & [= <-]).
    split; [intros E; rewrite E in Hin; destruct Hin|].
    split; [right; exists k, d, n, c, kwargs; auto|].
    intros Hq. exfalso. exact (Hq n c kwargs items Hc Hi).
Qed.

(** Two entries that nothing can supply: one report names both. *)
Lemma unconfigured_items_fatal_after_tier_2_witness :
  let raw := [("b", descriptor "Box" [("value", VStr "a")]);
              ("p", descriptor "Pair" [])] in
  NoDup (keys raw)
  /\ exists st,
       __init__ EXAMPLES raw []
       = (st, Raised (UnconfiguredItemsException
                        [("b", ["value"]); ("p", ["a"])]))
       /\ config st <> []
       /\ reports_pending EXAMPLES 2 st [("b", ["value"]); ("p", ["a"])].
Proof.
  intros raw.
  assert (Hnd : NoDup (keys raw)).
  { repeat constructor; simpl; intuition discriminate. }
  split; [exact Hnd|].
  destruct (unconfigured_items_fatal_after_tier_2 EXAMPLES raw [] Hnd)
    as (_ & _ & Hfatal).
  destruct (__init__ EXAMPLES raw []) as [st o] eqn:E.
  vm_compute in E. injection E as <- <-.
  eexists. split; [reflexivity|].
  destruct (Hfatal _ _ eq_refl) as (_ & Hne & _ & Hrep).
  split; [exact Hne | exact (Hrep EXAMPLES_quiet)].
Defined.

(** C5 (as stated) fails: the exception that a constructor raises is
    caught by tiers 0 and 1 like the report of a tier, and is what
    [__init__] raises after tier 2, with items that name none of the two
    keys still pending. *)
Lemma foreign_items_reported :
  let raw := [("b", descriptor "Box" [("value", VStr "nowhere")]);
              ("s", descriptor "Sub" [])] in
  NoDup (keys raw)
  /\ exists st,
       __init__ FAULTY raw []
       = (st, Raised (UnconfiguredItemsException [("x", ["y"])]))
       /\ keys (config st) = ["b"; "s"]
       /\ ~ reports_pending FAULTY 2 st [("x", ["y"])].
Proof.
  intros raw. split; [repeat constructor; simpl; intuition discriminate|].
  eexists. split; [reflexivity|]. split; [reflexivity|].
  intros [Hkeys _]. specialize (Hkeys "b"). simpl in Hkeys.
  destruct (proj2 Hkeys) as [H|[]]; [now left | discriminate].
Qed.

(** ** The sources of a parameter *)

Lemma default_applies_tiers cfg arg :
  default_applies 0 cfg arg = false
  /\ default_applies 1 cfg arg = negb (dmem arg cfg)
  /\ default_applies 2 cfg arg = true.
Proof.
  unfold default_applies. repeat split; cbn;
    try reflexivity; destruct (dmem arg cfg); reflexivity.
Qed.

Lemma self_binding_other arg : arg <> reserved -> self_binding arg = None.
Proof.
  unfold self_binding. intros H.
  now destruct (String.eqb_spec arg reserved).
Qed.

(** What the loop stores for a list alias of key names. *)
Lemma stored_list_alias mode cfg exp lit named defaults arg names :
  dget arg lit = None -> arg <> reserved ->
  dget arg named = Some (VList (map VStr names)) ->
  (forall vs,
      Forall2 (fun s x => dget s exp = Some x) names vs ->
      stored_value mode cfg exp lit named defaults arg = Some (VList vs))
  /\ ((exists s, In s names /\ dget s exp = None) ->
      stored_value mode cfg exp lit named defaults arg = None).
Proof.
  intros Hl Hr Hn. unfold stored_value. rewrite Hl, Hn.
  destruct (collect_alias_names names exp)
    as (l & -> & Hle & Hall & Hfull & Hmiss).
  rewrite length_map, (self_binding_other _ Hr). split.
  - intros vs Hvs. rewrite (Hall vs Hvs).
    rewrite (Forall2_length Hvs), Nat.eqb_refl. reflexivity.
  - intros Hex. apply Hmiss in Hex.
    destruct (Nat.eqb_spec (length l) (length names)); [lia | reflexivity].
Qed.




(** The reserved name: a resolved key of that name replaces the binding
    to the resolver, which the stated order puts first. *)
Example self_reference_replaced :
  exists f,
    fill_args 0 [] [(reserved, VInt 3)] [] [] [] [reserved] empty_fill = Ok f
    /\ dget reserved (params f) = Some (VInt 3)
    /\ spec_first_source 0 [] [(reserved, VInt 3)] [] [] [] reserved
       = Some VSelf.
Proof.
  eexists. repeat split.
Qed.

(** ** A visit with an argument left unfilled *)

Section VisitFacts.

Variable CLASSES : dict pyclass.
Variables (mode : Z) (cfg exp : dict value).

Lemma visit_unfilled k d n c a r :
  build_one CLASSES mode cfg exp k (VDict d) = Ok r ->
  dget "_name" d = Some (VStr n) -> dget n CLASSES = Some c ->
  NoDup (tl (cargs c)) -> In a (tl (cargs c)) ->
  (forall lit,
      literal_params d = Ok lit ->
      stored_value mode cfg exp lit (named_params d) (default_params c) a
      = None) ->
  exists missing, r = Unconfigured missing /\ In a missing.
Proof.
  intros Hb Hn Hc Hnd Hin Hstored.
  destruct (build_one_ok _ _ _ _ _ _ _ Hb)
    as (d' & n' & c' & lit & f & [= <-] & Hn' & Hc' & Hl & Hf & Hr).
  rewrite Hn in Hn'. injection Hn' as <-.
  rewrite Hc in Hc'. injection Hc' as <-.
  specialize (Hstored lit Hl).
  pose proof (fill_args_dget _ _ _ _ _ _ _ _ _ Hin Hf) as Hget.
  rewrite Hstored in Hget.
  assert (Hfull : S (length (params f)) = length (cargs c) -> False).
  { intros Hlen.
    destruct (cargs c) as [|self rest]; [destruct Hin|]. simpl in *.
    injection Hlen as Hlen.
    pose proof (proj1 (fill_args_length _ _ _ _ _ _ _ _ Hnd Hf) Hlen) as Hall.
    now apply (Hall a Hin). }
  destruct Hr as [(obj & _ & _ & Hlen & _)|[[-> _]|(obj & _ & _ & Hlen & _)]];
    [now exfalso| |now exfalso].
  eexists. split; [reflexivity|].
  unfold missing_args. apply filter_In. split; [exact Hin|].
  unfold dmem. now rewrite Hget.
Qed.

Lemma no_literal d lit a :
  ~ In (a ++ "_")%string (keys d) ->
  literal_params d = Ok lit -> dget a lit = None.
Proof.
  intros Hno Hl. pose proof (literal_params_keys d lit a Hl) as Hk.
  destruct (dget a lit); [|reflexivity].
  exfalso. apply Hno, Hk. discriminate.
Qed.

End VisitFacts.

(** C3 (as the code has it). A parameter that has no literal override, is
    not the reserved name and is given a list of key names is filled
    exactly in a visit in which every key of the list is resolved, with
    the list of their values in order; with a key of the list unresolved
    it is not filled and the visit leaves the descriptor unconfigured,
    with the parameter among the missing ones. *)
Theorem list_alias_all_or_nothing (CLASSES : dict pyclass) (mode : Z)
  (cfg exp : dict value) (k : string) (d : dict value) (n : string)
  (c : pyclass) (arg : string) (names : list string) :
  dget "_name" d = Some (VStr n) -> dget n CLASSES = Some c ->
  NoDup (tl (cargs c)) -> In arg (tl (cargs c)) ->
  arg <> reserved -> ~ In (arg ++ "_")%string (keys d) ->
  dget arg (named_params d) = Some (VList (map VStr names)) ->
  (forall lit f,
      literal_params d = Ok lit ->
      fill_args mode cfg exp lit (named_params d) (default_params c)
        (tl (cargs c)) empty_fill = Ok f ->
      (forall vs,
          Forall2 (fun s x => dget s exp = Some x) names vs ->
          dget arg (params f) = Some (VList vs))
      /\ ((exists s, In s names /\ dget s exp = None) ->
          dget arg (params f) = None))
  /\ ((exists s, In s names /\ dget s exp = None) ->
      forall r,
        build_one CLASSES mode cfg exp k (VDict d) = Ok r ->
        exists missing, r = Unconfigured missing /\ In arg missing).
Proof.
  intros Hn Hc Hnd Hin Hr Hlit Hal. split.
  - intros lit f Hl Hf.
    rewrite (fill_args_dget _ _ _ _ _ _ _ _ _ Hin Hf).
    apply stored_list_alias; auto. now apply (no_literal d).
  - intros Hmiss r Hb.
    apply (visit_unfilled CLASSES mode cfg exp k d n c arg r); auto.
    intros lit Hl.
    apply stored_list_alias with (names := names); auto.
    now apply (no_literal d).
Qed.

(** [Model(layers, p=7)] with [layers: ["a", "b"]] while [b] is not
    resolved. *)
Lemma list_alias_all_or_nothing_witness :
  let d := [("_name", VStr "Model"); ("layers", VList [VStr "a"; VStr "b"])] in
  let exp := [("a", VInt 1)] in
  (exists s, In s ["a"; "b"] /\ dget s exp = None)
  /\ build_one EXAMPLES 2 [] exp "m" (VDict d) = Ok (Unconfigured ["layers"])
  /\ exists missing,
       Unconfigured ["layers"] = Unconfigured missing /\ In "layers" missing.
Proof.
  intros d exp.
  assert (Hmiss : exists s, In s ["a"; "b"] /\ dget s exp = None).
  { exists "b". split; [right; now left | reflexivity]. }
  assert (Hb : build_one EXAMPLES 2 [] exp "m" (VDict d)
               = Ok (Unconfigured ["layers"])) by reflexivity.
  split; [exact Hmiss|]. split; [exact Hb|].
  refine (proj2 (list_alias_all_or_nothing EXAMPLES 2 [] exp "m" d "Model"
                   (make_class "Model" ["layers"; "p"] [VInt 7]) "layers"
                   ["a"; "b"] eq_refl eq_refl _ _ _ _ eq_refl) Hmiss _ Hb).
  - repeat constructor; simpl; intuition discriminate.
  - now left.
  - discriminate.
  - simpl. intuition discriminate.
Defined.

(** C3 (as stated) fails for the reserved name: the resolver is bound to
    it before the list alias is looked at, so the descriptor is
    constructed although [b] is not resolved. *)
Lemma list_alias_of_reserved_name :
  let d := [("_name", VStr "Ctx"); (reserved, VList [VStr "a"; VStr "b"])] in
  let exp := [("a", VInt 1)] in
  dget reserved (named_params d) = Some (VList (map VStr ["a"; "b"]))
  /\ dget "b" exp = None
  /\ build_one EXAMPLES 0 [] exp "c" (VDict d)
     = Ok (Constructed (VObj "Ctx" [(reserved, VSelf)])
             (PluginFactory "Ctx"
                (Some [(reserved, Some (VList [VStr "a"; VStr "b"]))]) []
                [(reserved, VSelf)])).
Proof.
  repeat split.
Qed.

(** ** What a scan keeps *)

Section StepFacts.

Variable CLASSES : dict pyclass.
Variable mode : Z.

(** The state after a scan that goes on: the constructed keys have
    moved from [config] to [experiment]. *)
Lemma scan_step st ss :
  scan CLASSES mode (config st) (config st) (scan_start st) = (ss, None) ->
  let st' := after_scan (ddel_all (s_configured ss) (config st)) ss in
  (forall k v, In (k, v) (config st')
               <-> In (k, v) (config st) /\ ~ In k (s_configured ss))
  /\ (forall x, In x (keys (config st'))
                <-> In x (keys (config st)) /\ ~ In x (s_configured ss))
  /\ (forall x, In x (keys (experiment st'))
                <-> In x (keys (experiment st)) \/ In x (s_configured ss))
  /\ incl (s_configured ss) (keys (config st))
  /\ (NoDup (keys (config st)) -> NoDup (keys (config st')))
  /\ (NoDup (keys (experiment st)) -> NoDup (keys (experiment st')))
  /\ (disjoint_keys st -> disjoint_keys st').
Proof.
  intros Hs st'.
  destruct (scan_start_configured _ _ _ _ _ Hs) as (Hincl & Hexp & Hnd).
  specialize (Hexp eq_refl).
  split; [intros k v; apply In_ddel_all|].
  split; [intros x; apply In_keys_ddel_all|].
  split; [exact Hexp|]. split; [exact Hincl|].
  split; [apply NoDup_keys_ddel_all|]. split; [exact Hnd|].
  intros Hd x Hc He. simpl in Hc, He.
  apply In_keys_ddel_all in Hc as [Hc Hno].
  apply Hexp in He as [He|He]; [exact (Hd x Hc He) | exact (Hno He)].
Qed.

(** A scan that raises nothing and constructs nothing leaves the state
    as it was. *)
Lemma scan_nothing st ss :
  scan CLASSES mode (config st) (config st) (scan_start st) = (ss, None) ->
  s_configured ss = [] ->
  after_scan (config st) ss = st.
Proof.
  intros Hs Hc.
  destruct (scan_configured _ _ _ _ _ _ _ Hs) as (C & HC & _ & _ & _ & Hsame).
  simpl in HC. rewrite Hc in HC. symmetry in HC.
  destruct (Hsame HC eq_refl) as [He Hf]. simpl in He, Hf.
  unfold after_scan. rewrite He, Hf. now destruct st.
Qed.

End StepFacts.

(** ** Defaults and pending keys *)

Section DefaultFacts.

Variable CLASSES : dict pyclass.
Variables (k : string) (d : dict value) (n : string) (c : pyclass).
Variable p : string.

Hypothesis Hname : dget "_name" d = Some (VStr n).
Hypothesis Hclass : dget n CLASSES = Some c.
Hypothesis Hargs : NoDup (tl (cargs c)).
Hypothesis Hp : In p (tl (cargs c)).
Hypothesis Hreserved : p <> reserved.
Hypothesis Hliteral : ~ In (p ++ "_")%string (keys d).
Hypothesis Hnamed : dget p (named_params d) = None.

(** In tiers 0 and 1 a visit leaves [p] unfilled as long as [p] is a
    pending key that is not resolved. *)
Lemma visit_waits mode cfg exp r :
  mode = 0%Z \/ mode = 1%Z ->
  In p (keys cfg) -> ~ In p (keys exp) ->
  build_one CLASSES mode cfg exp k (VDict d) = Ok r ->
  exists missing, r = Unconfigured missing /\ In p missing.
Proof.
  intros Hmode Hcfg Hexp Hb.
  apply (visit_unfilled CLASSES mode cfg exp k d n c p r); auto.
  intros lit Hl. unfold stored_value.
  rewrite (no_literal d lit p Hliteral Hl), Hnamed.
  apply dget_None_iff in Hexp. rewrite Hexp.
  rewrite (self_binding_other _ Hreserved).
  destruct (dget p (default_params c)); [|reflexivity].
  destruct (default_applies_tiers cfg p) as (H0 & H1 & _).
  destruct Hmode as [->| ->].
  - now rewrite H0.
  - rewrite H1. apply dmem_true_iff in Hcfg. now rewrite Hcfg.
Qed.

Lemma tier_waits mode st st' o :
  mode = 0%Z \/ mode = 1%Z ->
  NoDup (keys (config st)) -> disjoint_keys st ->
  In (k, VDict d) (config st) ->
  _build_items CLASSES mode st = (st', o) ->
  tolerated o = true ->
  In p (keys (config st')) -> In (k, VDict d) (config st').
Proof.
  intros Hmode Hnd Hdis Hk Hrun.
  revert Hrun.
  apply (build_items_rule CLASSES mode
           (fun s => NoDup (keys (config s)) /\ disjoint_keys s
                     /\ (In p (keys (config s)) -> In (k, VDict d) (config s)))
           (fun s o => tolerated o = true ->
                       In p (keys (config s)) -> In (k, VDict d) (config s))).
  - intros s (_ & _ & HG) _ _. exact HG.
  - intros s ss e (_ & _ & HG) _ _ _. exact HG.
  - intros s ss (_ & _ & HG) _ Hs Hc _.
    rewrite (scan_nothing _ _ _ _ Hs Hc). exact HG.
  - intros s ss (HN & HD & HG) _ Hs _.
    destruct (scan_step CLASSES mode s ss Hs)
      as (Hcfg & Hkeys & Hexp & Hincl & HN' & _ & HD').
    split; [auto|]. split; [auto|].
    intros Hpin. apply Hkeys in Hpin as [Hpin Hpno].
    apply Hcfg. split; [auto|].
    intros Hkin.
    destruct (scan_constructed CLASSES mode (config s) (config s)
                (scan_start s) ss None (s_configured ss) k Hs eq_refl Hkin)
      as (v & exp_k & obj & fac & Hin & Hb & Hsub).
    rewrite (NoDup_keys_same (config s) k v (VDict d) HN Hin (HG Hpin)) in Hb.
    destruct (in_dec string_dec p (keys exp_k)) as [Hpe|Hpe].
    + apply Hsub in Hpe as [Hpe|Hpe]; [exact (HD p Hpin Hpe) | auto].
    + destruct (visit_waits mode (config s) exp_k _ Hmode Hpin Hpe Hb)
        as (missing & Hm & _).
      discriminate.
  - auto.
Qed.

(** In tier 2 the default fills [p] whenever [p] is not resolved. *)
Lemma default_fills cfg exp lit f dv :
  dget p (default_params c) = Some dv ->
  ~ In p (keys exp) ->
  literal_params d = Ok lit ->
  fill_args 2 cfg exp lit (named_params d) (default_params c)
    (tl (cargs c)) empty_fill = Ok f ->
  dget p (params f) = Some dv.
Proof.
  intros Hd Hexp Hl Hf.
  rewrite (fill_args_dget _ _ _ _ _ _ _ _ _ Hp Hf).
  unfold stored_value.
  rewrite (no_literal d lit p Hliteral Hl), Hnamed.
  apply dget_None_iff in Hexp. rewrite Hexp, Hd.
  destruct (default_applies_tiers cfg p) as (_ & _ & H2).
  now rewrite H2.
Qed.

End DefaultFacts.




(** ** Malformed entries *)

Section MalformedFacts.

Variable CLASSES : dict pyclass.

Lemma scan_app mode cfg pre post ss ss1 :
  scan CLASSES mode cfg pre ss = (ss1, None) ->
  scan CLASSES mode cfg (pre ++ post) ss = scan CLASSES mode cfg post ss1.
Proof.
  revert ss. induction pre as [|[k v] pre IH]; intros ss; simpl.
  - now intros [= <-].
  - destruct (build_one CLASSES mode cfg (s_experiment ss) k v)
      as [[obj fac|obj e|missing]|e]; try apply IH; discriminate.
Qed.

Lemma build_items_raise mode st ss e :
  config st <> [] ->
  scan CLASSES mode (config st) (config st) (scan_start st) = (ss, Some e) ->
  _build_items CLASSES mode st = (after_scan (config st) ss, Raised e).
Proof.
  intros Hne Hs. unfold _build_items. simpl.
  destruct (config st) as [|kv cfg] eqn:Ecfg; [congruence|].
  rewrite <- Ecfg in *. now rewrite Hs.
Qed.

Lemma malformed_not_simple v : malformed v = true -> is_simple v = false.
Proof.
  destruct v; try discriminate; simpl; unfold is_simple; simpl.
  - now intros ->%negb_true_iff.
  - reflexivity.
Qed.

Lemma malformed_visit mode cfg exp k v :
  malformed v = true ->
  build_one CLASSES mode cfg exp k v = Raise (malformed_error k v).
Proof.
  destruct v; try discriminate; simpl; [reflexivity|].
  unfold dmem. destruct (dget "_name" d); [discriminate | reflexivity].
Qed.

Lemma run_tiers_fatal st st' e :
  _build_items CLASSES 0 st = (st', Raised e) ->
  is_unconfigured e = false ->
  run_tiers CLASSES st = (st', Raised e).
Proof.
  intros H He. unfold run_tiers. rewrite H.
  destruct e; try reflexivity. discriminate.
Qed.

(** A pending entry whose visit raises whatever [experiment] holds: every
    tier ends in its first scan, with an exception and with [config] as
    it was. *)
Lemma build_items_blocked mode st k v :
  In (k, v) (config st) ->
  (forall exp, exists e,
      build_one CLASSES mode (config st) exp k v = Raise e) ->
  exists ss e,
    scan CLASSES mode (config st) (config st) (scan_start st) = (ss, Some e)
    /\ _build_items CLASSES mode st = (after_scan (config st) ss, Raised e).
Proof.
  intros Hin Hbad.
  destruct (scan_reaches_raise CLASSES mode (config st) (config st)
              (scan_start st) k v Hin Hbad) as (ss & e & Hs).
  exists ss, e. split; [exact Hs|].
  apply build_items_raise; [|exact Hs].
  intros E. rewrite E in Hin. destruct Hin.
Qed.

Lemma run_tiers_blocked st k v :
  In (k, v) (config st) ->
  (forall mode cfg exp, exists e,
      build_one CLASSES mode cfg exp k v = Raise e) ->
  exists st' e,
    run_tiers CLASSES st = (st', Raised e) /\ config st' = config st.
Proof.
  intros Hin Hbad. unfold run_tiers.
  destruct (build_items_blocked 0 st k v Hin (Hbad 0%Z (config st)))
    as (ss0 & e0 & _ & ->).
  destruct (tolerated (Raised e0)); [|eauto].
  set (st0 := after_scan (config st) ss0).
  destruct (build_items_blocked 1 st0 k v Hin (Hbad 1%Z (config st0)))
    as (ss1 & e1 & _ & ->).
  destruct (tolerated (Raised e1)); [|eauto].
  set (st1 := after_scan (config st0) ss1).
  destruct (build_items_blocked 2 st1 k v Hin (Hbad 2%Z (config st1)))
    as (ss2 & e2 & _ & ->).
  eauto.
Qed.

End MalformedFacts.

(** C8 (as the code has it). An entry that is a mapping without [_name], or
    a list with an element that is no scalar, passes classification and is
    left pending, and construction raises with the entry still pending. The
    first scan of tier 0 raises at the first entry whose visit raises: when
    the visits before the malformed entry go through, it is the
    [ValueError] of that entry, and what those visits constructed has been
    constructed. The exception of that scan ends construction unless it is
    an [UnconfiguredItemsException], which only the constructor of an
    entry before the malformed one can have raised. *)
Theorem malformed_entry_raises_in_first_scan (CLASSES : dict pyclass)
  (raw : dict value) (env : dict string) (k : string) (v : value) :
  NoDup (keys raw) -> In (k, v) raw -> malformed v = true ->
  In (k, v) (config (classify raw env))
  /\ (exists ss e,
        scan CLASSES 0 (config (classify raw env)) (config (classify raw env))
          (scan_start (classify raw env)) = (ss, Some e)
        /\ (is_unconfigured e = false ->
            __init__ CLASSES raw env
            = (after_scan (config (classify raw env)) ss, Raised e))
        /\ (quiet_constructors CLASSES -> is_unconfigured e = false))
  /\ (exists st e,
        __init__ CLASSES raw env = (st, Raised e)
        /\ config st = config (classify raw env))
  /\ (forall pre post ss1,
        config (classify raw env) = pre ++ (k, v) :: post ->
        scan CLASSES 0 (config (classify raw env)) pre
          (scan_start (classify raw env)) = (ss1, None) ->
        __init__ CLASSES raw env
        = (after_scan (config (classify raw env)) ss1,
           Raised (malformed_error k v))).
Proof.
  intros Hnd Hin Hbad.
  assert (Hcfg : In (k, v) (config (classify raw env))).
  { apply classify_config; [exact Hnd|]. split; [exact Hin|].
    now apply malformed_not_simple. }
  assert (Hne : config (classify raw env) <> []).
  { intros E. rewrite E in Hcfg. destruct Hcfg. }
  assert (Hvisit : forall mode cfg exp, exists e,
            build_one CLASSES mode cfg exp k v = Raise e).
  { intros mode cfg exp. eexists. now apply malformed_visit. }
  split; [exact Hcfg|]. split; [|split].
  - destruct (build_items_blocked CLASSES 0 (classify raw env) k v Hcfg
                (Hvisit 0%Z _)) as (ss & e & Hs & Hb).
    exists ss, e. split; [exact Hs|]. split.
    + intros He. unfold __init__. now apply run_tiers_fatal.
    + intros Hq. exact (scan_raise _ _ _ _ _ _ _ Hq Hs).
  - exact (run_tiers_blocked CLASSES (classify raw env) k v Hcfg Hvisit).
  - intros pre post ss1 Hsplit Hpre.
    unfold __init__.
    apply run_tiers_fatal; [|destruct v; try discriminate; reflexivity].
    apply build_items_raise; [exact Hne|].
    rewrite Hsplit at 2.
    rewrite (scan_app CLASSES 0 _ pre _ _ ss1 Hpre). simpl.
    now rewrite malformed_visit.
Qed.

(** A mapping without [_name] behind a descriptor that is ready. *)
Lemma malformed_entry_raises_in_first_scan_witness :
  let a := descriptor "Box" [("value_", VInt 9)] in
  let b := VDict [("value", VStr "a")] in
  let raw := [("a", a); ("b", b)] in
  (NoDup (keys raw) /\ In ("b", b) raw /\ malformed b = true)
  /\ In ("b", b) (config (classify raw []))
  /\ exists ss1,
       scan EXAMPLES 0 (config (classify raw [])) [("a", a)]
         (scan_start (classify raw [])) = (ss1, None)
       /\ __init__ EXAMPLES raw []
          = (after_scan (config (classify raw [])) ss1,
             Raised (ValueError_no_name "b")).
Proof.
  intros a b raw.
  assert (Hnd : NoDup (keys raw)).
  { repeat constructor; simpl; intuition discriminate. }
  assert (Hin : In ("b", b) raw) by (right; now left).
  assert (Hbad : malformed b = true) by reflexivity.
  split; [auto|].
  destruct (malformed_entry_raises_in_first_scan EXAMPLES raw [] "b" b
              Hnd Hin Hbad) as (Hcfg & _ & _ & Hat).
  split; [exact Hcfg|].
  eexists. split; [reflexivity|].
  exact (Hat [("a", a)] [] _ eq_refl eq_refl).
Defined.

(** C8 (as stated) fails: the error does not come from classification,
    and the descriptor [a] has been constructed when it is raised. *)
Lemma malformed_entry_after_construction :
  let b := VDict [("value", VStr "a")] in
  let raw := [("a", descriptor "Box" [("value_", VInt 9)]); ("b", b)] in
  malformed b = true
  /\ (exists st,
        __init__ EXAMPLES raw [] = (st, Raised (ValueError_no_name "b"))
        /\ dget "a" (experiment st) = Some (VObj "Box" [("value", VInt 9)])
        /\ dget "a" (experiment (classify raw [])) = None)
  /\ ~ surfaced_during_classification EXAMPLES raw [].
Proof.
  intros b raw. split; [reflexivity|]. split.
  - eexists. repeat split.
  - intros (st & e & Hrun & Hexp & _).
    vm_compute in Hrun. injection Hrun as <- _.
    vm_compute in Hexp. discriminate.
Qed.

(** ** The invariant of the loop *)

Section InvariantFacts.

Variable CLASSES : dict pyclass.

(** With constructors that do not raise [UnconfiguredItemsException], a
    tier that the next tier follows has ended where the condition of its
    loop is evaluated. *)
Lemma build_items_loop_state mode st st' o :
  quiet_constructors CLASSES ->
  _build_items CLASSES mode st = (st', o) ->
  tolerated o = true ->
  loop_state CLASSES mode st st'.
Proof.
  intros Hq.
  apply (build_items_rule CLASSES mode
           (loop_state CLASSES mode st)
           (fun s o => tolerated o = true -> loop_state CLASSES mode st s)).
  - auto.
  - intros s ss e _ _ Hs Ht. apply (scan_raise _ _ _ _ _ _ _ Hq) in Hs.
    simpl in Ht. destruct e; discriminate.
  - intros s ss Hl _ Hs Hc _.
    now rewrite (scan_nothing _ _ _ _ Hs Hc).
  - intros s ss Hl Hne Hs Hc. now apply loop_again.
  - constructor.
Qed.

Lemma loop_state_invariant raw mode st0 st :
  resolution_invariant raw st0 ->
  loop_state CLASSES mode st0 st ->
  resolution_invariant raw st.
Proof.
  intros H0. induction 1 as [|st ss Hl IH Hne Hs Hc]; [exact H0|].
  destruct IH as (Hd & Hn & Hne' & Hk & Hraw).
  destruct (scan_step CLASSES mode st ss Hs)
    as (Hcfg & Hkeys & Hexp & Hincl & HN & HE & HD).
  split; [auto|]. split; [auto|]. split; [auto|]. split.
  - intros x. rewrite Hk, Hkeys, Hexp.
    destruct (in_dec string_dec x (s_configured ss)) as [Hx|Hx];
      [|tauto].
    pose proof (Hincl x Hx). tauto.
  - intros x v Hx. apply Hcfg in Hx as [Hx _]. auto.
Qed.

Lemma loop_state_covered raw mode st0 st :
  pending_or_resolved raw st0 ->
  loop_state CLASSES mode st0 st ->
  pending_or_resolved raw st.
Proof.
  intros H0. induction 1 as [|st ss Hl IH Hne Hs Hc]; [exact H0|].
  destruct IH as (Hn & Hne' & Hk & Hraw).
  destruct (scan_step CLASSES mode st ss Hs)
    as (Hcfg & Hkeys & Hexp & Hincl & HN & HE & _).
  split; [auto|]. split; [auto|]. split.
  - intros x. rewrite Hk, Hkeys, Hexp.
    destruct (in_dec string_dec x (s_configured ss)) as [Hx|Hx];
      [|tauto].
    pose proof (Hincl x Hx). tauto.
  - intros x v Hx. apply Hcfg in Hx as [Hx _]. auto.
Qed.

(** Every end of a tier keeps each key resolved or pending. *)
Lemma build_items_covered raw mode st st' o :
  pending_or_resolved raw st ->
  _build_items CLASSES mode st = (st', o) ->
  pending_or_resolved raw st'.
Proof.
  intros H0.
  apply (build_items_rule CLASSES mode
           (loop_state CLASSES mode st)
           (fun s _ => pending_or_resolved raw s)).
  - intros s Hl _. exact (loop_state_covered raw mode st s H0 Hl).
  - intros s ss e Hl _ Hs.
    destruct (loop_state_covered raw mode st s H0 Hl) as (Hn & Hne & Hk & Hraw).
    destruct (scan_experiment_keys _ _ _ _ _ _ _ Hs) as [Hkeep Hadd].
    destruct (scan_start_configured _ _ _ _ _ Hs) as (_ & _ & HE).
    simpl in *. split; [exact Hn|]. split; [auto|]. split; [|exact Hraw].
    intros x. rewrite Hk. split.
    + intros [Hx|Hx]; auto.
    + intros [Hx|Hx]; [auto|]. apply Hadd in Hx. tauto.
  - intros s ss Hl _ Hs Hc. rewrite (scan_nothing _ _ _ _ Hs Hc).
    exact (loop_state_covered raw mode st s H0 Hl).
  - intros s ss Hl Hne Hs Hc. now apply loop_again.
  - constructor.
Qed.

Lemma classify_invariant raw env :
  NoDup (keys raw) -> resolution_invariant raw (classify raw env).
Proof.
  intros Hnd. split; [intros k; apply classify_disjoint|].
  split; [now apply classify_config_NoDup|].
  split; [apply classify_experiment_NoDup|].
  split; [intros k; apply classify_keys|].
  intros k v H. now apply classify_config in H as [H _].
Qed.

Lemma run_state_invariant raw env st :
  quiet_constructors CLASSES ->
  NoDup (keys raw) ->
  run_state CLASSES raw env st -> resolution_invariant raw st.
Proof.
  intros Hq Hnd H.
  pose proof (classify_invariant raw env Hnd) as H0.
  destruct H as [st Hl|st0 o0 st E0 T0 Hl|st0 o0 st1 o1 st E0 T0 E1 T1 Hl].
  - exact (loop_state_invariant raw 0 _ _ H0 Hl).
  - apply (loop_state_invariant raw 1 st0); [|exact Hl].
    apply (loop_state_invariant raw 0 (classify raw env)); [exact H0|].
    now apply build_items_loop_state with (o := o0).
  - apply (loop_state_invariant raw 2 st1); [|exact Hl].
    apply (loop_state_invariant raw 1 st0);
      [|now apply build_items_loop_state with (o := o1)].
    apply (loop_state_invariant raw 0 (classify raw env)); [exact H0|].
    now apply build_items_loop_state with (o := o0).
Qed.

Lemma run_state_covered raw env st :
  NoDup (keys raw) ->
  run_state CLASSES raw env st -> pending_or_resolved raw st.
Proof.
  intros Hnd H.
  assert (H0 : pending_or_resolved raw (classify raw env))
    by (now apply classify_invariant).
  destruct H as [st Hl|st0 o0 st E0 T0 Hl|st0 o0 st1 o1 st E0 T0 E1 T1 Hl].
  - exact (loop_state_covered raw 0 _ _ H0 Hl).
  - apply (loop_state_covered raw 1 st0); [|exact Hl].
    exact (build_items_covered raw 0 _ _ _ H0 E0).
  - apply (loop_state_covered raw 2 st1); [|exact Hl].
    apply (build_items_covered raw 1 st0 _ o1); [|exact E1].
    exact (build_items_covered raw 0 _ _ _ H0 E0).
Qed.

Lemma init_run_state raw env st o :
  quiet_constructors CLASSES ->
  __init__ CLASSES raw env = (st, o) ->
  tolerated o = true ->
  run_state CLASSES raw env st.
Proof.
  intros Hq H Ht. unfold __init__ in H.
  apply run_tiers_cases in H
      as [(st0 & o0 & st1 & o1 & E0 & T0 & E1 & T1 & E2)|[Hf _]];
    [|congruence].
  apply (in_tier_2 CLASSES raw env st0 o0 st1 o1); auto.
  now apply build_items_loop_state with (o := o).
Qed.

(** However construction ends, every key of the configuration is
    resolved or pending. *)
Lemma init_covered raw env st o :
  NoDup (keys raw) ->
  __init__ CLASSES raw env = (st, o) ->
  pending_or_resolved raw st.
Proof.
  intros Hnd H.
  assert (H0 : pending_or_resolved raw (classify raw env))
    by (now apply classify_invariant).
  unfold __init__ in H.
  apply run_tiers_cases in H
      as [(st0 & o0 & st1 & o1 & E0 & T0 & E1 & T1 & E2)
         |[Hf [E0|(st0 & o0 & E0 & T0 & E1)]]].
  - apply (build_items_covered raw 2 st1 _ o); [|exact E2].
    apply (build_items_covered raw 1 st0 _ o1); [|exact E1].
    exact (build_items_covered raw 0 _ _ _ H0 E0).
  - exact (build_items_covered raw 0 _ _ _ H0 E0).
  - apply (build_items_covered raw 1 st0 _ o); [|exact E1].
    exact (build_items_covered raw 0 _ _ _ H0 E0).
Qed.

(** A run that returns has resolved every key. *)
Lemma init_returned raw env st :
  NoDup (keys raw) ->
  __init__ CLASSES raw env = (st, Returned) ->
  config st = []
  /\ NoDup (keys (experiment st))
  /\ (forall k, In k (keys raw) <-> In k (keys (experiment st))).
Proof.
  intros Hnd H.
  destruct (init_covered raw env st Returned Hnd H) as (_ & Hne & Hk & _).
  assert (Hc : config st = []).
  { unfold __init__ in H.
    apply run_tiers_cases in H
        as [(st0 & o0 & st1 & o1 & _ & _ & _ & _ & E2)|[Hf _]];
      [|discriminate].
    now apply build_items_exits in E2. }
  split; [exact Hc|]. split; [exact Hne|].
  intros k. rewrite Hk, Hc. simpl. tauto.
Qed.

End InvariantFacts.

(** C9 (as the code has it). Whenever the condition of the loop of
    [_build_items] is evaluated, in each of the three tiers, every key of
    the configuration is resolved or pending and each pending entry is an
    entry of the configuration. In tier 0, and in every tier when no
    registered constructor raises [UnconfiguredItemsException], no key is
    then both resolved and pending, and neither when construction ends
    normally or with [UnconfiguredItemsException]. The keys of the resolved
    graph of a run that succeeds are the keys of the configuration, each
    once. *)
Theorem resolved_and_pending_disjoint (CLASSES : dict pyclass)
  (raw : dict value) (env : dict string) :
  NoDup (keys raw) ->
  (forall st, run_state CLASSES raw env st -> pending_or_resolved raw st)
  /\ (forall st,
        loop_state CLASSES 0 (classify raw env) st ->
        resolution_invariant raw st)
  /\ (quiet_constructors CLASSES ->
      (forall st, run_state CLASSES raw env st -> resolution_invariant raw st)
      /\ (forall st o,
            __init__ CLASSES raw env = (st, o) -> tolerated o = true ->
            run_state CLASSES raw env st))
  /\ (forall st,
        __init__ CLASSES raw env = (st, Returned) ->
        config st = []
        /\ Permutation (keys (experiment st)) (keys raw)).
Proof.
  intros Hnd. split; [|split; [|split]].
  - intros st. now apply run_state_covered.
  - intros st. apply loop_state_invariant. now apply classify_invariant.
  - intros Hq. split.
    + intros st. now apply run_state_invariant.
    + intros st o. now apply init_run_state.
  - intros st H.
    destruct (init_returned CLASSES raw env st Hnd H) as (Hc & Hne & Hk).
    split; [exact Hc|].
    apply NoDup_Permutation; auto.
    intros x. symmetry. apply Hk.
Qed.

(** The scenario of the specification: [a = 5] and [b = Box(value=a)]. *)
Lemma resolved_and_pending_disjoint_witness :
  let raw := [("b", descriptor "Box" [("value", VStr "a")]); ("a", VInt 5)] in
  NoDup (keys raw)
  /\ exists st,
       __init__ EXAMPLES raw [] = (st, Returned)
       /\ experiment st = [("a", VInt 5); ("b", VObj "Box" [("value", VInt 5)])]
       /\ resolution_invariant raw st
       /\ Permutation (keys (experiment st)) (keys raw).
Proof.
  intros raw.
  assert (Hnd : NoDup (keys raw)).
  { repeat constructor; simpl; intuition discriminate. }
  split; [exact Hnd|].
  destruct (resolved_and_pending_disjoint EXAMPLES raw [] Hnd)
    as (_ & _ & Hquiet & Hfinal).
  destruct (Hquiet EXAMPLES_quiet) as [Hinv Hrun].
  eexists. split; [reflexivity|]. split; [reflexivity|].
  split.
  - apply Hinv. apply (Hrun _ Returned); reflexivity.
  - apply Hfinal. reflexivity.
Defined.

(** C9 (as stated) fails inside a scan: a key that a visit has
    constructed stays in [config] until the scan is over. *)
Lemma constructed_key_still_pending :
  let raw := [("a", descriptor "Box" [("value_", VInt 9)]);
              ("b", descriptor "Box" [("value", VStr "a")])] in
  exists st',
    scan_point EXAMPLES 0 (classify raw []) st'
    /\ In "a" (keys (config st'))
    /\ In "a" (keys (experiment st'))
    /\ ~ disjoint_keys st'.
Proof.
  intros raw.
  exists (after_scan (config (classify raw []))
            {| s_experiment := [("a", VObj "Box" [("value", VInt 9)])];
               s_factories :=
                 [("a", PluginFactory "Box" (Some [("value", None)]) []
                          [("value", VInt 9)])];
               s_configured := ["a"];
               s_unconfigured := [] |}).
  split.
  - exists [("a", descriptor "Box" [("value_", VInt 9)])],
           [("b", descriptor "Box" [("value", VStr "a")])].
    eexists. repeat split.
  - simpl. split; [auto|]. split; [auto|].
    intros H. apply (H "a"); simpl; auto.
Qed.

(** The exception of a constructor that ends a scan of tier 0 is
    tolerated: the loop of tier 1 starts with the key [a], constructed in
    that scan, both resolved and pending. *)
Example constructor_exception_keeps_key_pending :
  let raw := [("a", descriptor "Box" [("value_", VInt 9)]);
              ("s", descriptor "Sub" [])] in
  exists st0,
    _build_items FAULTY 0 (classify raw [])
    = (st0, Raised (UnconfiguredItemsException [("x", ["y"])]))
    /\ run_state FAULTY raw [] st0
    /\ In "a" (keys (config st0))
    /\ In "a" (keys (experiment st0)).
Proof.
  intros raw. eexists. split; [reflexivity|]. split.
  - eapply in_tier_1; [reflexivity | reflexivity | constructor].
  - simpl. auto.
Qed.

(** ** The caller's mapping *)

Lemma heap_store_last (h : heap) (d d' : dict value) (rest : heap) :
  heap_store (h ++ d :: rest) (length h) d' = h ++ d' :: rest.
Proof.
  induction h as [|x h IH]; simpl; [reflexivity | now rewrite IH].
Qed.



(** C4 (as stated) fails: a visit that raises ends [_build_items] with
    entries pending and with an exception that is not
    [UnconfiguredItemsException]. *)
Lemma build_items_other_exit :
  let st := {| config := [("k", descriptor "Nope" [])];
               experiment := [];
               factories := [] |} in
  _build_items EXAMPLES 0 st
  = (st, Raised (ValueError_not_registered "k" (VStr "Nope")))
  /\ config st <> []
  /\ is_unconfigured (ValueError_not_registered "k" (VStr "Nope")) = false.
Proof.
  intros st. split; [reflexivity|]. split; [discriminate | reflexivity].
Qed.

(** ** Resolution of a configuration with supplied parameters *)

Lemma collect_alias_strings names exp :
forallb is_str names = true -> exists l, collect_alias names exp = Ok l.
Proof.
induction names as [|p names IH]; simpl; [eauto|].
destruct p; try discriminate. simpl. intros H.
destruct (dget s exp); [|eauto].
destruct (IH H) as [l ->]. simpl. eauto.
Qed.

Lemma forallb_is_str_map names : forallb is_str (map VStr names) = true.
Proof. induction names; simpl; auto. Qed.

Lemma In_named_params d arg alias :
dget arg (named_params d) = Some alias -> In (arg, alias) d.
Proof.
intros H. apply dget_Some_In in H. unfold named_params in H.
now apply filter_In in H as [H _].
Qed.

Lemma self_binding_stored mode cfg exp lit named defaults arg :
self_binding arg <> None ->
stored_value mode cfg exp lit named defaults arg <> None.
Proof.
intros Hs. unfold stored_value.
destruct (dget arg lit); [discriminate|].
destruct (dget arg named) as [alias|].
- destruct alias; try exact Hs.
  + now destruct (dget s exp).
  + destruct (collect_alias l exp); [|exact Hs].
    now destruct (length a =? length l)%nat.
- destruct (dget arg exp); [discriminate|].
  destruct (dget arg defaults); [|exact Hs].
  now destruct (default_applies mode cfg arg).
Qed.

Lemma all_resolved_values names (exp : dict value) :
Forall (fun s => In s (keys exp)) names ->
exists vs, Forall2 (fun s x => dget s exp = Some x) names vs.
Proof.
induction 1 as [|s names Hs _ [vs IH]]; [exists []; constructor|].
destruct (dget s exp) as [x|] eqn:E.
- exists (x :: vs). now constructor.
- apply dget_None_iff in E. contradiction.
Qed.

(** The keywords of a constructor without a parameter named like one of
    [PluginFactory.__init__] do not clash with them. *)
Lemma fill_args_no_clash mode cfg exp lit named defaults args f :
(forall a, In a args -> ~ In a factory_parameters) ->
fill_args mode cfg exp lit named defaults args empty_fill = Ok f ->
clashes (params f) = false.
Proof.
intros Hno Hf. unfold clashes.
destruct (existsb _ factory_parameters) eqn:E; [|reflexivity].
apply existsb_exists in E as (p & Hp & Hm). exfalso.
destruct (in_dec string_dec p args) as [Hin|Hin].
- exact (Hno p Hin Hp).
- unfold dmem in Hm.
  now rewrite (fill_args_dget_notin _ _ _ _ _ _ _ _ _ Hin Hf) in Hm.
Qed.

Section Resolvable.

Variable CLASSES : dict pyclass.
Variable raw : dict value.
Variable rank : string -> nat.

(** The loop over the arguments of a resolvable entry does not raise. *)
Lemma fill_arg_no_raise mode cfg exp k d c lit f arg :
forallb valid_param d = true ->
literal_params d = Ok lit ->
arg_supplied raw rank k d c arg ->
exists f',
  fill_arg mode cfg exp lit (named_params d) (default_params c) f arg = Ok f'.
Proof.
intros Hvalid Hl Hsup. unfold fill_arg.
destruct (dget arg lit) as [lv|] eqn:El; [eauto|].
destruct (dget arg (named_params d)) as [alias|] eqn:En.
- assert (Hshape : (exists s, alias = VStr s)
                   \/ exists l, alias = VList l /\ forallb is_str l = true).
  { destruct Hsup as [Hlit|[Hres|[(s & Hs & _)|[(names & Hs & _)|[Hs _]]]]].
    - exfalso. apply (literal_params_keys d lit arg Hl) in Hlit. congruence.
    - subst arg. apply In_named_params in En.
      rewrite forallb_forall in Hvalid. specialize (Hvalid _ En).
      unfold valid_param in Hvalid. simpl in Hvalid.
      destruct alias; try discriminate; eauto.
    - rewrite En in Hs. injection Hs as ->. eauto.
    - rewrite En in Hs. injection Hs as ->. right.
      eexists. split; [reflexivity | apply forallb_is_str_map].
    - congruence. }
  destruct Hshape as [[s ->]|(l & -> & Hstr)]; [eauto|].
  destruct (collect_alias_strings l exp Hstr) as [pl ->]. simpl. eauto.
- destruct (dget arg exp); [eauto|].
  destruct (dget arg (default_params c)); [|eauto].
  destruct ((mode =? 1)%Z && negb (dmem arg cfg)); [eauto|].
  destruct (mode =? 2)%Z; eauto.
Qed.

Lemma fill_args_no_raise mode cfg exp k d c lit args f :
forallb valid_param d = true ->
literal_params d = Ok lit ->
(forall arg, In arg args -> arg_supplied raw rank k d c arg) ->
exists f',
  fill_args mode cfg exp lit (named_params d) (default_params c) args f
  = Ok f'.
Proof.
intros Hvalid Hl. revert f.
induction args as [|a args IH]; intros f Hsup; simpl; [eauto|].
destruct (fill_arg_no_raise mode cfg exp k d c lit f a Hvalid Hl)
  as [f1 ->]; [apply Hsup; now left|].
simpl. apply IH. intros arg Hin. apply Hsup. now right.
Qed.

(** The visit of a resolvable entry does not raise. *)
Lemma visit_no_raise mode cfg exp k v :
resolvable_entry CLASSES raw rank k v ->
(exists obj fac, build_one CLASSES mode cfg exp k v = Ok (Constructed obj fac))
\/ (exists missing, build_one CLASSES mode cfg exp k v = Ok (Unconfigured missing)).
Proof.
intros (d & n & c & -> & Hn & Hc & Hvalid & _ & _ & Hinit & Hnoclash & Hsup).
assert (H : exists r,
          build_one CLASSES mode cfg exp k (VDict d) = Ok r
          /\ forall obj e, r <> Assigned obj e).
{ unfold build_one. rewrite Hn. simpl. rewrite Hc.
  destruct (literal_params_from_valid d [] Hvalid) as [lit Hl].
  unfold literal_params at 1. rewrite Hl. simpl.
  destruct (fill_args_no_raise mode cfg exp k d c lit (tl (cargs c))
              empty_fill Hvalid Hl Hsup) as [f Hf].
  rewrite Hf. simpl.
  destruct (_ =? _)%Z; [|eexists; split; [reflexivity | discriminate]].
  destruct (Hinit (params f)) as [obj ->].
  unfold new_plugin_factory.
  rewrite (fill_args_no_clash _ _ _ _ _ _ _ _ Hnoclash Hf).
  eexists. split; [reflexivity | discriminate]. }
destruct H as ([obj fac|obj e|missing] & Hr & Hno); [left; eauto| |right; eauto].
exfalso. now apply (Hno obj e).
Qed.

(** In tier 2 the visit of a resolvable entry constructs it once the
    keys supplied before it are resolved. *)
Lemma visit_ready cfg exp k v :
resolvable_entry CLASSES raw rank k v ->
(forall s, supplied_before raw rank k s -> In s (keys exp)) ->
exists obj fac, build_one CLASSES 2 cfg exp k v = Ok (Constructed obj fac).
Proof.
intros Hres Hexp.
destruct (visit_no_raise 2 cfg exp k v Hres) as [Hb|[missing Hb]];
  [exact Hb|].
destruct Hres as (d & n & c & -> & Hn & Hc & Hvalid & Hargs & Hnd & _ & _ & Hsup).
destruct (build_one_ok _ _ _ _ _ _ _ Hb)
  as (d' & n' & c' & lit & f & [= <-] & Hn' & Hc' & Hl & Hf & Hr).
rewrite Hn in Hn'. injection Hn' as <-.
rewrite Hc in Hc'. injection Hc' as <-.
destruct Hr as [(obj & ? & _)|[[_ Hlen]|(obj & ? & _)]];
  [discriminate| |discriminate].
exfalso. apply Hlen.
destruct (cargs c) as [|self rest]; [congruence|]. simpl in *. f_equal.
apply (fill_args_length _ _ _ _ _ _ _ _ Hnd Hf).
intros a Ha.
destruct (dget a lit) as [lv|] eqn:El;
  [unfold stored_value; rewrite El; discriminate|].
destruct (String.eqb_spec a reserved) as [Hra|Hra].
{ apply self_binding_stored. unfold self_binding.
  subst a. now rewrite String.eqb_refl. }
destruct (Hsup a Ha) as [Hlit|[Hres|[(s & Hs & Hb')|[(names & Hs & Hb')|[Hs Hb']]]]].
- apply (literal_params_keys d lit a Hl) in Hlit. congruence.
- contradiction.
- unfold stored_value. rewrite El, Hs.
  apply Hexp, dmem_true_iff in Hb'. unfold dmem in Hb'.
  destruct (dget s exp); [discriminate | discriminate].
- destruct (all_resolved_values names exp) as [vs Hvs].
  { eapply Forall_impl; [|exact Hb']. exact Hexp. }
  destruct (stored_list_alias 2 cfg exp lit (named_params d)
              (default_params c) a names El Hra Hs) as [Hall _].
  rewrite (Hall vs Hvs). discriminate.
- unfold stored_value. rewrite El, Hs.
  destruct (dget a exp) as [x|] eqn:Ee; [discriminate|].
  destruct Hb' as [Hb'|Hb'].
  + apply Hexp, dget_None_iff in Hb'; [contradiction | exact Ee].
  + unfold dmem in Hb'.
    destruct (dget a (default_params c)); [|discriminate].
    destruct (default_applies_tiers cfg a) as (_ & _ & ->). discriminate.
Qed.

Lemma scan_no_raise mode cfg items ss ss' err :
(forall k v, In (k, v) items -> resolvable_entry CLASSES raw rank k v) ->
scan CLASSES mode cfg items ss = (ss', err) -> err = None.
Proof.
revert ss. induction items as [|[k v] items IH]; intros ss Hres; simpl.
- now intros [= _ <-].
- destruct (visit_no_raise mode cfg (s_experiment ss) k v)
    as [(obj & fac & ->)|(missing & ->)];
    [apply Hres; now left| |];
    apply IH; intros k' v' Hin; apply Hres; now right.
Qed.

(** A pending entry of least rank. *)
Lemma least_rank (items : dict value) :
items <> [] ->
exists k v,
  In (k, v) items /\ forall k' v', In (k', v') items -> rank k <= rank k'.
Proof.
induction items as [|[k v] items IH]; [congruence|]. intros _.
destruct items as [|kv items].
- exists k, v. split; [now left|].
  intros k' v' [[= <- <-]|[]]. lia.
- destruct IH as (k0 & v0 & Hin & Hmin); [discriminate|].
  destruct (Nat.le_gt_cases (rank k) (rank k0)) as [Hle|Hgt].
  + exists k, v. split; [now left|].
    intros k' v' [[= <- <-]|Hin']; [lia|].
    specialize (Hmin k' v' Hin'). lia.
  + exists k0, v0. split; [now right|].
    intros k' v' [[= <- <-]|Hin']; [lia|]. now apply (Hmin k' v').
Qed.

Local Abbreviation resolving := (resolving CLASSES raw rank).

Hypothesis Hkeys : NoDup (keys raw).
Hypothesis Hentries :
  forall k v,
    In (k, v) raw -> is_simple v = false ->
    resolvable_entry CLASSES raw rank k v.

Lemma resolving_classify env : resolving (classify raw env).
Proof.
split; [now apply classify_invariant|].
intros k v Hin. apply classify_config in Hin as [Hin Hs]; auto.
Qed.

Lemma loop_state_pending mode st0 st k v :
loop_state CLASSES mode st0 st -> In (k, v) (config st) -> In (k, v) (config st0).
Proof.
induction 1 as [|st ss Hl IH Hne Hs Hc]; [auto|].
intros Hin.
destruct (scan_step CLASSES mode st ss Hs) as (Hcfg & _).
apply Hcfg in Hin as [Hin _]. auto.
Qed.

Lemma resolving_loop_state mode st0 st :
resolving st0 -> loop_state CLASSES mode st0 st -> resolving st.
Proof.
intros [Hinv Hres] Hl. split.
- exact (loop_state_invariant CLASSES raw mode st0 st Hinv Hl).
- intros k v Hin. apply Hres.
  exact (loop_state_pending mode st0 st k v Hl Hin).
Qed.

(** In a state of the resolution, the keys supplied before a pending entry
    of least rank are resolved. *)
Lemma least_rank_supplied st k v s :
resolving st ->
In (k, v) (config st) ->
(forall k' v', In (k', v') (config st) -> rank k <= rank k') ->
supplied_before raw rank k s -> In s (keys (experiment st)).
Proof.
intros [(Hdis & Hnc & Hne & Hall & Hsub) Hres] Hin Hmin (v' & Hraw & Hs).
assert (Hk : In s (keys raw)) by (now apply In_value_keys in Hraw).
apply Hall in Hk as [Hc|He]; [|exact He].
exfalso. apply In_keys_value in Hc as [v'' Hc].
pose proof (Hsub _ _ Hc) as Hraw'.
rewrite (NoDup_keys_same raw s v' v'' Hkeys Hraw Hraw') in Hs.
destruct Hs as [Hs|Hs].
- destruct (Hres _ _ Hc) as (d & n & c & -> & _). discriminate.
- specialize (Hmin _ _ Hc). lia.
Qed.

(** Tiers 0 and 1 end without an exception of their own. *)
Lemma tier_keeps_resolving mode st st' o :
resolving st ->
_build_items CLASSES mode st = (st', o) ->
resolving st' /\ tolerated o = true.
Proof.
intros Hres.
apply (build_items_rule CLASSES mode
         (loop_state CLASSES mode st)
         (fun s o => resolving s /\ tolerated o = true)).
- intros s Hl _. split; [|reflexivity].
  now apply (resolving_loop_state mode st).
- intros s ss e Hl _ Hs. exfalso.
  destruct (resolving_loop_state mode st s Hres Hl) as [_ Hr].
  apply (scan_no_raise mode _ _ _ _ _ Hr) in Hs. discriminate.
- intros s ss Hl _ Hs Hc. rewrite (scan_nothing _ _ _ _ Hs Hc).
  split; [|reflexivity]. now apply (resolving_loop_state mode st).
- intros s ss Hl Hne Hs Hc. now apply loop_again.
- constructor.
Qed.

(** Tier 2 resolves every entry. *)
Lemma tier_2_resolves st st' o :
resolving st ->
_build_items CLASSES 2 st = (st', o) ->
resolving st' /\ o = Returned /\ config st' = [].
Proof.
intros Hres.
apply (build_items_rule CLASSES 2
         (loop_state CLASSES 2 st)
         (fun s o => resolving s /\ o = Returned /\ config s = [])).
- intros s Hl Hc. split; [|auto].
  now apply (resolving_loop_state 2 st).
- intros s ss e Hl _ Hs. exfalso.
  destruct (resolving_loop_state 2 st s Hres Hl) as [_ Hr].
  apply (scan_no_raise 2 _ _ _ _ _ Hr) in Hs. discriminate.
- intros s ss Hl Hne Hs Hc. exfalso.
  pose proof (resolving_loop_state 2 st s Hres Hl) as Hrs.
  destruct (least_rank (config s) Hne) as (k & v & Hin & Hmin).
  destruct (scan_stuck CLASSES 2 (config s) (config s) (scan_start s) ss Hs Hc)
    as (Hall & _).
  destruct (Hall k v Hin) as (missing & Hb & _). simpl in Hb.
  destruct (visit_ready (config s) (experiment s) k v) as (obj & fac & Hb').
  + destruct Hrs as [_ Hr]. now apply Hr.
  + intros x Hx. now apply (least_rank_supplied s k v x).
  + congruence.
- intros s ss Hl Hne Hs Hc. now apply loop_again.
- constructor.
Qed.

Lemma init_resolves env :
exists st,
  __init__ CLASSES raw env = (st, Returned)
  /\ config st = []
  /\ Permutation (keys (experiment st)) (keys raw).
Proof.
unfold __init__, run_tiers.
destruct (_build_items CLASSES 0 (classify raw env)) as [st0 o0] eqn:E0.
destruct (tier_keeps_resolving 0 _ _ _ (resolving_classify env) E0)
  as [H0 ->].
destruct (_build_items CLASSES 1 st0) as [st1 o1] eqn:E1.
destruct (tier_keeps_resolving 1 _ _ _ H0 E1) as [H1 ->].
destruct (_build_items CLASSES 2 st1) as [st2 o2] eqn:E2.
destruct (tier_2_resolves _ _ _ H1 E2)
  as ([(_ & _ & Hne & Hall & _) _] & -> & Hc).
exists st2. split; [reflexivity|]. split; [exact Hc|].
apply NoDup_Permutation; auto.
intros x. rewrite Hall, Hc. simpl. tauto.
Qed.

End Resolvable.

Lemma well_founded_config_perm CLASSES raw raw' :
Permutation raw raw' ->
well_founded_config CLASSES raw -> well_founded_config CLASSES raw'.
Proof.
intros Hp [Hnd [rank Hres]].
assert (Hin : forall kv, In kv raw' <-> In kv raw).
{ intros kv. split; apply Permutation_in; [now symmetry | exact Hp]. }
split.
- eapply Permutation_NoDup; [|exact Hnd]. unfold keys.
  now apply Permutation_map.
- exists rank. intros k v Hk Hs. apply Hin in Hk.
  destruct (Hres k v Hk Hs)
    as (d & n & c & Hv & Hn & Hc & Hvalid & Hargs & Hnda & Hinit & Hclash
        & Hsup).
  exists d, n, c. repeat split; auto.
  intros arg Ha.
  assert (Hb : forall s, supplied_before raw rank k s ->
                         supplied_before raw' rank k s).
  { intros s (v' & Hv' & Hr). exists v'. split; [now apply Hin | exact Hr]. }
  destruct (Hsup arg Ha)
    as [H|[H|[(s & Hs' & Hb')|[(names & Hs' & Hb')|[Hs' [Hb'|Hb']]]]]];
    unfold arg_supplied; eauto 8.
  right. right. right. left. exists names. split; [exact Hs'|].
  eapply Forall_impl; [|exact Hb']. exact Hb.
Qed.




(** The keys that are resolved do not depend on the order of declaration;
    the values can. [p] and [b] each have a default for a parameter named
    like the other: in tier 2 the entry that is visited first takes its
    default, the other one takes the entry just constructed. *)
Example order_changes_values :
  let p := descriptor "Pair" [("a_", VInt 1)] in
  let b := descriptor "Model" [("layers_", VInt 2)] in
  (exists st,
      __init__ EXAMPLES [("p", p); ("b", b)] [] = (st, Returned)
      /\ dget "p" (experiment st)
         = Some (VObj "Pair" [("a", VInt 1); ("b", VInt 0)]))
  /\ (exists st,
        __init__ EXAMPLES [("b", b); ("p", p)] [] = (st, Returned)
        /\ dget "p" (experiment st)
           = Some (VObj "Pair"
                     [("a", VInt 1);
                      ("b", VObj "Model" [("layers", VInt 2); ("p", VInt 7)])])).
Proof.
split; eexists; split; reflexivity.
Qed.

(** A constructor with a parameter named [cls]: the instance is made and
    stored, the call that makes its factory raises [TypeError], and
    construction ends with the key resolved, still pending and without a
    factory. *)
Example factory_keyword_clash :
  let raw := [("w", descriptor "Wrap" [("cls_", VInt 1)])] in
  exists st,
    __init__ FAULTY raw [] = (st, Raised (TypeError_multiple_values "w"))
    /\ dget "w" (experiment st) = Some (VObj "Wrap" [("cls", VInt 1)])
    /\ dget "w" (factories st) = None
    /\ keys (config st) = ["w"].
Proof.
intros raw. eexists. repeat split.
Qed.

(** * Further properties of the code *)

(** ** The registry *)

(** X1. Registration under a name that is not registered puts the class
    last in the registry, where a lookup of the name finds it, and leaves
    every other lookup as it was; from then on a registration under that
    name raises, whatever the class. *)
Theorem register_plugin_lookup (CLASSES : dict pyclass) (name : string)
  (clazz : pyclass) :
  dmem name CLASSES = false ->
  register_plugin CLASSES name clazz = Registered (dset name clazz CLASSES)
  /\ dget name (dset name clazz CLASSES) = Some clazz
  /\ (forall n, n <> name -> dget n (dset name clazz CLASSES) = dget n CLASSES)
  /\ keys (dset name clazz CLASSES) = keys CLASSES ++ [name]
  /\ (NoDup (keys CLASSES) -> NoDup (keys (dset name clazz CLASSES)))
  /\ (forall other,
        register_plugin (dset name clazz CLASSES) name other
        = AlreadyRegistered name).
Proof.
intros Hnew. unfold register_plugin. rewrite Hnew.
split; [reflexivity|]. split; [apply dget_dset_eq|].
split; [intros n Hn; apply dget_dset_neq; congruence|].
split; [apply keys_dset_new; now apply dmem_false_iff|].
split; [apply NoDup_keys_dset|].
intros other. now rewrite dmem_dset, String.eqb_refl.
Qed.

Lemma register_plugin_lookup_witness :
  let c := make_class "Linear" ["size"] [] in
  dmem "Linear" EXAMPLES = false
  /\ dget "Linear" (dset "Linear" c EXAMPLES) = Some c
  /\ dget "Box" (dset "Linear" c EXAMPLES) = dget "Box" EXAMPLES
  /\ register_plugin (dset "Linear" c EXAMPLES) "Linear" c
     = AlreadyRegistered "Linear".
Proof.
intros c.
assert (Hnew : dmem "Linear" EXAMPLES = false) by reflexivity.
destruct (register_plugin_lookup EXAMPLES "Linear" c Hnew)
  as (_ & Hget & Hother & _ & _ & Hagain).
split; [exact Hnew|]. split; [exact Hget|].
split; [apply Hother; discriminate | apply Hagain].
Defined.

Section RegistryFacts.

Variables C1 C2 : dict pyclass.

(** The two registries hold the same class, or none, under the name of
    the class of [v]. *)
Local Abbreviation agree v :=
  (forall n, class_name v = Some (VStr n) -> dget n C1 = dget n C2).

Lemma build_one_registry mode cfg exp k v :
agree v ->
build_one C1 mode cfg exp k v = build_one C2 mode cfg exp k v.
Proof.
unfold build_one. intros H.
destruct v; try reflexivity. simpl in H.
destruct (dget "_name" d) as [name|]; [|reflexivity].
destruct name; try reflexivity.
simpl. now rewrite (H s eq_refl).
Qed.

Lemma scan_registry mode cfg items ss :
(forall k v, In (k, v) items -> agree v) ->
scan C1 mode cfg items ss = scan C2 mode cfg items ss.
Proof.
revert ss. induction items as [|[k v] items IH]; intros ss H; simpl.
- reflexivity.
- rewrite (build_one_registry mode cfg (s_experiment ss) k v)
    by (apply (H k v); now left).
  destruct (build_one C2 mode cfg (s_experiment ss) k v)
    as [[obj fac|obj e|m]|e];
    try reflexivity; apply IH; intros k' v' Hin; apply (H k' v'); now right.
Qed.

Lemma build_loop_registry fuel mode st :
(forall k v, In (k, v) (config st) -> agree v) ->
build_loop C1 fuel mode st = build_loop C2 fuel mode st.
Proof.
revert st. induction fuel as [|fuel IH]; intros st H; simpl.
- reflexivity.
- destruct (config st) as [|kv cfg] eqn:Ecfg; [reflexivity|].
  rewrite <- Ecfg in *. rewrite (scan_registry mode _ _ _ H).
  destruct (scan C2 mode (config st) (config st) (scan_start st))
    as [ss [e|]]; [reflexivity|].
  destruct (s_configured ss) as [|c cs] eqn:Ec; [reflexivity|].
  rewrite <- Ec. apply IH. simpl.
  intros k v Hin. apply In_ddel_all in Hin as [Hin _]. eauto.
Qed.

End RegistryFacts.

(** What is pending when [_build_items] is left was pending before. *)
Lemma build_items_pending CLASSES mode st st' o :
_build_items CLASSES mode st = (st', o) ->
forall k v, In (k, v) (config st') -> In (k, v) (config st).
Proof.
apply (build_items_rule CLASSES mode
         (fun s => forall k v, In (k, v) (config s) -> In (k, v) (config st))
         (fun s _ => forall k v, In (k, v) (config s) -> In (k, v) (config st)));
  auto.
intros s ss H _ _ _ k v Hin. simpl in Hin.
apply In_ddel_all in Hin as [Hin _]. auto.
Qed.

Lemma classify_pending raw env k v :
In (k, v) (config (classify raw env)) -> In (k, v) raw.
Proof.
unfold classify. simpl. intros H. now apply In_ddel_all in H as [H _].
Qed.

(** X2. A class registered under a name that no entry of a configuration
    gives as its [_name] changes nothing in the construction from that
    configuration: the resolved values, what is left pending and the
    outcome are the same. *)
Theorem register_plugin_frame (CLASSES : dict pyclass) (name : string)
  (clazz : pyclass) (raw : dict value) (env : dict string) :
  dmem name CLASSES = false ->
  (forall k v, In (k, v) raw -> class_name v <> Some (VStr name)) ->
  register_plugin CLASSES name clazz = Registered (dset name clazz CLASSES)
  /\ __init__ (dset name clazz CLASSES) raw env = __init__ CLASSES raw env.
Proof.
intros Hnew Hunused.
split; [unfold register_plugin; now rewrite Hnew|].
assert (Hagree : forall st,
          (forall k v, In (k, v) (config st) -> In (k, v) raw) ->
          forall mode,
            _build_items (dset name clazz CLASSES) mode st
            = _build_items CLASSES mode st).
{ intros st Hsub mode. unfold _build_items. apply build_loop_registry.
  intros k v Hin n Hn. apply dget_dset_neq. intros <-.
  exact (Hunused k v (Hsub k v Hin) Hn). }
unfold __init__, run_tiers.
pose proof (classify_pending raw env) as H0.
rewrite (Hagree _ H0).
destruct (_build_items CLASSES 0 (classify raw env)) as [st0 o0] eqn:E0.
destruct (tolerated o0); [|reflexivity].
assert (H1 : forall k v, In (k, v) (config st0) -> In (k, v) raw).
{ intros k v Hin. apply H0. exact (build_items_pending _ _ _ _ _ E0 k v Hin). }
rewrite (Hagree _ H1).
destruct (_build_items CLASSES 1 st0) as [st1 o1] eqn:E1.
destruct (tolerated o1); [|reflexivity].
apply Hagree.
intros k v Hin. apply H1. exact (build_items_pending _ _ _ _ _ E1 k v Hin).
Qed.

Lemma register_plugin_frame_witness :
  let c := make_class "Linear" ["size"] [] in
  let raw := [("a", VInt 5); ("b", descriptor "Box" [("value", VStr "a")])] in
  (dmem "Linear" EXAMPLES = false
   /\ forall k v, In (k, v) raw -> class_name v <> Some (VStr "Linear"))
  /\ __init__ (dset "Linear" c EXAMPLES) raw [] = __init__ EXAMPLES raw [].
Proof.
intros c raw.
assert (Hnew : dmem "Linear" EXAMPLES = false) by reflexivity.
assert (Hun : forall k v, In (k, v) raw -> class_name v <> Some (VStr "Linear")).
{ intros k v [[= <- <-]|[[= <- <-]|[]]]; discriminate. }
split; [now split|].
exact (proj2 (register_plugin_frame EXAMPLES "Linear" c raw [] Hnew Hun)).
Defined.

(** ** The checks of a visit *)

Lemma check_error_every_visit (CLASSES : dict pyclass) (mode : Z)
  (cfg exp : dict value) (k : string) (v : value) (e : exn) :
  build_one CLASSES mode cfg exp k v = Raise e ->
  check_error e = true ->
  forall mode' cfg' exp', build_one CLASSES mode' cfg' exp' k v = Raise e.
Proof.
unfold build_one. intros H He mode' cfg' exp'.
destruct v; try exact H.
destruct (dget "_name" d) as [name|]; [|exact H].
destruct name; simpl in *; try exact H.
destruct (dget s CLASSES) as [c|]; [|exact H].
destruct (literal_params d) as [lit|e']; simpl in *; [|exact H].
exfalso.
destruct (fill_args mode cfg exp lit _ _ _ _) as [f|e'] eqn:Ef; simpl in H.
- destruct (_ =? _)%Z; [|discriminate].
  destruct (cinit c (params f)).
  + unfold new_plugin_factory in H. destruct (clashes (params f)); discriminate.
  + injection H as <-. discriminate.
  + injection H as <-. discriminate.
- injection H as <-. apply fill_args_raise in Ef. subst. discriminate.
Qed.

(** X3. The [ValueError]s and the [IndexError] of a visit come from checks
    on the entry alone: an entry whose visit raises one of them raises it
    in every tier, whatever is pending and whatever is resolved. *)
Theorem visit_checks_independent (CLASSES : dict pyclass) (mode : Z)
  (cfg exp : dict value) (k : string) (v : value) (e : exn) :
  build_one CLASSES mode cfg exp k v = Raise e ->
  check_error e = true ->
  forall mode' cfg' exp', build_one CLASSES mode' cfg' exp' k v = Raise e.
Proof.
intros H He mode' cfg' exp'.
now apply (check_error_every_visit CLASSES mode cfg exp).
Qed.

Lemma visit_checks_independent_witness :
  let v := descriptor "Nope" [("value", VStr "a")] in
  (build_one EXAMPLES 0 [] [] "k" v
   = Raise (ValueError_not_registered "k" (VStr "Nope"))
   /\ check_error (ValueError_not_registered "k" (VStr "Nope")) = true)
  /\ build_one EXAMPLES 2 [("k", v)] [("a", VInt 1)] "k" v
     = Raise (ValueError_not_registered "k" (VStr "Nope")).
Proof.
intros v.
assert (H : build_one EXAMPLES 0 [] [] "k" v
            = Raise (ValueError_not_registered "k" (VStr "Nope")))
  by reflexivity.
split; [now split|].
exact (visit_checks_independent EXAMPLES 0 [] [] "k" v _ H eq_refl
         2%Z [("k", v)] [("a", VInt 1)]).
Defined.

(** X4. A configuration with an entry that is no scalar and no list of
    scalars and that fails a check of the visit (a descriptor of a class
    that is not registered, a parameter value that is neither a string
    nor a list of strings, an empty parameter name) is never resolved:
    construction raises with the entry pending, with the exception of
    that check when the visits of the entries before it in the first scan
    of tier 0 go through, and in that scan in any case when no registered
    constructor raises [UnconfiguredItemsException]. *)
Theorem failed_check_ends_construction (CLASSES : dict pyclass)
  (raw : dict value) (env : dict string) (k : string) (v : value) (e : exn) :
  NoDup (keys raw) -> In (k, v) raw -> is_simple v = false ->
  build_one CLASSES 0 [] [] k v = Raise e -> check_error e = true ->
  (exists st e',
      __init__ CLASSES raw env = (st, Raised e')
      /\ In (k, v) (config st))
  /\ (forall pre post ss1,
        config (classify raw env) = pre ++ (k, v) :: post ->
        scan CLASSES 0 (config (classify raw env)) pre
          (scan_start (classify raw env)) = (ss1, None) ->
        __init__ CLASSES raw env
        = (after_scan (config (classify raw env)) ss1, Raised e))
  /\ (quiet_constructors CLASSES ->
      exists ss e',
        scan CLASSES 0 (config (classify raw env)) (config (classify raw env))
          (scan_start (classify raw env)) = (ss, Some e')
        /\ is_unconfigured e' = false
        /\ __init__ CLASSES raw env
           = (after_scan (config (classify raw env)) ss, Raised e')).
Proof.
intros Hnd Hin Hs Hb He.
pose proof (check_error_every_visit CLASSES 0 [] [] k v e Hb He) as Hall.
assert (Hcfg : In (k, v) (config (classify raw env)))
  by (apply classify_config; auto).
assert (Hne : config (classify raw env) <> []).
{ intros E. rewrite E in Hcfg. destruct Hcfg. }
assert (Hfatal : is_unconfigured e = false)
  by (destruct e; try reflexivity; discriminate).
assert (Hvisit : forall mode cfg exp, exists e0,
          build_one CLASSES mode cfg exp k v = Raise e0).
{ intros mode cfg exp. exists e. apply Hall. }
split; [|split].
- destruct (run_tiers_blocked CLASSES (classify raw env) k v Hcfg Hvisit)
    as (st & e' & Hrun & Hsame).
  exists st, e'. split; [exact Hrun | now rewrite Hsame].
- intros pre post ss1 Hsplit Hpre.
  unfold __init__. apply run_tiers_fatal; [|exact Hfatal].
  apply build_items_raise; [exact Hne|].
  rewrite Hsplit at 2.
  rewrite (scan_app CLASSES 0 _ pre _ _ ss1 Hpre). simpl.
  now rewrite Hall.
- intros Hq.
  destruct (build_items_blocked CLASSES 0 (classify raw env) k v Hcfg
              (Hvisit 0%Z _)) as (ss & e' & Hscan & Hrun).
  exists ss, e'. split; [exact Hscan|].
  pose proof (scan_raise _ _ _ _ _ _ _ Hq Hscan) as He'. split; [exact He'|].
  unfold __init__. now apply run_tiers_fatal.
Qed.

(** The scenario of a type that is not registered, behind a scalar and a
    descriptor that is ready. *)
Lemma failed_check_ends_construction_witness :
  let bad := descriptor "Nope" [] in
  let a := descriptor "Box" [("value", VStr "x")] in
  let raw := [("x", VInt 1); ("a", a); ("k", bad)] in
  (NoDup (keys raw) /\ In ("k", bad) raw /\ is_simple bad = false)
  /\ exists st,
       __init__ EXAMPLES raw []
       = (st, Raised (ValueError_not_registered "k" (VStr "Nope")))
       /\ keys (config st) = ["a"; "k"].
Proof.
intros bad a raw.
assert (Hnd : NoDup (keys raw)).
{ repeat constructor; simpl; intuition discriminate. }
assert (Hin : In ("k", bad) raw) by (right; right; now left).
split; [auto|].
destruct (failed_check_ends_construction EXAMPLES raw [] "k" bad
            (ValueError_not_registered "k" (VStr "Nope")) Hnd Hin
            eq_refl eq_refl eq_refl) as (_ & Hat & _).
eexists. split.
- exact (Hat [("a", a)] [] _ eq_refl eq_refl).
- reflexivity.
Defined.

(** ** What construction adds to [experiment] *)

Lemma dset_new {A} k (v : A) (d : dict A) :
~ In k (keys d) -> dset k v d = d ++ [(k, v)].
Proof.
induction d as [|[k' v'] d IH]; simpl; [reflexivity|].
intros H. destruct (String.eqb_spec k' k) as [->|Hne].
- exfalso. apply H. now left.
- f_equal. apply IH. tauto.
Qed.

Lemma dget_app_l {A} k (d d' : dict A) x :
dget k d = Some x -> dget k (d ++ d') = Some x.
Proof.
induction d as [|[k' v'] d IH]; simpl; [discriminate|].
destruct (k' =? k)%string; auto.
Qed.

Lemma dget_app_r {A} k (d d' : dict A) :
~ In k (keys d) -> dget k (d ++ d') = dget k d'.
Proof.
induction d as [|[k' v'] d IH]; simpl; [reflexivity|].
intros H. destruct (String.eqb_spec k' k) as [->|Hne]; [|apply IH; tauto].
exfalso. apply H. now left.
Qed.

Lemma keys_app {A} (d d' : dict A) : keys (d ++ d') = keys d ++ keys d'.
Proof. apply map_app. Qed.

Lemma ddel_all_app {A} ks ks' (d : dict A) :
ddel_all (ks ++ ks') d = ddel_all ks' (ddel_all ks d).
Proof. apply fold_left_app. Qed.

Lemma dset_app_r {A} k (v : A) (d d' : dict A) :
~ In k (keys d) -> dset k v (d ++ d') = d ++ dset k v d'.
Proof.
induction d as [|[k' v'] d IH]; simpl; [reflexivity|].
intros H. destruct (String.eqb_spec k' k) as [->|Hne].
- exfalso. apply H. now left.
- f_equal. apply IH. tauto.
Qed.

Section AppendFacts.

Variable CLASSES : dict pyclass.
Variable mode : Z.

(** A scan over entries with distinct keys, none of them resolved, puts
    what it constructs behind what [experiment] held. *)
Lemma scan_appends cfg items ss ss' err :
NoDup (keys items) ->
(forall k, In k (keys items) -> ~ In k (keys (s_experiment ss))) ->
scan CLASSES mode cfg items ss = (ss', err) ->
exists new,
  s_experiment ss' = s_experiment ss ++ new
  /\ incl (keys new) (keys items)
  /\ (err = None -> s_configured ss' = s_configured ss ++ keys new).
Proof.
revert ss. induction items as [|[k v] items IH]; intros ss Hnd Hnew; simpl.
- intros [= <- _]. exists []. rewrite !app_nil_r.
  split; [reflexivity|]. split; [intros x []|reflexivity].
- inversion Hnd as [|? ? Hk Hnd']; subst.
  destruct (build_one CLASSES mode cfg (s_experiment ss) k v)
    as [[obj fac|obj e|missing]|e].
  + intros H. apply IH in H as (new & He & Hi & Hc); simpl in *; auto.
    * exists ((k, obj) :: new).
      rewrite He, dset_new by (apply Hnew; now left).
      split; [now rewrite <- !app_assoc|]. split.
      -- intros x [<-|Hx]; [now left | right; now apply Hi].
      -- intros Hn. rewrite (Hc Hn). simpl. now rewrite <- !app_assoc.
    * intros k' Hk'. rewrite In_keys_dset. intros [->|Hin]; [contradiction|].
      apply (Hnew k'); [now right | exact Hin].
  + intros [= <- <-]. exists [(k, obj)]. simpl.
    rewrite dset_new by (apply Hnew; now left).
    split; [reflexivity|]. split; [|discriminate].
    intros x [<-|[]]. now left.
  + intros H. apply IH in H as (new & He & Hi & Hc); simpl in *; auto.
    exists new. split; [exact He|]. split; [|exact Hc].
    intros x Hx. right. now apply Hi.
  + intros [= <- <-]. exists []. rewrite !app_nil_r.
    split; [reflexivity|]. split; [intros x []|discriminate].
Qed.

(** A scan over entries whose keys are not among those of the first
    entries of [experiment] leaves these first entries as they are. *)
Lemma scan_behind cfg items ss ss' err base new :
(forall k, In k (keys items) -> ~ In k (keys base)) ->
s_experiment ss = base ++ new ->
scan CLASSES mode cfg items ss = (ss', err) ->
exists new',
  s_experiment ss' = base ++ new'
  /\ forall k, In k (keys new') -> In k (keys new) \/ In k (keys items).
Proof.
revert ss new. induction items as [|[k v] items IH]; intros ss new Hb He; simpl.
- intros [= <- _]. exists new. auto.
- assert (Hset : forall obj,
            dset k obj (s_experiment ss) = base ++ dset k obj new).
  { intros obj. rewrite He. apply dset_app_r. apply Hb. now left. }
  assert (Hrest : forall k', In k' (keys items) -> ~ In k' (keys base)).
  { intros k' Hk'. apply Hb. now right. }
  destruct (build_one CLASSES mode cfg (s_experiment ss) k v)
    as [[obj fac|obj e|missing]|e].
  + intros H. apply (IH _ (dset k obj new) Hrest) in H as (new' & He' & Hk');
      [|simpl; apply Hset].
    exists new'. split; [exact He'|].
    intros x Hx. apply Hk' in Hx. rewrite In_keys_dset in Hx.
    simpl. intuition.
  + intros [= <- _]. exists (dset k obj new). simpl. split; [apply Hset|].
    intros x. rewrite In_keys_dset. simpl. intuition.
  + intros H. apply (IH _ new Hrest) in H as (new' & He' & Hk');
      [|exact He].
    exists new'. split; [exact He'|].
    intros x Hx. apply Hk' in Hx. simpl. intuition.
  + intros [= <- _]. exists new. auto.
Qed.

Lemma keys_nil {A} (d : dict A) : keys d = [] -> d = [].
Proof. now destruct d. Qed.

(** The proof of the property of a tier below, for every way out. *)
Lemma build_items_appends_to st st' o :
NoDup (keys (config st)) -> disjoint_keys st ->
_build_items CLASSES mode st = (st', o) ->
exists done last,
  experiment st' = experiment st ++ done ++ last
  /\ incl (keys (done ++ last)) (keys (config st))
  /\ config st' = ddel_all (keys done) (config st)
  /\ (o = Returned -> last = [])
  /\ (quiet_constructors CLASSES -> tolerated o = true -> last = []).
Proof.
intros Hnd Hdis.
apply (build_items_rule CLASSES mode
         (fun s => NoDup (keys (config s)) /\ disjoint_keys s
                   /\ exists done,
                        experiment s = experiment st ++ done
                        /\ incl (keys done) (keys (config st))
                        /\ config s = ddel_all (keys done) (config st))
         (fun s o => exists done last,
                       experiment s = experiment st ++ done ++ last
                       /\ incl (keys (done ++ last)) (keys (config st))
                       /\ config s = ddel_all (keys done) (config st)
                       /\ (o = Returned -> last = [])
                       /\ (quiet_constructors CLASSES ->
                           tolerated o = true -> last = []))).
- intros s (_ & _ & done & He & Hi & Hc) _. exists done, [].
  rewrite !app_nil_r. auto.
- intros s ss e (HN & HD & done & He & Hi & Hc) _ Hs.
  destruct (scan_appends (config s) (config s) (scan_start s) ss _ HN HD Hs)
    as (new2 & He2 & Hi2 & _).
  simpl in He2. exists done, new2. simpl.
  split; [now rewrite He2, He, app_assoc|]. split; [|split; [exact Hc|split]].
  + rewrite keys_app. apply incl_app; [exact Hi|].
    intros x Hx. apply Hi2 in Hx.
    rewrite Hc in Hx. now apply In_keys_ddel_all in Hx as [Hx _].
  + discriminate.
  + intros Hq Ht. apply (scan_raise _ _ _ _ _ _ _ Hq) in Hs.
    destruct e; discriminate.
- intros s ss (HN & HD & done & He & Hi & Hc) _ Hs Hconf.
  rewrite (scan_nothing _ _ _ _ Hs Hconf). exists done, [].
  rewrite !app_nil_r. auto.
- intros s ss (HN & HD & done & He & Hi & Hc) _ Hs _.
  destruct (scan_step CLASSES mode s ss Hs)
    as (_ & _ & _ & Hincl & HN' & _ & HD').
  split; [auto|]. split; [auto|].
  destruct (scan_appends (config s) (config s) (scan_start s) ss _ HN HD Hs)
    as (new2 & He2 & _ & Hc2).
  specialize (Hc2 eq_refl).
  simpl in He2, Hc2. exists (done ++ new2). simpl.
  split; [now rewrite He2, He, app_assoc|]. split.
  + rewrite keys_app. apply incl_app; [exact Hi|].
    rewrite <- Hc2. intros x Hx. apply Hincl in Hx.
    rewrite Hc in Hx. now apply In_keys_ddel_all in Hx as [Hx _].
  + now rewrite keys_app, ddel_all_app, <- Hc, Hc2.
- split; [exact Hnd|]. split; [exact Hdis|].
  exists []. rewrite app_nil_r. split; [reflexivity|].
  split; [intros x []|reflexivity].
Qed.

(** Whatever its end, a tier leaves the first entries of [experiment] as
    they are when no pending key is among their keys. *)
Lemma build_items_behind st st' o base new :
(forall k, In k (keys (config st)) -> ~ In k (keys base)) ->
experiment st = base ++ new ->
_build_items CLASSES mode st = (st', o) ->
exists new',
  experiment st' = base ++ new'
  /\ forall k, In k (keys new') ->
               In k (keys new) \/ In k (keys (config st)).
Proof.
intros Hb He.
assert (Hscan : forall s ss err,
          (forall k, In k (keys (config s)) -> In k (keys (config st))) ->
          (exists new', experiment s = base ++ new'
             /\ forall k, In k (keys new') ->
                          In k (keys new) \/ In k (keys (config st))) ->
          scan CLASSES mode (config s) (config s) (scan_start s) = (ss, err) ->
          exists new', s_experiment ss = base ++ new'
             /\ forall k, In k (keys new') ->
                          In k (keys new) \/ In k (keys (config st))).
{ intros s ss err Hsub (n1 & He1 & Hk1) Hs.
  destruct (scan_behind (config s) (config s) (scan_start s) ss err base n1)
    as (n2 & He2 & Hk2); auto.
  exists n2. split; [exact He2|].
  intros k Hk. apply Hk2 in Hk as [Hk|Hk]; auto. }
apply (build_items_rule CLASSES mode
         (fun s => (forall k, In k (keys (config s)) ->
                              In k (keys (config st)))
                   /\ exists new',
                        experiment s = base ++ new'
                        /\ forall k, In k (keys new') ->
                                     In k (keys new) \/ In k (keys (config st)))
         (fun s _ => exists new',
                       experiment s = base ++ new'
                       /\ forall k, In k (keys new') ->
                                    In k (keys new) \/ In k (keys (config st)))).
- intros s [_ H] _. exact H.
- intros s ss e [Hsub H] _ Hs. simpl. exact (Hscan s ss _ Hsub H Hs).
- intros s ss [Hsub H] _ Hs _. simpl. exact (Hscan s ss _ Hsub H Hs).
- intros s ss [Hsub H] _ Hs _. simpl. split.
  + intros k Hk. apply In_keys_ddel_all in Hk as [Hk _]. auto.
  + exact (Hscan s ss _ Hsub H Hs).
- split; [auto|]. exists new. auto.
Qed.

End AppendFacts.

(** However construction ends, the entries that classification has put
    into [experiment] are its first entries, and the others have keys of
    entries that classification left pending. *)
Lemma init_behind CLASSES raw env st o :
__init__ CLASSES raw env = (st, o) ->
exists constructed,
  experiment st = experiment (classify raw env) ++ constructed
  /\ forall k, In k (keys constructed) ->
               In k (keys (config (classify raw env))).
Proof.
intros Hrun.
set (base := experiment (classify raw env)) in *.
set (cfg0 := config (classify raw env)) in *.
assert (Hfresh : forall k, In k (keys cfg0) -> ~ In k (keys base)).
{ intros k Hc He. exact (classify_disjoint env raw k Hc He). }
assert (Hstep : forall mode s s' o' new,
          (forall k, In k (keys (config s)) -> In k (keys cfg0)) ->
          experiment s = base ++ new ->
          (forall k, In k (keys new) -> In k (keys cfg0)) ->
          _build_items CLASSES mode s = (s', o') ->
          (forall k, In k (keys (config s')) -> In k (keys cfg0))
          /\ exists new', experiment s' = base ++ new'
                          /\ forall k, In k (keys new') -> In k (keys cfg0)).
{ intros mode s s' o' new Hsub He Hk Hb. split.
  - intros k Hin. apply Hsub. apply In_keys_value in Hin as [v Hin].
    apply (In_value_keys _ k v).
    exact (build_items_pending CLASSES mode s s' o' Hb k v Hin).
  - destruct (build_items_behind CLASSES mode s s' o' base new) as (n' & He' & Hk');
      auto.
    exists n'. split; [exact He'|].
    intros k Hin. apply Hk' in Hin as [Hin|Hin]; auto. }
assert (H0 : experiment (classify raw env) = base ++ [])
  by (now rewrite app_nil_r).
assert (Hk0 : forall k, In k (keys (@nil (string * value))) -> In k (keys cfg0))
  by (intros k []).
assert (Hs0 : forall k, In k (keys (config (classify raw env))) ->
                        In k (keys cfg0)) by auto.
unfold __init__ in Hrun.
apply run_tiers_cases in Hrun
    as [(st0 & o0 & st1 & o1 & E0 & T0 & E1 & T1 & E2)
       |[Hf [E0|(st0 & o0 & E0 & T0 & E1)]]].
- destruct (Hstep _ _ _ _ _ Hs0 H0 Hk0 E0) as (Hs1 & n1 & He1 & Hk1).
  destruct (Hstep _ _ _ _ _ Hs1 He1 Hk1 E1) as (Hs2 & n2 & He2 & Hk2).
  destruct (Hstep _ _ _ _ _ Hs2 He2 Hk2 E2) as (_ & n3 & He3 & Hk3).
  eauto.
- destruct (Hstep _ _ _ _ _ Hs0 H0 Hk0 E0) as (_ & n1 & He1 & Hk1). eauto.
- destruct (Hstep _ _ _ _ _ Hs0 H0 Hk0 E0) as (Hs1 & n1 & He1 & Hk1).
  destruct (Hstep _ _ _ _ _ Hs1 He1 Hk1 E1) as (_ & n2 & He2 & Hk2). eauto.
Qed.

(** X5. A tier that starts with no key both resolved and pending only adds
    to [experiment]: what [_build_items] leaves is what it found, followed
    by the entries constructed in the scans that it completed, whose keys
    have left [config], followed by those constructed in a scan that an
    exception ended, whose keys are still pending. All these keys were
    pending, so a resolved value is never replaced. There are none of the
    last kind when the tier returns, nor when it ends with
    [UnconfiguredItemsException] and no registered constructor raises that
    exception. *)
Theorem build_items_appends (CLASSES : dict pyclass) (mode : Z)
  (st st' : state) (o : outcome) :
  NoDup (keys (config st)) -> disjoint_keys st ->
  _build_items CLASSES mode st = (st', o) ->
  (exists done last,
      experiment st' = experiment st ++ done ++ last
      /\ incl (keys (done ++ last)) (keys (config st))
      /\ config st' = ddel_all (keys done) (config st)
      /\ (o = Returned -> last = [])
      /\ (quiet_constructors CLASSES -> tolerated o = true -> last = []))
  /\ (forall k x,
        dget k (experiment st) = Some x -> dget k (experiment st') = Some x).
Proof.
intros Hnd Hdis Hrun.
destruct (build_items_appends_to CLASSES mode st st' o Hnd Hdis Hrun)
  as (done & last & He & Hi & Hc & Hr & Hq).
split; [exists done, last; auto|].
intros k x Hget. rewrite He. now apply dget_app_l.
Qed.

Lemma build_items_appends_witness :
  let st := {| config := [("b", descriptor "Box" [("value", VStr "a")]);
                          ("c", descriptor "Box" [("value", VStr "nowhere")])];
               experiment := [("a", VInt 5)];
               factories := [("a", ParamFactory (VInt 5))] |} in
  (NoDup (keys (config st)) /\ disjoint_keys st)
  /\ exists st' items,
       _build_items EXAMPLES 0 st
       = (st', Raised (UnconfiguredItemsException items))
       /\ experiment st'
          = experiment st ++ [("b", VObj "Box" [("value", VInt 5)])]
       /\ keys (config st') = ["c"]
       /\ dget "a" (experiment st') = Some (VInt 5).
Proof.
intros st.
assert (Hnd : NoDup (keys (config st))).
{ repeat constructor; simpl; intuition discriminate. }
assert (Hdis : disjoint_keys st).
{ intros k [<-|[<-|[]]] [H|[]]; discriminate. }
split; [now split|].
destruct (_build_items EXAMPLES 0 st) as [st' o] eqn:E.
destruct (build_items_appends EXAMPLES 0 st st' o Hnd Hdis E) as [_ Hkeep].
specialize (Hkeep "a" (VInt 5) eq_refl).
vm_compute in E. injection E as <- <-.
eexists. eexists. split; [reflexivity|]. split; [reflexivity|].
split; [reflexivity | exact Hkeep].
Defined.

(** ** The entries of [experiment] and their order *)

Section LayoutFacts.

Variable env : dict string.

Lemma extract_scalar_entries items acc :
NoDup (keys items) ->
(forall k, In k (keys items) -> ~ In k (keys (fst acc))) ->
fst (fold_left (extract_scalar env) items acc)
= fst acc ++ scalar_entries env items.
Proof.
unfold scalar_entries.
revert acc. induction items as [|[k v] items IH]; intros acc Hnd Hnew; simpl.
- now rewrite app_nil_r.
- inversion Hnd as [|? ? Hk Hnd']; subst.
  destruct (is_scalar v) eqn:Ev; simpl.
  + rewrite IH; simpl; auto.
    * rewrite dset_new by (apply Hnew; now left).
      now rewrite <- app_assoc.
    * intros k' Hk'. rewrite In_keys_dset. intros [->|Hin]; [contradiction|].
      apply (Hnew k'); [now right | exact Hin].
  + apply IH; auto. intros k' Hk'. apply Hnew. now right.
Qed.

Lemma extract_list_entries items acc :
NoDup (keys items) ->
(forall k v, In (k, v) items -> is_scalar_list v = true ->
             ~ In k (keys (fst acc))) ->
fst (fold_left (extract_list env) items acc)
= fst acc ++ list_entries env items.
Proof.
unfold list_entries.
revert acc. induction items as [|[k v] items IH]; intros acc Hnd Hnew; simpl.
- now rewrite app_nil_r.
- inversion Hnd as [|? ? Hk Hnd']; subst.
  assert (Hskip : is_scalar_list v = false ->
            fst (fold_left (extract_list env) items acc)
            = fst acc ++ map (list_entry env)
                           (filter (fun kv => is_scalar_list (snd kv)) items)).
  { intros _. apply IH; auto. intros k' v' Hin. apply Hnew. now right. }
  destruct v; try (now apply Hskip). simpl.
  destruct (forallb is_scalar l) eqn:El; [|now apply Hskip].
  simpl. rewrite IH; simpl; auto.
  + rewrite dset_new by (apply (Hnew k (VList l)); [now left | exact El]).
    now rewrite <- app_assoc.
  + intros k' v' Hin Hv'. rewrite In_keys_dset. intros [->|Hin'].
    * apply Hk. now apply In_value_keys in Hin.
    * apply (Hnew k' v'); [now right | exact Hv' | exact Hin'].
Qed.

Lemma keys_scalar_entries raw k :
In k (keys (scalar_entries env raw))
<-> exists v, In (k, v) raw /\ is_scalar v = true.
Proof.
unfold scalar_entries, keys. rewrite map_map. simpl.
rewrite in_map_iff. split.
- intros ([k' v] & <- & Hin). apply filter_In in Hin as [Hin Hs]. eauto.
- intros (v & Hin & Hs). exists (k, v). split; [reflexivity|].
  apply filter_In. auto.
Qed.

Lemma keys_list_entries raw k :
In k (keys (list_entries env raw))
<-> exists v, In (k, v) raw /\ is_scalar_list v = true.
Proof.
unfold list_entries, keys. rewrite map_map, in_map_iff. split.
- intros ([k' v] & <- & Hin). apply filter_In in Hin as [Hin Hs].
  exists v. split; [|exact Hs]. unfold list_entry. simpl. now destruct v.
- intros (v & Hin & Hs). exists (k, v). split.
  + unfold list_entry. simpl. now destruct v.
  + apply filter_In. auto.
Qed.

(** What classification resolves. *)
Lemma classify_experiment raw :
NoDup (keys raw) ->
experiment (classify raw env) = scalar_entries env raw ++ list_entries env raw.
Proof.
intros Hnd. unfold classify. simpl.
rewrite extract_list_entries; [|exact Hnd|].
- now rewrite extract_scalar_entries by (simpl; auto).
- intros k v Hin Hl. rewrite extract_scalar_entries by (simpl; auto). simpl.
  rewrite keys_scalar_entries. intros (v' & Hin' & Hs).
  rewrite (NoDup_keys_same raw k v v' Hnd Hin Hin') in Hl.
  destruct v'; discriminate.
Qed.

End LayoutFacts.

(** X6. However construction ends, [experiment] holds first the scalars of
    the configuration in their order, with the environment substituted,
    then its lists of scalars in their order, with the environment
    substituted in every element, then the descriptors that were
    constructed, in the order of their construction; when construction
    returns, every descriptor is among them. *)
Theorem experiment_layout (CLASSES : dict pyclass) (raw : dict value)
  (env : dict string) (st : state) (o : outcome) :
  NoDup (keys raw) ->
  __init__ CLASSES raw env = (st, o) ->
  exists constructed,
    experiment st
    = scalar_entries env raw ++ list_entries env raw ++ constructed
    /\ (forall k, In k (keys constructed) ->
                  exists v, In (k, v) raw /\ is_simple v = false)
    /\ (o = Returned ->
        forall k v, In (k, v) raw -> is_simple v = false ->
                    In k (keys constructed)).
Proof.
intros Hnd Hrun.
destruct (init_behind CLASSES raw env st o Hrun) as (constructed & He & Hk).
assert (Hlay : experiment st
               = scalar_entries env raw ++ list_entries env raw ++ constructed).
{ now rewrite He, classify_experiment, app_assoc. }
exists constructed. split; [exact Hlay|]. split.
- intros k Hin. apply Hk, In_keys_value in Hin as [v Hin].
  exists v. now apply (classify_config env raw k v Hnd).
- intros -> k v Hin Hs.
  destruct (init_returned CLASSES raw env st Hnd Hrun) as (_ & _ & Hall).
  assert (Hkin : In k (keys (experiment st))).
  { apply Hall. now apply In_value_keys in Hin. }
  rewrite Hlay, !keys_app, !in_app_iff in Hkin.
  destruct Hkin as [Hkin|[Hkin|Hkin]]; [| |exact Hkin]; exfalso.
  + apply keys_scalar_entries in Hkin as (v' & Hin' & Hs').
    rewrite (NoDup_keys_same raw k v v' Hnd Hin Hin') in Hs.
    unfold is_simple in Hs. rewrite Hs' in Hs. discriminate.
  + apply keys_list_entries in Hkin as (v' & Hin' & Hs').
    rewrite (NoDup_keys_same raw k v v' Hnd Hin Hin') in Hs.
    unfold is_simple in Hs. rewrite Hs', orb_true_r in Hs. discriminate.
Qed.

Lemma experiment_layout_witness :
  let raw := [("m", descriptor "Model" [("layers", VStr "l")]);
              ("l", VList [VStr "HOME/a"; VInt 2]);
              ("h", VStr "HOME")] in
  NoDup (keys raw)
  /\ exists st,
       __init__ EXAMPLES raw [("HOME", "/h")] = (st, Returned)
       /\ experiment st
          = [("h", VStr "/h")] ++ [("l", VList [VStr "/h/a"; VInt 2])]
            ++ [("m", VObj "Model" [("layers", VList [VStr "/h/a"; VInt 2]);
                                    ("p", VInt 7)])].
Proof.
intros raw.
assert (Hnd : NoDup (keys raw)).
{ repeat constructor; simpl; intuition discriminate. }
split; [exact Hnd|].
destruct (__init__ EXAMPLES raw [("HOME", "/h")]) as [st o] eqn:E.
destruct (experiment_layout EXAMPLES raw [("HOME", "/h")] st o Hnd E)
  as (constructed & He & _).
vm_compute in E. injection E as <- <-.
eexists. split; [reflexivity|]. reflexivity.
Defined.

(** ** Factories *)

Section RecordedFacts.

Variable CLASSES : dict pyclass.

Lemma recorded_dset exp fac k x f :
recorded CLASSES exp fac ->
create CLASSES f = Some x ->
recorded CLASSES (dset k x exp) (dset k f fac).
Proof.
intros [Hkeys Hget] Hf. split.
- destruct (in_dec string_dec k (keys exp)) as [Hin|Hnin].
  + rewrite !keys_dset_old; congruence.
  + rewrite !keys_dset_new; congruence.
- intros k' x'. destruct (String.eqb_spec k k') as [<-|Hne].
  + rewrite !dget_dset_eq. intros [= <-]. eauto.
  + rewrite !dget_dset_neq by assumption. apply Hget.
Qed.

Lemma recorded_classify raw env :
recorded CLASSES (experiment (classify raw env)) (factories (classify raw env)).
Proof.
unfold classify. simpl.
assert (Hscalar : forall items acc,
          recorded CLASSES (fst acc) (snd acc) ->
          recorded CLASSES (fst (fold_left (extract_scalar env) items acc))
            (snd (fold_left (extract_scalar env) items acc))).
{ induction items as [|[k v] items IH]; intros acc H; simpl; [exact H|].
  apply IH. destruct (is_scalar v); simpl; [|exact H].
  now apply recorded_dset. }
assert (Hlist : forall items acc,
          recorded CLASSES (fst acc) (snd acc) ->
          recorded CLASSES (fst (fold_left (extract_list env) items acc))
            (snd (fold_left (extract_list env) items acc))).
{ induction items as [|[k v] items IH]; intros acc H; simpl; [exact H|].
  apply IH. destruct v; try exact H.
  destruct (forallb is_scalar l); simpl; [|exact H].
  now apply recorded_dset. }
apply Hlist, Hscalar. split; [reflexivity | discriminate].
Qed.

(** The factory of a constructed descriptor holds the call that made it. *)
Lemma constructed_factory mode cfg exp k v obj fac :
build_one CLASSES mode cfg exp k v = Ok (Constructed obj fac) ->
create CLASSES fac = Some obj.
Proof.
intros H.
destruct (build_one_ok _ _ _ _ _ _ _ H)
  as (d & n & c & lit & f & _ & _ & Hc & _ & _
      & [(o & [= -> ->] & Hi & _)|[[? _]|(o & ? & _)]]);
  [|discriminate|discriminate].
simpl. now rewrite Hc, Hi.
Qed.

(** The [TypeError] of the call that makes a factory. *)
Local Abbreviation clash err :=
  (exists k, err = Some (TypeError_multiple_values k)).

Lemma recorded_scan mode cfg items ss ss' err :
recorded CLASSES (s_experiment ss) (s_factories ss) ->
scan CLASSES mode cfg items ss = (ss', err) ->
~ clash err ->
recorded CLASSES (s_experiment ss') (s_factories ss').
Proof.
revert ss. induction items as [|[k v] items IH]; intros ss Hr; simpl.
- now intros [= <- _].
- destruct (build_one CLASSES mode cfg (s_experiment ss) k v)
    as [[obj fac|obj e|missing]|e] eqn:E.
  + apply IH. simpl. apply recorded_dset; [exact Hr|].
    exact (constructed_factory _ _ _ _ _ _ _ E).
  + intros [= <- <-] Hno. exfalso. apply Hno.
    apply build_one_assigned in E. subst. eauto.
  + apply IH. exact Hr.
  + now intros [= <- _].
Qed.

Lemma recorded_build_items mode st st' o :
recorded CLASSES (experiment st) (factories st) ->
_build_items CLASSES mode st = (st', o) ->
(forall k, o <> Raised (TypeError_multiple_values k)) ->
recorded CLASSES (experiment st') (factories st').
Proof.
intros Hr.
apply (build_items_rule CLASSES mode
         (fun s => recorded CLASSES (experiment s) (factories s))
         (fun s o => (forall k, o <> Raised (TypeError_multiple_values k)) ->
                     recorded CLASSES (experiment s) (factories s))); auto.
- intros s ss e H _ Hs Hno. simpl.
  apply (recorded_scan mode (config s) (config s) (scan_start s) ss _ H Hs).
  intros [k [= ->]]. now apply (Hno k).
- intros s ss H _ Hs _ _. simpl.
  apply (recorded_scan mode (config s) (config s) (scan_start s) ss _ H Hs).
  intros [k Hk]. discriminate.
- intros s ss H _ Hs _. simpl.
  apply (recorded_scan mode (config s) (config s) (scan_start s) ss _ H Hs).
  intros [k Hk]. discriminate.
Qed.

End RecordedFacts.

(** A registration leaves what a factory makes as it is. *)
Lemma create_registered CLASSES name clazz f x :
dmem name CLASSES = false ->
create CLASSES f = Some x ->
create (dset name clazz CLASSES) f = Some x.
Proof.
intros Hnew. destruct f as [param|cls [p2c|] args kwargs]; simpl; auto.
destruct args; auto.
destruct (String.eqb_spec name cls) as [<-|Hne].
- unfold dmem in Hnew. destruct (dget name CLASSES); discriminate.
- now rewrite dget_dset_neq.
Qed.

(** X7. Unless construction ends with the [TypeError] of the call that
    makes a factory (a constructor with a parameter named [self], [cls] or
    [param2config_key]), [self.factories] has a factory for every key of
    [experiment] and for no other key, in the same order, and [create] of
    the factory of a key makes the value of that key again (with
    constructors that are functions of their arguments); this is still so
    after later registrations. *)
Theorem factories_recreate (CLASSES : dict pyclass) (raw : dict value)
  (env : dict string) (st : state) (o : outcome) :
  __init__ CLASSES raw env = (st, o) ->
  (forall k, o <> Raised (TypeError_multiple_values k)) ->
  recorded CLASSES (experiment st) (factories st)
  /\ forall name clazz,
       dmem name CLASSES = false ->
       recorded (dset name clazz CLASSES) (experiment st) (factories st).
Proof.
intros Hrun Hno.
assert (Htol : forall o', tolerated o' = true ->
                 forall k, o' <> Raised (TypeError_multiple_values k)).
{ intros o' Ht k ->. discriminate. }
assert (Hrec : recorded CLASSES (experiment st) (factories st)).
{ pose proof (recorded_classify CLASSES raw env) as H0.
  unfold __init__, run_tiers in Hrun.
  destruct (_build_items CLASSES 0 (classify raw env)) as [st0 o0] eqn:E0.
  destruct (tolerated o0) eqn:T0.
  2:{ injection Hrun as <- <-.
      exact (recorded_build_items CLASSES 0 _ _ _ H0 E0 Hno). }
  pose proof (recorded_build_items CLASSES 0 _ _ _ H0 E0 (Htol _ T0)) as H1.
  destruct (_build_items CLASSES 1 st0) as [st1 o1] eqn:E1.
  destruct (tolerated o1) eqn:T1.
  2:{ injection Hrun as <- <-.
      exact (recorded_build_items CLASSES 1 _ _ _ H1 E1 Hno). }
  pose proof (recorded_build_items CLASSES 1 _ _ _ H1 E1 (Htol _ T1)) as H2.
  exact (recorded_build_items CLASSES 2 _ _ _ H2 Hrun Hno). }
split; [exact Hrec|].
intros name clazz Hnew. destruct Hrec as [Hkeys Hget].
split; [exact Hkeys|].
intros k x Hk. destruct (Hget k x Hk) as (f & Hf & Hc).
exists f. split; [exact Hf|]. now apply create_registered.
Qed.

Lemma factories_recreate_witness :
  let raw := [("b", descriptor "Box" [("value", VStr "l")]);
              ("l", VList [VInt 1; VInt 2])] in
  exists st,
    __init__ EXAMPLES raw [] = (st, Returned)
    /\ keys (factories st) = ["l"; "b"]
    /\ recorded EXAMPLES (experiment st) (factories st)
    /\ (exists f, dget "b" (factories st) = Some f
                  /\ create EXAMPLES f
                     = Some (VObj "Box" [("value", VList [VInt 1; VInt 2])])).
Proof.
intros raw.
destruct (__init__ EXAMPLES raw []) as [st o] eqn:E.
assert (Hno : forall k, o <> Raised (TypeError_multiple_values k)).
{ vm_compute in E. injection E as _ <-. discriminate. }
destruct (factories_recreate EXAMPLES raw [] st o E Hno) as [Hrec _].
vm_compute in E. injection E as <- <-.
eexists. split; [reflexivity|]. split; [reflexivity|].
split; [exact Hrec|].
exact (proj2 Hrec "b" _ eq_refl).
Defined.

(** ** The record of the sources of the parameters *)

Section StoreFacts.

Context {A : Type}.
Variable g : string -> option A.

Lemma dget_fold_store_at args a (p : dict A) :
dget a (fold_left (store_at g) args p)
= if in_dec string_dec a args
  then match g a with Some v => Some v | None => dget a p end
  else dget a p.
Proof.
revert p. induction args as [|b args IH]; intros p; simpl; [reflexivity|].
rewrite IH. unfold store_at.
destruct (string_dec b a) as [->|Hne].
- destruct (g a) as [x|]; [rewrite dget_dset_eq|];
    destruct (in_dec string_dec a args); reflexivity.
- destruct (g b) as [x|]; [rewrite dget_dset_neq by assumption|];
    destruct (in_dec string_dec a args); reflexivity.
Qed.

Lemma keys_fold_store_at args (p : dict A) :
NoDup (keys p ++ args) ->
(forall a, In a args -> g a <> None) ->
keys (fold_left (store_at g) args p) = keys p ++ args.
Proof.
revert p. induction args as [|b args IH]; intros p Hnd Hall; simpl.
- now rewrite app_nil_r.
- unfold store_at at 2.
  destruct (g b) as [x|] eqn:E;
    [|exfalso; apply (Hall b); [now left | exact E]].
  assert (Hb : ~ In b (keys p)).
  { intros Hin. apply NoDup_remove_2 in Hnd. apply Hnd.
    apply in_or_app. now left. }
  rewrite IH.
  + rewrite keys_dset_new by assumption. now rewrite <- app_assoc.
  + rewrite keys_dset_new by assumption. now rewrite <- app_assoc.
  + intros a Ha. apply Hall. now right.
Qed.

End StoreFacts.

Section KeyFacts.

Variables (mode : Z) (cfg exp lit named defaults : dict value).

Lemma fill_arg_keys f arg f' :
fill_arg mode cfg exp lit named defaults f arg = Ok f' ->
param2config_key f'
= store_at (stored_key mode cfg exp lit named defaults)
    (param2config_key f) arg.
Proof.
unfold fill_arg, store_at, stored_key, self_key, default_applies.
destruct (dget arg lit) as [lv|]; [intros [= <-]; reflexivity|].
destruct (dget arg named) as [alias|].
- destruct alias; try (intros [= <-]; destruct (arg =? reserved)%string;
                       simpl; rewrite ?dset_dset; reflexivity).
  + destruct (dget s exp); intros [= <-];
      destruct (arg =? reserved)%string; simpl;
      rewrite ?dset_dset; reflexivity.
  + destruct (collect_alias l exp) as [pl|e]; simpl; [|discriminate].
    intros [= <-].
    destruct (length pl =? length l)%nat;
      destruct (arg =? reserved)%string; simpl;
      rewrite ?dset_dset; reflexivity.
- destruct (dget arg exp).
  + intros [= <-]. destruct (arg =? reserved)%string; simpl;
      rewrite ?dset_dset; reflexivity.
  + destruct (dget arg defaults).
    * destruct ((mode =? 1)%Z && negb (dmem arg cfg)); simpl.
      -- intros [= <-]. destruct (arg =? reserved)%string; simpl;
           rewrite ?dset_dset; reflexivity.
      -- destruct (mode =? 2)%Z; intros [= <-];
           destruct (arg =? reserved)%string; simpl;
           rewrite ?dset_dset; reflexivity.
    * intros [= <-]. destruct (arg =? reserved)%string; reflexivity.
Qed.

Lemma fill_args_keys args f f' :
fill_args mode cfg exp lit named defaults args f = Ok f' ->
param2config_key f'
= fold_left (store_at (stored_key mode cfg exp lit named defaults)) args
    (param2config_key f).
Proof.
revert f. induction args as [|a args IH]; intros f; simpl.
- now intros [= <-].
- destruct (fill_arg mode cfg exp lit named defaults f a) as [f1|e] eqn:E;
    simpl; [|discriminate].
  intros H. apply IH in H. rewrite H. f_equal.
  now apply fill_arg_keys.
Qed.

Lemma fill_args_values args f f' :
fill_args mode cfg exp lit named defaults args f = Ok f' ->
params f'
= fold_left (store_at (stored_value mode cfg exp lit named defaults)) args
    (params f).
Proof.
intros H. rewrite (fill_args_params _ _ _ _ _ _ _ _ _ H).
clear H. generalize (params f). induction args as [|a args IH]; intros p.
- reflexivity.
- simpl. rewrite IH. unfold store_at at 2, store.
  reflexivity.
Qed.

(** A parameter that is stored has a source on record. *)
Lemma stored_key_of_value arg :
stored_value mode cfg exp lit named defaults arg <> None ->
stored_key mode cfg exp lit named defaults arg <> None.
Proof.
unfold stored_value, stored_key, self_binding, self_key.
destruct (dget arg lit); [discriminate|].
destruct (dget arg named) as [alias|]; [discriminate|].
destruct (dget arg exp); [discriminate|].
destruct (dget arg defaults).
- destruct (default_applies mode cfg arg); [discriminate|].
  now destruct (arg =? reserved)%string.
- now destruct (arg =? reserved)%string.
Qed.

End KeyFacts.

Lemma literal_params_from_values items acc lit arg x :
literal_params_from items acc = Ok lit ->
dget arg lit = Some x ->
dget arg acc = Some x \/ In ((arg ++ "_")%string, x) items.
Proof.
revert acc. induction items as [|[p pv] items IH]; intros acc; simpl.
- intros [= <-]. auto.
- destruct (last_char p) as [c|] eqn:Ec; [|discriminate].
  destruct (Ascii.eqb_spec c "_"%char) as [->|Hc].
  + intros H Hget. destruct (IH _ H Hget) as [Ha|Hin]; [|auto].
    destruct (String.eqb_spec (drop_last p) arg) as [Hd|Hd].
    * rewrite Hd, dget_dset_eq in Ha. injection Ha as ->.
      right. left. f_equal.
      apply (proj1 (literal_key_iff p arg)). now split.
    * rewrite dget_dset_neq in Ha by assumption. auto.
  + assert (Hgo : literal_params_from items acc = Ok lit ->
                  dget arg lit = Some x ->
                  dget arg acc = Some x
                  \/ ((p, pv) = ((arg ++ "_")%string, x)
                      \/ In ((arg ++ "_")%string, x) items)).
    { intros H Hget. destruct (IH _ H Hget); auto. }
    destruct pv; try discriminate; [exact Hgo|].
    destruct (forallb is_str l); [exact Hgo | discriminate].
Qed.

(** X8. The factory of a constructed descriptor records a source for each
    parameter of the constructor and for nothing else, in the order of the
    parameters, like the keyword arguments. The source [None] stands for a
    literal override of the descriptor, or else for the constructor
    default; for a parameter other than the reserved name, a key as
    source means that the argument is the resolved value of that key, and
    a list of keys that it is the list of their resolved values. *)
Theorem provenance_of_parameters (CLASSES : dict pyclass) (mode : Z)
  (cfg exp : dict value) (k : string) (d : dict value) (n : string)
  (c : pyclass) (obj : value) (fac : factory) :
  build_one CLASSES mode cfg exp k (VDict d) = Ok (Constructed obj fac) ->
  dget "_name" d = Some (VStr n) -> dget n CLASSES = Some c ->
  NoDup (tl (cargs c)) ->
  exists p2c kwargs,
    fac = PluginFactory n (Some p2c) [] kwargs
    /\ keys kwargs = tl (cargs c)
    /\ keys p2c = tl (cargs c)
    /\ forall arg,
         In arg (tl (cargs c)) ->
         (dget arg p2c = Some None ->
          (exists x, In ((arg ++ "_")%string, x) d
                     /\ dget arg kwargs = Some x)
          \/ (~ In (arg ++ "_")%string (keys d)
              /\ exists dv, dget arg (default_params c) = Some dv
                            /\ dget arg kwargs = Some dv))
         /\ (arg <> reserved ->
             (forall s,
                 dget arg p2c = Some (Some (VStr s)) ->
                 exists x, dget s exp = Some x /\ dget arg kwargs = Some x)
             /\ (forall names,
                   dget arg p2c = Some (Some (VList (map VStr names))) ->
                   exists vs,
                     Forall2 (fun s x => dget s exp = Some x) names vs
                     /\ dget arg kwargs = Some (VList vs))).
Proof.
intros Hb Hn Hc Hnd.
destruct (build_one_ok _ _ _ _ _ _ _ Hb)
  as (d' & n' & c' & lit & f & [= <-] & Hn' & Hc' & Hl & Hf
      & [(o & [= <- ->] & _ & Hlen & _)|[[? _]|(o & ? & _)]]);
  [|discriminate|discriminate].
rewrite Hn in Hn'. injection Hn' as <-.
rewrite Hc in Hc'. injection Hc' as <-.
set (sv := stored_value mode cfg exp lit (named_params d) (default_params c)).
set (sk := stored_key mode cfg exp lit (named_params d) (default_params c)).
assert (Hall : forall a, In a (tl (cargs c)) -> sv a <> None).
{ destruct (cargs c) as [|self rest]; [discriminate|]. simpl in *.
  injection Hlen as Hlen.
  exact (proj1 (fill_args_length _ _ _ _ _ _ _ _ Hnd Hf) Hlen). }
assert (Hv : forall a, In a (tl (cargs c)) -> dget a (params f) = sv a).
{ intros a Ha. exact (fill_args_dget _ _ _ _ _ _ _ _ _ Ha Hf). }
assert (Hk : forall a, In a (tl (cargs c)) ->
                       dget a (param2config_key f) = sk a).
{ intros a Ha. rewrite (fill_args_keys _ _ _ _ _ _ _ _ _ Hf).
  rewrite dget_fold_store_at.
  destruct (in_dec string_dec a (tl (cargs c))); [|contradiction].
  unfold sk. now destruct (stored_key _ _ _ _ _ _ a). }
exists (param2config_key f), (params f).
split; [reflexivity|]. split; [|split].
- rewrite (fill_args_values _ _ _ _ _ _ _ _ _ Hf).
  now apply (keys_fold_store_at sv (tl (cargs c)) []).
- rewrite (fill_args_keys _ _ _ _ _ _ _ _ _ Hf).
  apply (keys_fold_store_at sk (tl (cargs c)) []); [exact Hnd|].
  intros a Ha. apply stored_key_of_value. now apply Hall.
- intros arg Ha. rewrite (Hk arg Ha), (Hv arg Ha).
  pose proof (Hall arg Ha) as Hsome.
  pose proof (literal_params_keys d lit arg Hl) as Hlk.
  unfold sk, sv, stored_key, stored_value in *.
  destruct (dget arg lit) as [lv|] eqn:El.
  + split.
    * intros _. left. exists lv. split; [|reflexivity].
      destruct (literal_params_from_values d [] lit arg lv Hl El)
        as [Hd|Hd]; [discriminate | exact Hd].
    * intros _. split; [intros s; discriminate | intros ns; discriminate].
  + assert (Hnolit : ~ In (arg ++ "_")%string (keys d)).
    { intros Hin. apply Hlk in Hin. congruence. }
    destruct (dget arg (named_params d)) as [alias|] eqn:En.
    * split; [discriminate|]. intros Hr.
      rewrite (self_binding_other _ Hr) in *. split.
      -- intros s [= ->].
         destruct (dget s exp) as [x|]; [eauto | congruence].
      -- intros names [= ->].
         destruct (collect_alias_names names exp)
           as (l & Hcol & _ & _ & Hfull & _).
         rewrite Hcol, length_map in *.
         destruct (Nat.eqb_spec (length l) (length names)) as [Hlen'|Hlen'];
           [|congruence].
         exists l. split; [now apply Hfull | reflexivity].
    * destruct (dget arg exp) as [x|] eqn:Ee.
      -- split; [discriminate|]. intros Hr. split.
         ++ intros s [= <-]. eauto.
         ++ intros names; discriminate.
      -- destruct (dget arg (default_params c)) as [dv|] eqn:Ed.
         ++ destruct (default_applies mode cfg arg).
            ** split; [intros _; right; eauto|].
               intros _. split; [intros s; discriminate
                                | intros ns; discriminate].
            ** unfold self_key, self_binding in *.
               destruct (String.eqb_spec arg reserved) as [Hr|Hr];
                 [|congruence].
               split; [discriminate|]. intros Hr'. contradiction.
         ++ unfold self_key, self_binding in *.
            destruct (String.eqb_spec arg reserved) as [Hr|Hr];
              [|congruence].
            split; [discriminate|]. intros Hr'. contradiction.
Qed.

Lemma provenance_of_parameters_witness :
  let d := [("_name", VStr "Model"); ("layers", VList [VStr "a"; VStr "b"])] in
  let exp := [("a", VInt 1); ("b", VInt 2)] in
  let c := make_class "Model" ["layers"; "p"] [VInt 7] in
  exists obj p2c kwargs,
    build_one EXAMPLES 2 [] exp "m" (VDict d)
    = Ok (Constructed obj (PluginFactory "Model" (Some p2c) [] kwargs))
    /\ keys p2c = ["layers"; "p"]
    /\ dget "p" p2c = Some None
    /\ dget "p" kwargs = Some (VInt 7)
    /\ dget "layers" kwargs = Some (VList [VInt 1; VInt 2]).
Proof.
intros d exp c.
destruct (build_one EXAMPLES 2 [] exp "m" (VDict d))
  as [[obj fac|obj e|m]|e] eqn:E;
  try (vm_compute in E; discriminate).
destruct (provenance_of_parameters EXAMPLES 2 [] exp "m" d "Model" c obj fac
            E eq_refl eq_refl)
  as (p2c & kwargs & -> & _ & Hkeys & _).
{ repeat constructor; simpl; intuition discriminate. }
vm_compute in E. injection E as <- <- <-.
eexists. eexists. eexists. split; [reflexivity|].
split; [exact Hkeys|]. repeat split.
Defined.

(** ** Reading the resolved configuration *)

Lemma dget_scalar_entries env raw k v :
NoDup (keys raw) -> In (k, v) raw -> is_scalar v = true ->
dget k (scalar_entries env raw) = Some (do_env_subs env v).
Proof.
unfold scalar_entries.
induction raw as [|[k0 v0] raw IH]; intros Hnd Hin Hs; [destruct Hin|].
inversion Hnd as [|? ? Hk Hnd']; subst. simpl.
destruct Hin as [[= -> ->]|Hin].
- rewrite Hs. simpl. now rewrite String.eqb_refl.
- assert (Hne : k0 <> k).
  { intros ->. apply Hk. now apply In_value_keys in Hin. }
  destruct (is_scalar v0); simpl; [|auto].
  destruct (String.eqb_spec k0 k); [contradiction | auto].
Qed.

(** X9. On the object that a successful construction returns, exactly the
    top-level keys of the configuration can be read: [__getitem__] returns
    a value for each of them, for a scalar the entry with the environment
    substituted, and raises [KeyError] for any other key, where [get]
    returns its default; [keys] lists each top-level key once; and
    [__setitem__] raises. *)
Theorem facade_reads (CLASSES : dict pyclass) (raw : dict value)
  (env : dict string) (self : instance) :
  NoDup (keys raw) ->
  new_instance CLASSES raw env = Some self ->
  (forall k, In k (keys raw) ->
     exists x, Facade.__getitem__ self k = Got x
               /\ forall default, Facade.get self k default = Got x)
  /\ (forall k, ~ In k (keys raw) ->
        Facade.__getitem__ self k = Failed (KeyError k)
        /\ forall default, Facade.get self k default = Got default)
  /\ (forall k v, In (k, v) raw -> is_scalar v = true ->
        Facade.__getitem__ self k = Got (do_env_subs env v))
  /\ (exists ks, Facade.keys self = Got ks
                 /\ Facade.__iter__ self = Got ks
                 /\ NoDup ks /\ Permutation ks (keys raw))
  /\ (forall k v, Facade.__setitem__ self k v = Failed CannotUpdate).
Proof.
intros Hnd Hnew. unfold new_instance in Hnew.
destruct (__init__ CLASSES raw env) as [st o] eqn:Hrun.
destruct o; try discriminate. injection Hnew as <-.
destruct (init_returned CLASSES raw env st Hnd Hrun) as (Hc & Hne & Hkeys).
unfold Facade.__getitem__, Facade.get, Facade.keys, Facade.__iter__,
  Facade._check_init. simpl.
split; [|split; [|split; [|split]]].
- intros k Hin. apply Hkeys, dmem_true_iff in Hin. unfold dmem in Hin.
  destruct (dget k (experiment st)) as [x|]; [|discriminate]. eauto.
- intros k Hnin. rewrite Hkeys in Hnin. apply dget_None_iff in Hnin.
  now rewrite Hnin.
- intros k v Hin Hs.
  destruct (init_behind CLASSES raw env st Returned Hrun) as (new & He & _).
  rewrite He, classify_experiment by assumption.
  rewrite <- app_assoc.
  now rewrite (dget_app_l k _ _ _ (dget_scalar_entries env raw k v Hnd Hin Hs)).
- exists (keys (experiment st)). repeat split; auto.
  apply NoDup_Permutation; auto. intros k. symmetry. apply Hkeys.
- reflexivity.
Qed.

Lemma facade_reads_witness :
  let raw := [("b", descriptor "Box" [("value", VStr "a")]); ("a", VStr "$X")] in
  NoDup (keys raw)
  /\ exists self,
       new_instance EXAMPLES raw [("$X", "1")] = Some self
       /\ Facade.__getitem__ self "a" = Got (VStr "1")
       /\ Facade.__getitem__ self "c" = Failed (KeyError "c")
       /\ Facade.get self "c" VNone = Got VNone
       /\ Facade.keys self = Got ["a"; "b"].
Proof.
intros raw.
assert (Hnd : NoDup (keys raw)).
{ repeat constructor; simpl; intuition discriminate. }
split; [exact Hnd|].
destruct (new_instance EXAMPLES raw [("$X", "1")]) as [self|] eqn:E;
  [|vm_compute in E; discriminate].
destruct (facade_reads EXAMPLES raw [("$X", "1")] self Hnd E)
  as (_ & Hmiss & Hscalar & _).
assert (Hc : ~ In "c" (keys raw)) by (simpl; intuition discriminate).
destruct (Hmiss "c" Hc) as [Hget Hdef].
specialize (Hscalar "a" (VStr "$X") (or_intror (or_introl eq_refl)) eq_refl).
exists self. split; [reflexivity|].
split; [exact Hscalar|]. split; [exact Hget|]. split; [apply Hdef|].
vm_compute in E. injection E as <-. reflexivity.
Defined.

(** ** More on environment substitution *)

Lemma replace_from_absent old new s :
occurs old s = false -> replace_from old new 0 s = s.
Proof.
induction s as [|c s IH]; simpl; [reflexivity|].
rewrite orb_false_iff. intros [Hp Ho].
rewrite Hp. f_equal. auto.
Qed.

Lemma str_replace_absent s old new :
occurs old s = false -> str_replace s old new = s.
Proof.
destruct old as [|a o].
- destruct s; discriminate.
- apply replace_from_absent.
Qed.

(** X10. A string in which no substitution key occurs is returned as it
    is, whatever the keys are replaced by. *)
Theorem do_env_subs_absent (env : dict string) (s : string) :
  (forall k, In k (keys env) -> occurs k s = false) ->
  do_env_subs env (VStr s) = VStr s.
Proof.
intros Habs. simpl. f_equal.
assert (H : forall ks, (forall k, In k ks -> occurs k s = false) ->
                       fold_left (subst_key env) ks s = s).
{ induction ks as [|k ks IH]; intros Hks; simpl; [reflexivity|].
  assert (Hk : subst_key env s k = s).
  { unfold subst_key. destruct (dget k env); [|reflexivity].
    apply str_replace_absent, Hks. now left. }
  rewrite Hk. apply IH. intros k' Hk'. apply Hks. now right. }
apply H. intros k Hk. apply Habs.
eapply Permutation_in; [apply env_keys_perm | exact Hk].
Qed.

Lemma do_env_subs_absent_witness :
  let env := [("HOME", "/h"); ("DATA", "/d")] in
  (forall k, In k (keys env) -> occurs k "home/data.csv" = false)
  /\ do_env_subs env (VStr "home/data.csv") = VStr "home/data.csv".
Proof.
intros env.
assert (H : forall k, In k (keys env) -> occurs k "home/data.csv" = false).
{ intros k [<-|[<-|[]]]; reflexivity. }
split; [exact H | exact (do_env_subs_absent env _ H)].
Defined.

Lemma insert_by_len_split k l :
exists a b,
  l = a ++ b
  /\ insert_by_len k l = a ++ k :: b
  /\ Forall (fun y => String.length k < String.length y) a.
Proof.
induction l as [|y l (a & b & Hl & Hi & Ha)]; simpl.
- exists [], []. auto.
- destruct (Nat.ltb_spec (String.length k) (String.length y)) as [Hlt|Hge].
  + exists (y :: a), b. subst l. rewrite Hi. auto.
  + exists [], (y :: l). auto.
Qed.

Lemma fold_insert_perm (l : list string) :
Permutation (fold_right insert_by_len [] l) l.
Proof.
induction l as [|k l IH]; simpl; [reflexivity|].
rewrite insert_by_len_perm. now constructor.
Qed.

(** An element put into a list leaves the others in their order. *)
Lemma insert_keeps_order (x k1 k2 : string) (a b m1 m2 m3 : list string) :
m1 ++ k1 :: m2 ++ k2 :: m3 = a ++ b ->
exists n1 n2 n3, a ++ x :: b = n1 ++ k1 :: n2 ++ k2 :: n3.
Proof.
intros H. apply app_eq_app in H as [l [[-> ->]|[-> H]]].
- exists (a ++ x :: l), m2, m3.
  repeat (rewrite <- app_assoc; simpl). reflexivity.
- destruct l as [|y l]; simpl in H.
  + subst b. exists (m1 ++ [x]), m2, m3. rewrite app_nil_r.
    repeat (rewrite <- app_assoc; simpl). reflexivity.
  + injection H as <- H.
    apply app_eq_app in H as [l2 [[-> ->]|[-> H]]].
    * exists m1, (l ++ x :: l2), m3.
      repeat (rewrite <- app_assoc; simpl). reflexivity.
    * destruct l2 as [|z l2]; simpl in H.
      -- subst b. exists m1, (m2 ++ [x]), m3. rewrite app_nil_r.
         repeat (rewrite <- app_assoc; simpl). reflexivity.
      -- injection H as <- ->. exists m1, m2, (l2 ++ x :: b).
         repeat (rewrite <- app_assoc; simpl). reflexivity.
Qed.

(** X11. Substitution keys of the same length are applied in the order in
    which they are given: the sort by length keeps it. *)
Theorem env_keys_stable (env : dict string) (k1 k2 : string)
  (l1 l2 l3 : list string) :
  keys env = l1 ++ k1 :: l2 ++ k2 :: l3 ->
  String.length k1 = String.length k2 ->
  exists m1 m2 m3, env_keys env = m1 ++ k1 :: m2 ++ k2 :: m3.
Proof.
unfold env_keys. intros -> Hlen.
induction l1 as [|x l1 (m1 & m2 & m3 & IH)]; simpl.
- set (sorted := fold_right insert_by_len [] (l2 ++ k2 :: l3)).
  assert (Hin : In k2 sorted).
  { eapply Permutation_in; [symmetry; apply fold_insert_perm|].
    apply in_or_app. right. now left. }
  destruct (insert_by_len_split k1 sorted) as (a & b & Hab & Hi & Ha).
  rewrite Hi. rewrite Hab in Hin. apply in_app_or in Hin as [Hin|Hin].
  + rewrite Forall_forall in Ha. apply Ha in Hin. lia.
  + apply in_split in Hin as (b1 & b2 & ->). now exists a, b1, b2.
- rewrite IH.
  destruct (insert_by_len_split x (m1 ++ k1 :: m2 ++ k2 :: m3))
    as (a & b & Hab & Hi & _).
  rewrite Hi. exact (insert_keeps_order x k1 k2 a b m1 m2 m3 Hab).
Qed.

(** [A] and [B] have the same length: [A], given first, is applied first
    and finds the [A] of the string, although [B] finds one too. *)
Lemma env_keys_stable_witness :
  let env := [("A", "B"); ("B", "c"); ("LONG", "x")] in
  (keys env = [] ++ "A" :: [] ++ "B" :: ["LONG"]
   /\ String.length "A" = String.length "B")
  /\ (exists m1 m2 m3, env_keys env = m1 ++ "A" :: m2 ++ "B" :: m3)
  /\ env_keys env = ["LONG"; "A"; "B"]
  /\ do_env_subs env (VStr "AB") = VStr "cc".
Proof.
intros env.
assert (Hk : keys env = [] ++ "A" :: [] ++ "B" :: ["LONG"]) by reflexivity.
split; [now split|].
split; [exact (env_keys_stable env "A" "B" [] [] ["LONG"] Hk eq_refl)|].
split; reflexivity.
Defined.

(** ** Tiers *)

(** X12. When no registered constructor raises
    [UnconfiguredItemsException], a tier that ends without a fatal
    exception has nothing left to do: [_build_items] run again in the same
    tier on what it left constructs nothing, changes nothing and ends in
    the same way, with the same report. *)
Theorem build_items_idempotent (CLASSES : dict pyclass) (mode : Z)
  (st st' : state) (o : outcome) :
  quiet_constructors CLASSES ->
  _build_items CLASSES mode st = (st', o) ->
  tolerated o = true ->
  _build_items CLASSES mode st' = (st', o).
Proof.
intros Hq.
apply (build_items_rule CLASSES mode (fun _ => True)
         (fun s o => tolerated o = true ->
                     _build_items CLASSES mode s = (s, o))).
- intros s _ Hc _. unfold _build_items. rewrite Hc. simpl.
  now rewrite Hc.
- intros s ss e _ _ Hs Ht. apply (scan_raise _ _ _ _ _ _ _ Hq) in Hs.
  simpl in Ht. destruct e; discriminate.
- intros s ss _ Hne Hs Hc _.
  rewrite (scan_nothing _ _ _ _ Hs Hc).
  rewrite (build_items_stuck CLASSES mode s ss Hne Hs Hc).
  now rewrite (scan_nothing _ _ _ _ Hs Hc).
- auto.
- exact I.
Qed.

Lemma build_items_idempotent_witness :
  let st := {| config := [("b", descriptor "Box" [("value", VStr "a")]);
                          ("c", descriptor "Box" [("value", VStr "nowhere")])];
               experiment := [("a", VInt 5)];
               factories := [("a", ParamFactory (VInt 5))] |} in
  exists st' items,
    _build_items EXAMPLES 0 st
    = (st', Raised (UnconfiguredItemsException items))
    /\ keys (config st') = ["c"]
    /\ _build_items EXAMPLES 0 st'
       = (st', Raised (UnconfiguredItemsException items)).
Proof.
intros st.
destruct (_build_items EXAMPLES 0 st) as [st' o] eqn:E.
assert (Ht : tolerated o = true) by (vm_compute in E; now injection E as _ <-).
pose proof (build_items_idempotent EXAMPLES 0 st st' o EXAMPLES_quiet E Ht)
  as Hagain.
vm_compute in E. injection E as <- <-.
eexists. eexists. split; [reflexivity|]. split; [reflexivity | exact Hagain].
Defined.

Section ModeFacts.

Variable CLASSES : dict pyclass.

Lemma fill_args_no_defaults mode mode' cfg cfg' exp lit named args f :
fill_args mode cfg exp lit named [] args f
= fill_args mode' cfg' exp lit named [] args f.
Proof.
revert f. induction args as [|a args IH]; intros f; simpl; [reflexivity|].
assert (Ha : fill_arg mode cfg exp lit named [] f a
             = fill_arg mode' cfg' exp lit named [] f a) by reflexivity.
rewrite Ha. destruct (fill_arg mode' cfg' exp lit named [] f a); simpl; auto.
Qed.

Lemma build_one_no_defaults mode mode' cfg cfg' exp k v :
(forall n c, class_name v = Some (VStr n) -> dget n CLASSES = Some c ->
             cdefaults c = []) ->
build_one CLASSES mode cfg exp k v = build_one CLASSES mode' cfg' exp k v.
Proof.
unfold build_one. intros H.
destruct v; try reflexivity. simpl in H.
destruct (dget "_name" d) as [name|]; [|reflexivity].
destruct name; try reflexivity. simpl.
destruct (dget s CLASSES) as [c|] eqn:Ec; [|reflexivity].
destruct (literal_params d) as [lit|]; [|reflexivity]. simpl.
unfold default_params. rewrite (H s c eq_refl Ec).
now rewrite (fill_args_no_defaults mode mode' cfg cfg').
Qed.

Lemma scan_no_defaults mode mode' cfg cfg' items ss :
(forall k v, In (k, v) items ->
   forall n c, class_name v = Some (VStr n) -> dget n CLASSES = Some c ->
               cdefaults c = []) ->
scan CLASSES mode cfg items ss = scan CLASSES mode' cfg' items ss.
Proof.
revert ss. induction items as [|[k v] items IH]; intros ss H; simpl.
- reflexivity.
- rewrite (build_one_no_defaults mode mode' cfg cfg' (s_experiment ss) k v)
    by (apply (H k v); now left).
  destruct (build_one CLASSES mode' cfg' (s_experiment ss) k v)
    as [[obj fac|obj e|m]|e]; try reflexivity;
    apply IH; intros k' v' Hin; apply (H k' v'); now right.
Qed.

End ModeFacts.

(** X13. The tiers differ by their use of constructor defaults only: when
    no class that the configuration names has a default, and no registered
    constructor raises [UnconfiguredItemsException], tiers 1 and 2 find
    nothing to do, and construction ends as tier 0 ends, with the same
    resolved values and the same report. *)
Theorem tiers_without_defaults (CLASSES : dict pyclass) (raw : dict value)
  (env : dict string) :
  quiet_constructors CLASSES ->
  (forall k v n c,
      In (k, v) raw -> class_name v = Some (VStr n) ->
      dget n CLASSES = Some c -> cdefaults c = []) ->
  __init__ CLASSES raw env = _build_items CLASSES 0 (classify raw env).
Proof.
intros Hq Hnone.
assert (Hfix : forall st0 o0,
          _build_items CLASSES 0 (classify raw env) = (st0, o0) ->
          tolerated o0 = true ->
          forall mode, _build_items CLASSES mode st0 = (st0, o0)).
{ intros st0 o0.
  apply (build_items_rule CLASSES 0
           (fun s => forall k v, In (k, v) (config s) -> In (k, v) raw)
           (fun s o => tolerated o = true ->
                       forall mode, _build_items CLASSES mode s = (s, o))).
  - intros s _ Hc _ mode. unfold _build_items. rewrite Hc. simpl.
    now rewrite Hc.
  - intros s ss e _ _ Hs Ht. apply (scan_raise _ _ _ _ _ _ _ Hq) in Hs.
    simpl in Ht. destruct e; discriminate.
  - intros s ss Hsub Hne Hs Hc _ mode.
    rewrite (scan_nothing _ _ _ _ Hs Hc).
    assert (Hs' : scan CLASSES mode (config s) (config s) (scan_start s)
                  = (ss, None)).
    { rewrite <- Hs. apply scan_no_defaults.
      intros k v Hin n c. apply (Hnone k v n c). now apply Hsub. }
    rewrite (build_items_stuck CLASSES mode s ss Hne Hs' Hc).
    now rewrite (scan_nothing _ _ _ _ Hs Hc).
  - intros s ss Hsub _ _ _ k v Hin. simpl in Hin.
    apply In_ddel_all in Hin as [Hin _]. auto.
  - apply classify_pending. }
unfold __init__, run_tiers.
destruct (_build_items CLASSES 0 (classify raw env)) as [st0 o0] eqn:E0.
destruct (tolerated o0) eqn:T0; [|reflexivity].
rewrite (Hfix st0 o0 eq_refl T0 1%Z), T0.
apply (Hfix st0 o0 eq_refl T0).
Qed.

Lemma tiers_without_defaults_witness :
  let raw := [("b", descriptor "Box" [("value", VStr "a")]);
              ("c", descriptor "Box" [("value", VStr "nowhere")]);
              ("a", VInt 5)] in
  (forall k v n c,
      In (k, v) raw -> class_name v = Some (VStr n) ->
      dget n EXAMPLES = Some c -> cdefaults c = [])
  /\ __init__ EXAMPLES raw [] = _build_items EXAMPLES 0 (classify raw []).
Proof.
intros raw.
assert (H : forall k v n c,
          In (k, v) raw -> class_name v = Some (VStr n) ->
          dget n EXAMPLES = Some c -> cdefaults c = []).
{ intros k v n c [[= <- <-]|[[= <- <-]|[[= <- <-]|[]]]] Hn Hc;
    simpl in Hn; try discriminate; injection Hn as <-;
    simpl in Hc; injection Hc as <-; reflexivity. }
split; [exact H|].
exact (tiers_without_defaults EXAMPLES raw [] EXAMPLES_quiet H).
Defined.

(** ** The report *)


